(** * Rotated surface code lattice: geometry, readout parsing, syndrome changes

    A shallow embedding of [qtcodes/circuits/rotated_surface.py]
    (classes [_RotatedLattice] and [RotatedQubit]) and the properties of its
    lattice geometry, its final-readout reconstruction, its syndrome-change
    extraction, and of the registers, the blueprint and the rounds of
    stabilization that it builds on a circuit.

    Python integers are unbounded, so they are modelled by [Z]; Python's
    [//] and [%] round towards minus infinity and give the remainder the sign
    of the divisor, exactly like [Z.div] and [Z.modulo] (for a non-zero
    divisor; a zero divisor raises [ZeroDivisionError]).  Exceptions are
    modelled by an error monad.  The coordinates that the source computes in
    floating point are half-integers of small magnitude, on which binary64
    arithmetic is exact; they are modelled by rationals [Q]. *)

From Stdlib Require Import String Ascii.
From Stdlib Require Import ZArith QArith Bool Lia List.
From Stdlib Require Import DecimalString.
From Stdlib Require DecimalZ.
Import ListNotations.

Local Open Scope Z_scope.
Local Open Scope list_scope.

(** ** Python's built-ins, as far as the lattice code uses them *)

Module Py.

Inductive exn : Type :=
| LatticeError
| AssertionError
| TypeError
| IndexError
| ValueError
| ZeroDivisionError.

Inductive result (A : Type) : Type :=
| Ok (a : A)
| Raise (e : exn).

Arguments Ok {A} a.
Arguments Raise {A} e.

Definition bind {A B : Type} (m : result A) (k : A -> result B) : result B :=
  match m with
  | Ok a => k a
  | Raise e => Raise e
  end.

Definition is_ok {A : Type} (m : result A) : bool :=
  match m with Ok _ => true | Raise _ => false end.

(** A list comprehension (or a loop that appends) whose body may raise. *)
Fixpoint mapM {A B : Type} (f : A -> result B) (l : list A) : result (list B) :=
  match l with
  | [] => Ok []
  | x :: xs =>
      bind (f x) (fun y => bind (mapM f xs) (fun ys => Ok (y :: ys)))
  end.

(** [a // b] and [a % b]. *)
Definition floordiv (a b : Z) : result Z :=
  if b =? 0 then Raise ZeroDivisionError else Ok (a / b).

Definition pymod (a b : Z) : result Z :=
  if b =? 0 then Raise ZeroDivisionError else Ok (a mod b).

(** [a >> n]: a negative shift count raises [ValueError]. *)
Definition rshift (a n : Z) : result Z :=
  if n <? 0 then Raise ValueError else Ok (Z.shiftr a n).

(** [range(n)]: empty when [n <= 0]. *)
Definition range (n : Z) : list Z :=
  map Z.of_nat (seq 0 (Z.to_nat n)).

(** [range(start, stop, step)], with CPython's length computation. *)
Definition range3 (start stop step : Z) : result (list Z) :=
  if step =? 0 then Raise ValueError
  else
    let len :=
      if 0 <? step then
        if start <? stop then (stop - start - 1) / step + 1 else 0
      else
        if stop <? start then (start - stop - 1) / (- step) + 1 else 0 in
    Ok (map (fun i => start + Z.of_nat i * step) (seq 0 (Z.to_nat len))).

(** [l[i]]: a negative index counts from the end; out of range raises. *)
Definition getitem {A : Type} (l : list A) (i : Z) : result A :=
  let n := Z.of_nat (length l) in
  let j := if i <? 0 then i + n else i in
  if (j <? 0) || (n <=? j) then Raise IndexError
  else match nth_error l (Z.to_nat j) with
       | Some x => Ok x
       | None => Raise IndexError
       end.

(** The bound of a slice, clipped to the sequence as Python does. *)
Definition slice_bound (len : nat) (n : Z) : nat :=
  if n <? 0 then Z.to_nat (Z.max 0 (Z.of_nat len + n))
  else Z.to_nat n.

(** [l[n:]] and [l[:n]]. *)
Definition slice_from {A : Type} (n : Z) (l : list A) : list A :=
  skipn (slice_bound (length l) n) l.

Definition slice_to {A : Type} (n : Z) (l : list A) : list A :=
  firstn (slice_bound (length l) n) l.

(** [s * n] for a sequence [s]: empty when [n <= 0]. *)
Definition repeat_seq {A : Type} (s : list A) (n : Z) : list A :=
  concat (repeat s (Z.to_nat n)).

(** Strings are sequences of characters. *)
Definition str : Type := list ascii.

Definition digit_of_char (c : ascii) : option Z :=
  let n := Z.of_nat (nat_of_ascii c) in
  if (48 <=? n) && (n <=? 57) then Some (n - 48) else None.

(** [int(s, base)] on a non-empty string of digits below [base], which is
    all that the wire format holds; [int(q)] on one character is the case
    of base 10.  Python also accepts a sign, surrounding blanks, underscores
    and a base prefix: on those the model reports [ValueError], and no
    property below rests on that. *)
Fixpoint int_digits (base acc : Z) (s : str) : result Z :=
  match s with
  | [] => Ok acc
  | c :: s' =>
      match digit_of_char c with
      | Some v => if v <? base then int_digits base (acc * base + v) s'
                  else Raise ValueError
      | None => Raise ValueError
      end
  end.

Definition int_base (base : Z) (s : str) : result Z :=
  match s with
  | [] => Raise ValueError
  | _ => int_digits base 0 s
  end.

Definition int_of_str (s : str) : result Z := int_base 10 s.

(** [str(n)] for an integer. *)
Definition str_of_int (n : Z) : str :=
  list_ascii_of_string (NilZero.string_of_int (Z.to_int n)).

(** [s.split(" ")]: cuts at every single space, keeps empty chunks. *)
Fixpoint split_space (cur : str) (s : str) : list str :=
  match s with
  | [] => [rev cur]
  | c :: s' =>
      if Ascii.eqb c " "%char then rev cur :: split_space [] s'
      else split_space (c :: cur) s'
  end.

Definition split (s : str) : list str := split_space [] s.

(** [zip(l, l[1:])]. *)
Definition zip {A B : Type} (l : list A) (l' : list B) : list (A * B) :=
  combine l l'.

(** [sum(l)]. *)
Definition sum (l : list Z) : Z := fold_left Z.add l 0.

(** [int(x)] for a finite number: truncation towards zero. *)
Definition int_of_number (x : Q) : Z := Z.quot (Qnum x) (Z.pos (Qden x)).

End Py.

Import Py.

Notation "x <- m ;; k" := (bind m (fun x => k))
  (at level 61, m at next level, right associativity).
Notation "' pat <- m ;; k" := (bind m (fun x => match x with pat => k end))
  (at level 61, pat pattern, m at next level, right associativity).

Definition lit (s : string) : str := list_ascii_of_string s.

(** ** The lattice: parameters and geometry *)

(** Modelled from the spec: the base class [_TopologicalLattice]
    ([qtcodes/circuits/base.py]) is not among the sources.  Its class
    constants index the pair [params["d"]] (height [H], width [W]; [DW] is
    the width as the stride of the leftmost column, "indices 0, dw, 2dw, ...")
    and the pair [params["num_syn"]] ("Number of X (index 0), Z (index 1)
    syndromes"). *)
Definition H : Z := 0.
Definition W : Z := 1.
Definition DW : Z := 1.
Definition SYNX : Z := 0.
Definition SYNZ : Z := 1.

(** The value stored under [params["d"]] by the caller: a number or a
    sequence of numbers (a finite [int] or [float] is a rational). *)
Inductive dparam : Type :=
| DNumber (x : Q)
| DTuple (l : list Q).

(** [self.params], with the keys that the lattice code writes. *)
Record Params : Type := mkParams {
  d : list Z;
  T : Z;
  num_readout : Z;
  num_lattice_readout : Z;
  num_data : Z;
  num_syn : list Z
}.

(** The three normalisation steps of [params["d"]]: the default [(3, 3)],
    the square lattice [(d, d)] of a single number, and the conversion of
    every component by [int] (which leaves the integers of the first two
    steps as they are). *)
Definition normalise_d (dopt : option dparam) : list Z :=
  match dopt with
  | None => [3; 3]
  | Some (DNumber x) => let d := int_of_number x in [d; d]
  | Some (DTuple l) => map int_of_number l
  end.

Definition _params_validate_and_generate (dopt : option dparam) : result Params :=
  let dt := normalise_d dopt in
  dh <- getitem dt H ;;
  dw <- getitem dt W ;;
  if negb (dh mod 2 =? 1) || negb (dw mod 2 =? 1) then Raise LatticeError
  else
    Ok {| d := dt;
          T := -1;
          num_readout := -1;
          num_lattice_readout := -1;
          num_data := dh * dw;
          num_syn := [((dh + 1) / 2) * (dw - 1); ((dw + 1) / 2) * (dh - 1)] |}.

(** A plaquette is the list [[syn, top_l, top_r, bot_l, bot_r]]; an absent
    data qubit is [None]. *)
Definition plaquette : Type := list (option Z).

(** [self.geometry], once built: the plaquettes under "mx" and under "mz". *)
Record Geometry : Type := mkGeometry {
  mx : list plaquette;
  mz : list plaquette
}.

(** The body of the first loop of [_set_geometry]. *)
Definition plaquette_x (dh dw per_row_x syn : Z) : result plaquette :=
  row <- floordiv syn per_row_x ;;
  offset <- pymod syn per_row_x ;;
  let start := (row - 1) * dw in
  let row_parity := row mod 2 in
  let '(top_l, top_r, bot_l, bot_r) :=
    if row =? 0 then
      (None, None, Some (syn * 2), Some (syn * 2 + 1))
    else if row =? dh then
      (Some (start + (offset * 2) + 1), Some (start + (offset * 2) + 2),
       None, None)
    else
      (Some (start + (offset * 2) + row_parity),
       Some (start + (offset * 2) + row_parity + 1),
       Some (start + dw + (offset * 2) + row_parity),
       Some (start + dw + (offset * 2) + row_parity + 1)) in
  Ok [Some syn; top_l; top_r; bot_l; bot_r].

(** The body of the second loop of [_set_geometry]. *)
Definition plaquette_z (dw per_row_z syn : Z) : result plaquette :=
  row <- floordiv syn per_row_z ;;
  offset <- pymod syn per_row_z ;;
  let start := row * dw in
  let row_parity := row mod 2 in
  let top_l := Some (start + (offset * 2) - row_parity) in
  let top_r := Some (start + (offset * 2) - row_parity + 1) in
  let bot_l := Some (start + dw + (offset * 2) - row_parity) in
  let bot_r := Some (start + dw + (offset * 2) - row_parity + 1) in
  let '(top_l, top_r, bot_l, bot_r) :=
    if (row_parity =? 0) && (offset =? per_row_z - 1) then
      (top_l, None, bot_l, None)
    else if (row_parity =? 1) && (offset =? 0) then
      (None, top_r, None, bot_r)
    else (top_l, top_r, bot_l, bot_r) in
  Ok [Some syn; top_l; top_r; bot_l; bot_r].

Definition _set_geometry (p : Params) : result Geometry :=
  dh <- getitem (d p) H ;;
  dw <- getitem (d p) W ;;
  let per_row_x := (dw - 1) / 2 in
  let per_row_z := (dw + 1) / 2 in
  nx <- getitem (num_syn p) SYNX ;;
  gx <- mapM (plaquette_x dh dw per_row_x) (range nx) ;;
  nz <- getitem (num_syn p) SYNZ ;;
  gz <- mapM (plaquette_z dw per_row_z) (range nz) ;;
  Ok {| mx := gx; mz := gz |}.

(** The state of a lattice object that the readout code reads. *)
Record Lattice : Type := mkLattice {
  params : Params;
  geometry : Geometry
}.

(** Modelled from the spec: the constructor of the base class, which is not
    among the sources, validates the dimensions and then builds the geometry
    ("dimensions -> geometry"). *)
Definition new_lattice (dopt : option dparam) : result Lattice :=
  p <- _params_validate_and_generate dopt ;;
  g <- _set_geometry p ;;
  Ok {| params := p; geometry := g |}.

(** The parameter "d" as a caller writes it: a pair of integers, or one
    integer. *)
Definition dims (dh dw : Z) : option dparam :=
  Some (DTuple [inject_Z dh; inject_Z dw]).

Definition dim (d : Z) : option dparam := Some (DNumber (inject_Z d)).

(** ** Reconstruction of the final round from a lattice readout *)

(** [[int(q) for q in final_readout_string][::-1]]. *)
Definition readout_values (final_readout_string : str) : result (list Z) :=
  vals <- mapM (fun q => int_of_str [q]) final_readout_string ;;
  Ok (rev vals).

(** The parity of one plaquette: the sum over [idx_list[1:]], modulo 2. *)
Definition stabilizer_val (vals : list Z) (idx_list : plaquette) : result Z :=
  xs <- mapM (fun idx => match idx with
                         | Some i => getitem vals i
                         | None => Ok 0
                         end) (slice_from 1 idx_list) ;;
  Ok (sum xs mod 2).

(** The loop that prepends [str(stabilizer_val)] for each plaquette in turn. *)
Fixpoint stabilizer_loop (vals : list Z) (pls : list plaquette) (acc : str)
  : result str :=
  match pls with
  | [] => Ok acc
  | idx_list :: rest =>
      v <- stabilizer_val vals idx_list ;;
      stabilizer_loop vals rest (str_of_int v ++ acc)
  end.

(** The loop [logical_readout = (logical_readout + readout_values[idx]) % 2]. *)
Fixpoint logical_loop (vals : list Z) (idxs : list Z) (logical_readout : Z)
  : result Z :=
  match idxs with
  | [] => Ok logical_readout
  | idx :: rest =>
      v <- getitem vals idx ;;
      logical_loop vals rest ((logical_readout + v) mod 2)
  end.

Definition extract_final_stabilizer_and_logical_readout_x
    (self : Lattice) (final_readout_string previous_syndrome_string : str)
  : result (Z * str) :=
  vals <- readout_values final_readout_string ;;
  x_stabilizer <- stabilizer_loop vals (mx (geometry self)) [] ;;
  nx <- getitem (num_syn (params self)) SYNX ;;
  let stabilizer_str := x_stabilizer ++ slice_from nx previous_syndrome_string in
  step <- getitem (d (params self)) DW ;;
  idxs <- range3 0 (num_data (params self)) step ;;
  logical_readout <- logical_loop vals idxs 0 ;;
  Ok (logical_readout, stabilizer_str).

Definition extract_final_stabilizer_and_logical_readout_z
    (self : Lattice) (final_readout_string previous_syndrome_string : str)
  : result (Z * str) :=
  vals <- readout_values final_readout_string ;;
  z_stabilizer <- stabilizer_loop vals (mz (geometry self)) [] ;;
  nx <- getitem (num_syn (params self)) SYNX ;;
  let stabilizer_str := slice_to nx previous_syndrome_string ++ z_stabilizer in
  dw <- getitem (d (params self)) W ;;
  logical_readout <- logical_loop vals (range dw) 0 ;;
  Ok (logical_readout, stabilizer_str).

Definition str_eqb (a b : str) : bool :=
  if list_eq_dec ascii_dec a b then true else false.

(** The wrapper returns [None] when the axis is neither "X" nor "Z". *)
Definition extract_final_stabilizer_and_logical_readout
    (self : Lattice) (final_readout_string previous_syndrome_string : str)
    (readout_type : str) : result (option (Z * str)) :=
  if str_eqb readout_type (lit "X") then
    r <- extract_final_stabilizer_and_logical_readout_x
           self final_readout_string previous_syndrome_string ;;
    Ok (Some r)
  else if str_eqb readout_type (lit "Z") then
    r <- extract_final_stabilizer_and_logical_readout_z
           self final_readout_string previous_syndrome_string ;;
    Ok (Some r)
  else Ok None.

(** ** Syndrome changes *)

(** A syndrome hit [(time, row, col)]. *)
Definition TQubit : Type := (Q * Q * Q)%type.

(** The dictionary [{"X": X, "Z": Z}] that [parse_readout] returns. *)
Record Syndromes : Type := mkSyndromes {
  hits_X : list TQubit;
  hits_Z : list TQubit
}.

Definition flat_mapM {A B : Type} (f : A -> result (list B)) (l : list A)
  : result (list B) :=
  ls <- mapM f l ;;
  Ok (concat ls).

(** [enumerate(l)]. *)
Definition enumerate {A : Type} (l : list A) : list (Z * A) :=
  combine (range (Z.of_nat (length l))) l.

(** [[int(x, base=2) for x in chunks[::-1]]]. *)
Definition int_syndromes (chunks : list str) : result (list Z) :=
  mapM (int_base 2) (rev chunks).

(** [[a ^ b for (a, b) in zip(int_syndromes, int_syndromes[1:])]]. *)
Definition xor_syndromes (ints : list Z) : list Z :=
  map (fun '(a, b) => Z.lxor a b) (zip ints (slice_from 1 ints)).

(** The body of the X loop for one change value and one location. *)
Definition x_hit (per_row_x T syndrome loc : Z) : result (list TQubit) :=
  if Z.land syndrome (Z.shiftl 1 loc) =? 0 then Ok []
  else
    q <- floordiv loc per_row_x ;;
    let row := ((-1 # 2) + inject_Z q)%Q in
    q' <- floordiv loc per_row_x ;;
    r <- pymod loc per_row_x ;;
    let col := (((1 # 2) + inject_Z (q' mod 2)) + inject_Z (r * 2))%Q in
    Ok [(inject_Z T, row, col)].

(** The body of the Z loop for one change value and one location. *)
Definition z_hit (per_row_z T syndrome loc : Z) : result (list TQubit) :=
  if Z.land syndrome (Z.shiftl 1 loc) =? 0 then Ok []
  else
    q <- floordiv loc per_row_z ;;
    let row := ((1 # 2) + inject_Z q)%Q in
    q' <- floordiv loc per_row_z ;;
    r <- pymod loc per_row_z ;;
    let col := (((1 # 2) - inject_Z (q' mod 2)) + inject_Z (r * 2))%Q in
    Ok [(inject_Z T, row, col)].

(** The two nested loops over [enumerate(syndromes)] and [range(n)]. *)
Definition hits (hit : Z -> Z -> Z -> result (list TQubit)) (n : Z)
    (syndromes : list Z) : result (list TQubit) :=
  flat_mapM (fun '(T, syndrome) => flat_mapM (hit T syndrome) (range n))
            (enumerate syndromes).

(** The chunks after the first one has been interpreted, with the logical
    readout: the [if]/[else] at the head of [parse_readout]. *)
Definition head_chunks (self : Lattice) (chunks : list str)
    (readout_type : option str) : result (Z * list str) :=
  c0 <- getitem chunks 0 ;;
  if 1 <? Z.of_nat (length c0) then
    match readout_type with
    | None => Raise AssertionError
    | Some rt =>
        c1 <- getitem chunks 1 ;;
        r <- extract_final_stabilizer_and_logical_readout self c0 c1 rt ;;
        match r with
        | None => Raise TypeError
        | Some (logical_readout, final_stabilizer) =>
            Ok (logical_readout, [final_stabilizer] ++ slice_from 1 chunks)
        end
    end
  else
    logical_readout <- int_of_str c0 ;;
    Ok (logical_readout, slice_from 1 chunks).

(** The change values of each axis: the X field shifted down, the Z field. *)
Definition x_syndromes (nx nz : Z) (xors : list Z) : result (list Z) :=
  let mask_x := repeat_seq (lit "1") nx ++ repeat_seq (lit "0") nz in
  mapM (fun x => m <- int_base 2 mask_x ;; rshift (Z.land x m) nz) xors.

Definition z_syndromes (nz : Z) (xors : list Z) : result (list Z) :=
  let mask_z := repeat_seq (lit "1") nz in
  match mask_z with
  | [] => Ok []
  | _ => mapM (fun x => m <- int_base 2 mask_z ;; Ok (Z.land x m)) xors
  end.

(** The part of [parse_readout] after the chunks are known. *)
Definition parse_chunks (self : Lattice) (chunks : list str)
  : result Syndromes :=
  ints <- int_syndromes chunks ;;
  let xors := xor_syndromes ints in
  let num_syn := num_syn (params self) in
  nz <- getitem num_syn SYNZ ;;
  nx <- getitem num_syn SYNX ;;
  xs <- x_syndromes nx nz xors ;;
  zs <- z_syndromes nz xors ;;
  dw <- getitem (d (params self)) W ;;
  let per_row_x := dw / 2 in
  X <- hits (x_hit per_row_x) nx xs ;;
  let per_row_z := dw / 2 + 1 in
  Z <- hits (z_hit per_row_z) nz zs ;;
  Ok {| hits_X := X; hits_Z := Z |}.

Definition parse_readout_result (self : Lattice) (readout_string : str)
    (readout_type : option str) : result (Z * Syndromes) :=
  let chunks := split readout_string in
  '(logical_readout, chunks) <- head_chunks self chunks readout_type ;;
  syndromes <- parse_chunks self chunks ;;
  Ok (logical_readout, syndromes).

(** A method call: its outcome and the object afterwards.  [parse_readout]
    assigns to no attribute of [self], so the object is handed back as it
    was, whether the call returns or raises. *)
Definition parse_readout (self : Lattice) (readout_string : str)
    (readout_type : option str) : result (Z * Syndromes) * Lattice :=
  (parse_readout_result self readout_string readout_type, self).

(** * Vocabulary of the properties *)

(** What validation computes from a pair of integers. *)
Definition generated (dh dw : Z) : Params :=
  {| d := [dh; dw];
     T := -1;
     num_readout := -1;
     num_lattice_readout := -1;
     num_data := dh * dw;
     num_syn := [((dh + 1) / 2) * (dw - 1); ((dw + 1) / 2) * (dh - 1)] |}.

(** The characters of a binary string, and the bit that each stands for. *)
Definition is_bit (c : ascii) : Prop := c = "0"%char \/ c = "1"%char.

Definition bit_of_char (c : ascii) : Z := if Ascii.eqb c "1"%char then 1 else 0.

Definition char_of_bit (b : Z) : ascii := if b =? 0 then "0"%char else "1"%char.

(** The data-qubit values of a readout string, in index-ascending order
    (the string holds the last qubit first). *)
Definition data_bits (final_readout_string : str) : list Z :=
  rev (map bit_of_char final_readout_string).

(** The parity of a plaquette in the words of the specification: the sum,
    modulo 2, of the data bits that the plaquette refers to, an absent
    reference counting for 0. *)
Definition plaquette_parity (bits : list Z) (pl : plaquette) : Z :=
  sum (map (fun idx => match idx with
                       | Some i => nth (Z.to_nat i) bits 0
                       | None => 0
                       end) (tl pl)) mod 2.

(** The XOR of the data bits at the given indices. *)
Definition xor_bits (bits : list Z) (idxs : list Z) : Z :=
  fold_right (fun i acc => Z.lxor (nth (Z.to_nat i) bits 0) acc) 0 idxs.

(** The indices of the leftmost column, [0, dw, 2dw, ...], and of the
    topmost row, [0 .. dw-1]. *)
Definition leftmost_column (dh dw : Z) : list Z :=
  map (fun k => k * dw) (range dh).

Definition topmost_row (dw : Z) : list Z := range dw.

(** Decidable forms: a string of bits, a string of zeros. *)
Definition binary (s : str) : bool :=
  forallb (fun c => Ascii.eqb c "0"%char || Ascii.eqb c "1"%char) s.

Definition all_zero (s : str) : bool :=
  forallb (fun c => Ascii.eqb c "0"%char) s.

(** The numbers of X and of Z plaquettes, as the specification gives them. *)
Definition num_syn_X (dh dw : Z) : Z := ((dh + 1) / 2) * (dw - 1).
Definition num_syn_Z (dh dw : Z) : Z := ((dw + 1) / 2) * (dh - 1).

(** The list with [f] applied at position [n] (unchanged out of range). *)
Fixpoint update_nth {A : Type} (n : nat) (f : A -> A) (l : list A) : list A :=
  match l, n with
  | [], _ => []
  | x :: l', O => f x :: l'
  | x :: l', S n' => x :: update_nth n' f l'
  end.

Definition flip_char (c : ascii) : ascii :=
  if Ascii.eqb c "0"%char then "1"%char else "0"%char.

(** The readout string in which the value of data qubit [idx] is flipped;
    the qubits are counted from the end of the string. *)
Definition flip_qubit (idx : Z) (final_readout_string : str) : str :=
  rev (update_nth (Z.to_nat idx) flip_char (rev final_readout_string)).

(** The lattice that construction builds for d=3 (see [new_lattice_d3]). *)
Definition lattice_d3 : Lattice :=
  {| params := generated 3 3;
     geometry :=
       {| mx := [[Some 0; None; None; Some 0; Some 1];
                 [Some 1; Some 1; Some 2; Some 4; Some 5];
                 [Some 2; Some 3; Some 4; Some 6; Some 7];
                 [Some 3; Some 7; Some 8; None; None]];
          mz := [[Some 0; Some 0; Some 1; Some 3; Some 4];
                 [Some 1; Some 2; None; Some 5; None];
                 [Some 2; None; Some 3; None; Some 6];
                 [Some 3; Some 4; Some 5; Some 7; Some 8]] |} |}.

(** The time component of an event. *)
Definition time (e : TQubit) : Q := fst (fst e).

(** A syndrome round on the wire: a non-empty binary string. *)
Definition syndrome_chunk (c : str) : bool :=
  match c with
  | [] => false
  | _ => binary c
  end.

(** [enumerate(l, start=s)]. *)
Definition enumerate_from {A : Type} (s : nat) (l : list A) : list (Z * A) :=
  combine (map Z.of_nat (seq s (length l))) l.

(** The events of one change value: the inner loop over [range(n)]. *)
Definition hits_row (hit : Z -> Z -> Z -> result (list TQubit)) (n : Z)
    (p : Z * Z) : result (list TQubit) :=
  let '(T, syndrome) := p in flat_mapM (hit T syndrome) (range n).

(** ** Vocabulary of the further properties *)

(** The parameters with another value under "d". *)
Definition with_d (p : Params) (dt : list Z) : Params :=
  {| d := dt;
     T := T p;
     num_readout := num_readout p;
     num_lattice_readout := num_lattice_readout p;
     num_data := num_data p;
     num_syn := num_syn p |}.

(** The data qubit [o], when present, lies on grid row [r] and column [c]
    (row-major numbering: row [idx // dw], column [idx % dw]). *)
Definition at_grid (dw : Z) (o : option Z) (r c : Q) : Prop :=
  match o with
  | None => True
  | Some i => (inject_Z (i / dw) == r)%Q /\ (inject_Z (i mod dw) == c)%Q
  end.

(** The data qubits of the plaquette are corners of the unit square centred
    at [(row, col)]: the top pair half a row above, the left pair half a
    column to the left. *)
Definition centred_at (dw : Z) (pl : plaquette) (row col : Q) : Prop :=
  match pl with
  | [_; top_l; top_r; bot_l; bot_r] =>
      at_grid dw top_l (row - (1 # 2))%Q (col - (1 # 2))%Q /\
      at_grid dw top_r (row - (1 # 2))%Q (col + (1 # 2))%Q /\
      at_grid dw bot_l (row + (1 # 2))%Q (col - (1 # 2))%Q /\
      at_grid dw bot_r (row + (1 # 2))%Q (col + (1 # 2))%Q
  | _ => False
  end.

(** A character that [int] reads: a decimal digit. *)
Definition is_digit (c : ascii) : bool :=
  match digit_of_char c with
  | Some _ => true
  | None => false
  end.

(** The data qubits that a plaquette names, and whether [idx] is one. *)
Definition present (pl : plaquette) : list Z :=
  flat_map (fun o : option Z => match o with Some i => [i] | None => [] end)
           (tl pl).

Definition names (pl : plaquette) (idx : Z) : bool :=
  existsb (fun i => i =? idx) (present pl).

(** The row and the column of an event. *)
Definition row_of (e : TQubit) : Q := snd (fst e).
Definition col_of (e : TQubit) : Q := snd e.

(** The string of [n] zeros. *)
Definition zeros (n : Z) : str := repeat "0"%char (Z.to_nat n).

(** ** Registers, the blueprint of the circuit and the rounds of stabilization *)

(** What the circuit code can raise besides the exceptions of the built-ins:
    the [KeyError] of a dict and qiskit's [CircuitError]. *)
Inductive circuit_exn : Type :=
| PyExn (e : exn)
| KeyError
| CircuitError.

Inductive outcome (A : Type) : Type :=
| Done (a : A)
| Fail (e : circuit_exn).

Arguments Done {A} a.
Arguments Fail {A} e.

Definition lift {A : Type} (m : result A) : outcome A :=
  match m with
  | Ok a => Done a
  | Raise e => Fail (PyExn e)
  end.

Definition and_then {A B : Type} (m : outcome A) (k : A -> outcome B)
  : outcome B :=
  match m with
  | Done a => k a
  | Fail e => Fail e
  end.

Notation "x <~ m ;; k" := (and_then m (fun x => k))
  (at level 61, m at next level, right associativity).

Fixpoint forM {A B : Type} (f : A -> outcome B) (l : list A)
  : outcome (list B) :=
  match l with
  | [] => Done []
  | x :: xs => y <~ f x ;; ys <~ forM f xs ;; Done (y :: ys)
  end.

(** A dict with string keys, in insertion order: [dc[k]] and [dc[k] = v]. *)
Definition dict (V : Type) : Type := list (str * V).

Fixpoint dict_get {V : Type} (dc : dict V) (k : str) : outcome V :=
  match dc with
  | [] => Fail KeyError
  | (k', v) :: rest => if str_eqb k' k then Done v else dict_get rest k
  end.

Fixpoint dict_set {V : Type} (dc : dict V) (k : str) (v : V) : dict V :=
  match dc with
  | [] => [(k, v)]
  | (k', v') :: rest =>
      if str_eqb k' k then (k', v) :: rest else (k', v') :: dict_set rest k v
  end.

(** [l[a:b]]. *)
Definition slice {A : Type} (a b : Z) (l : list A) : list A :=
  let lo := slice_bound (length l) a in
  let hi := slice_bound (length l) b in
  firstn (hi - lo) (skipn lo l).

(** qiskit's registers, as far as the lattice code uses them: a register has
    a size, which must not be negative, and a name; its bits are the pairs
    of the register and an index below its size; [len] is its size; an integer
    index selects from the list of its bits, and an index that is no integer
    is refused. *)
Record Register : Type := mkRegister {
  reg_size : Z;
  reg_name : str
}.

Definition Bit : Type := (Register * Z)%type.

Definition QuantumRegister (size : Z) (name : str) : outcome Register :=
  if size <? 0 then Fail CircuitError
  else Done {| reg_size := size; reg_name := name |}.

Definition ClassicalRegister (size : Z) (name : str) : outcome Register :=
  if size <? 0 then Fail CircuitError
  else Done {| reg_size := size; reg_name := name |}.

Definition bits (r : Register) : list Bit :=
  map (fun i => (r, i)) (range (reg_size r)).

Definition reg_getitem (r : Register) (i : option Z) : outcome Bit :=
  match i with
  | Some i => lift (getitem (bits r) i)
  | None => Fail CircuitError
  end.

(** [_gen_registers]: the dict [self.qregisters] before and after. *)
Definition _gen_registers (name : str) (p : Params) (qregisters : dict Register)
  : outcome (dict Register) :=
  data <~ QuantumRegister (num_data p) (name ++ lit "_data") ;;
  let qregisters := dict_set qregisters (lit "data") data in
  let num_syn := num_syn p in
  nz <~ lift (getitem num_syn SYNZ) ;;
  qregisters <~
    (if 0 <? nz then
       mz <~ QuantumRegister nz (name ++ lit "_mz") ;;
       Done (dict_set qregisters (lit "mz") mz)
     else Done qregisters) ;;
  nx <~ lift (getitem num_syn SYNX) ;;
  qregisters <~
    (if 0 <? nx then
       mx <~ QuantumRegister nx (name ++ lit "_mx") ;;
       Done (dict_set qregisters (lit "mx") mx)
     else Done qregisters) ;;
  ancilla <~ QuantumRegister 1 (name ++ lit "_ancilla") ;;
  Done (dict_set qregisters (lit "ancilla") ancilla).

Section Blueprint.

(** The subclasses of [_Stabilizer], and the abstract property
    [stabilizer_shortnames] that a concrete lattice supplies. *)
Variable Stabilizer : Type.
Variable stabilizer_shortnames : dict Stabilizer.

(** The body of the inner loop: the qubits of one plaquette. *)
Definition plaquette_qubits (qregisters : dict Register) (stabilizer : str)
    (idx_list : plaquette) : outcome (list (option Bit)) :=
  reg <~ dict_get qregisters stabilizer ;;
  i0 <~ lift (getitem idx_list 0) ;;
  syn <~ reg_getitem reg i0 ;;
  plaquette <~
    forM (fun idx : option Z =>
            match idx with
            | Some _ =>
                data <~ dict_get qregisters (lit "data") ;;
                q <~ reg_getitem data idx ;;
                Done (Some q)
            | None => Done None
            end) (slice_from 1 idx_list) ;;
  Done (Some syn :: plaquette).

(** The body of the outer loop: the plaquettes of one key of the geometry. *)
Definition stabilizer_plaquettes (qregisters : dict Register)
    (item : str * list plaquette)
  : outcome (list (list (option Bit)) * list Stabilizer) :=
  let '(stabilizer, idx_lists) := item in
  stabilizer_cls <~ dict_get stabilizer_shortnames stabilizer ;;
  qubit_indices <~ forM (plaquette_qubits qregisters stabilizer) idx_lists ;;
  Done (qubit_indices, map (fun _ => stabilizer_cls) idx_lists).

(** [_gen_qubit_indices_and_stabilizers]: the geometry it stores in
    [self.geometry], and the pair it returns. *)
Definition _gen_qubit_indices_and_stabilizers (p : Params)
    (qregisters : dict Register)
  : outcome (Geometry * (list (list (option Bit)) * list Stabilizer)) :=
  g <~ lift (_set_geometry p) ;;
  per_key <~ forM (stabilizer_plaquettes qregisters)
                  [(lit "mx", mx g); (lit "mz", mz g)] ;;
  Done (g, (concat (map fst per_key), concat (map snd per_key))).

(** [entangle_x] and [entangle_z]: the two arguments that they hand to the
    method [entangle] of the base class. *)
Definition entangle_x (qregisters : dict Register)
    (qubit_indices : list (list (option Bit))) (stabilizers : list Stabilizer)
  : outcome (list (list (option Bit)) * list Stabilizer) :=
  mx <~ dict_get qregisters (lit "mx") ;;
  let num_x := reg_size mx in
  Done (slice_to num_x qubit_indices, slice_to num_x stabilizers).

Definition entangle_z (qregisters : dict Register)
    (qubit_indices : list (list (option Bit))) (stabilizers : list Stabilizer)
  : outcome (list (list (option Bit)) * list Stabilizer) :=
  mx <~ dict_get qregisters (lit "mx") ;;
  let num_x := reg_size mx in
  Done (slice_from num_x qubit_indices, slice_from num_x stabilizers).

End Blueprint.

(** The parameters with another value under "T". *)
Definition with_T (p : Params) (t : Z) : Params :=
  {| d := d p;
     T := t;
     num_readout := num_readout p;
     num_lattice_readout := num_lattice_readout p;
     num_data := num_data p;
     num_syn := num_syn p |}.

(** What [stabilize] appends to the circuit: the calls on [self.circ], and
    the call of the method [entangle] of the base class. *)
Inductive Instruction : Type :=
| AddRegister (r : Register)
| Entangle
| Measure (q : Register) (c : list Bit)
| Reset (q : Register)
| Barrier.

(** The state of a logical qubit that [stabilize] reads and writes. *)
Record RotatedQubit : Type := mkRotatedQubit {
  name : str;
  lattice_params : Params;
  lattice_qregisters : dict Register;
  lattice_cregisters : dict Register;
  circ : list Instruction
}.

(** [RotatedQubit.stabilize]: one round. *)
Definition stabilize (self : RotatedQubit) : outcome RotatedQubit :=
  let num_syn := num_syn (lattice_params self) in
  let t := T (lattice_params self) + 1 in
  let params := with_T (lattice_params self) t in
  nx <~ lift (getitem num_syn SYNX) ;;
  nz <~ lift (getitem num_syn SYNZ) ;;
  syndrome_readouts <~
    ClassicalRegister (nx + nz) (name self ++ lit "_c" ++ str_of_int t) ;;
  let cregisters :=
    dict_set (lattice_cregisters self) (lit "syndrome" ++ str_of_int t)
             syndrome_readouts in
  let circ := circ self ++ [AddRegister syndrome_readouts; Entangle] in
  circ <~
    (if 0 <? nz then
       mz <~ dict_get (lattice_qregisters self) (lit "mz") ;;
       Done (circ ++ [Measure mz (slice 0 nz (bits syndrome_readouts))])
     else Done circ) ;;
  circ <~
    (if 0 <? nx then
       mx <~ dict_get (lattice_qregisters self) (lit "mx") ;;
       Done (circ ++ [Measure mx (slice nz (nz + nx) (bits syndrome_readouts))])
     else Done circ) ;;
  circ <~
    (if 0 <? nz then
       mz <~ dict_get (lattice_qregisters self) (lit "mz") ;;
       Done (circ ++ [Reset mz])
     else Done circ) ;;
  circ <~
    (if 0 <? nx then
       mx <~ dict_get (lattice_qregisters self) (lit "mx") ;;
       Done (circ ++ [Reset mx])
     else Done circ) ;;
  Done {| name := name self;
          lattice_params := params;
          lattice_qregisters := lattice_qregisters self;
          lattice_cregisters := cregisters;
          circ := circ ++ [Barrier] |}.

(** [n] rounds, one after the other. *)
Fixpoint stabilize_rounds (n : nat) (self : RotatedQubit)
  : outcome RotatedQubit :=
  match n with
  | O => Done self
  | S n => self <~ stabilize self ;; stabilize_rounds n self
  end.

(** The qubits of a plaquette, wired to the registers [syn] and [data]. *)
Definition bit_of (r : Register) (o : option Z) : option Bit :=
  option_map (fun i => (r, i)) o.

Definition wired (syn data : Register) (pl : plaquette) : list (option Bit) :=
  match pl with
  | [] => []
  | s :: rest => bit_of syn s :: map (bit_of data) rest
  end.

(** The registers that [_gen_registers] creates for a lattice. *)
Definition register_of (name : str) (key : string) (size : Z) : Register :=
  {| reg_size := size; reg_name := name ++ lit "_" ++ lit key |}.

(** The bit masks of [parse_readout], as integers. *)
Definition mask_x (nx nz : Z) : result Z :=
  int_base 2 (repeat_seq (lit "1") nx ++ repeat_seq (lit "0") nz).

Definition mask_z (nz : Z) : result Z :=
  int_base 2 (repeat_seq (lit "1") nz).

(** The key and the classical register of the round at time [t]. *)
Definition syndrome_key (t : Z) : str := lit "syndrome" ++ str_of_int t.

Definition syndrome_register (name : str) (size t : Z) : Register :=
  {| reg_size := size; reg_name := name ++ lit "_c" ++ str_of_int t |}.

(** * Properties *)

(** ** Parameter validation *)

Lemma int_of_number_inject (z : Z) : int_of_number (inject_Z z) = z.
Proof. unfold int_of_number; simpl. apply Z.quot_1_r. Qed.

Lemma mod2_eqb_odd (a : Z) : (a mod 2 =? 1) = Z.odd a.
Proof.
  rewrite Zmod_odd. destruct (Z.odd a); reflexivity.
Qed.

Lemma odd_negb_even (a : Z) : Z.odd a = negb (Z.even a).
Proof. symmetry. apply Z.negb_even. Qed.

Lemma getitem_pair_0 {A : Type} (a b : A) : getitem [a; b] 0 = Ok a.
Proof. reflexivity. Qed.

Lemma getitem_pair_1 {A : Type} (a b : A) : getitem [a; b] 1 = Ok b.
Proof. reflexivity. Qed.

Lemma validate_tuple (h w : Q) :
  _params_validate_and_generate (Some (DTuple [h; w])) =
  if Z.odd (int_of_number h) && Z.odd (int_of_number w)
  then Ok (generated (int_of_number h) (int_of_number w))
  else Raise LatticeError.
Proof.
  unfold _params_validate_and_generate, normalise_d, H, W.
  cbn [map]. rewrite getitem_pair_0, getitem_pair_1. cbn [bind].
  rewrite !mod2_eqb_odd.
  destruct (Z.odd (int_of_number h)), (Z.odd (int_of_number w)); reflexivity.
Qed.

Lemma validate_number (x : Q) :
  _params_validate_and_generate (Some (DNumber x)) =
  if Z.odd (int_of_number x)
  then Ok (generated (int_of_number x) (int_of_number x))
  else Raise LatticeError.
Proof.
  unfold _params_validate_and_generate, normalise_d, H, W.
  rewrite getitem_pair_0, getitem_pair_1. cbn [bind].
  rewrite !mod2_eqb_odd.
  destruct (Z.odd (int_of_number x)); reflexivity.
Qed.

Lemma validate_dims (dh dw : Z) :
  _params_validate_and_generate (dims dh dw) =
  if Z.odd dh && Z.odd dw then Ok (generated dh dw) else Raise LatticeError.
Proof.
  unfold dims. rewrite validate_tuple, !int_of_number_inject. reflexivity.
Qed.

(** C2: for odd positive dimensions [dh], [dw] validation succeeds and the
    generated parameters are [num_data = dh*dw],
    [num_syn[X] = ((dh+1)//2)*(dw-1)] and [num_syn[Z] = ((dw+1)//2)*(dh-1)]. *)
Theorem params_counts (dh dw : Z) :
  0 < dh -> 0 < dw -> Z.odd dh = true -> Z.odd dw = true ->
  exists p,
    _params_validate_and_generate (dims dh dw) = Ok p /\
    num_data p = dh * dw /\
    getitem (num_syn p) SYNX = Ok (((dh + 1) / 2) * (dw - 1)) /\
    getitem (num_syn p) SYNZ = Ok (((dw + 1) / 2) * (dh - 1)).
Proof.
  intros _ _ Hh Hw. exists (generated dh dw).
  rewrite validate_dims, Hh, Hw. repeat split.
Qed.

Lemma params_counts_witness :
  exists p,
    _params_validate_and_generate (dims 3 5) = Ok p /\
    num_data p = 3 * 5 /\
    getitem (num_syn p) SYNX = Ok (((3 + 1) / 2) * (5 - 1)) /\
    getitem (num_syn p) SYNZ = Ok (((5 + 1) / 2) * (3 - 1)).
Proof.
  apply (params_counts 3 5); [lia | lia | reflexivity | reflexivity].
Defined.

(** C7: validation raises [LatticeError] exactly when a dimension (after
    [int]) is even, and otherwise stores the pair of integers under "d";
    it raises for d=(4,3) and d=2 and accepts d=3, d=(3,5) and d=7. *)
Theorem lattice_error_iff_even :
  (forall h w : Q,
     _params_validate_and_generate (Some (DTuple [h; w])) = Raise LatticeError
     <-> (Z.even (int_of_number h) = true \/ Z.even (int_of_number w) = true))
  /\ (forall x : Q,
     _params_validate_and_generate (Some (DNumber x)) = Raise LatticeError
     <-> Z.even (int_of_number x) = true)
  /\ (forall h w : Q,
     _params_validate_and_generate (Some (DTuple [h; w])) = Raise LatticeError
     \/ exists p, _params_validate_and_generate (Some (DTuple [h; w])) = Ok p
                  /\ d p = [int_of_number h; int_of_number w])
  /\ (forall x : Q,
     _params_validate_and_generate (Some (DNumber x)) = Raise LatticeError
     \/ exists p, _params_validate_and_generate (Some (DNumber x)) = Ok p
                  /\ d p = [int_of_number x; int_of_number x])
  /\ _params_validate_and_generate (dims 4 3) = Raise LatticeError
  /\ _params_validate_and_generate (dim 2) = Raise LatticeError
  /\ _params_validate_and_generate (dim 3) = Ok (generated 3 3)
  /\ _params_validate_and_generate (dims 3 5) = Ok (generated 3 5)
  /\ _params_validate_and_generate (dim 7) = Ok (generated 7 7).
Proof.
  repeat apply conj; try reflexivity.
  - intros h w. rewrite validate_tuple, !odd_negb_even.
    destruct (Z.even (int_of_number h)), (Z.even (int_of_number w)); cbn;
      split; intros HH; try reflexivity; try discriminate; auto;
      destruct HH; discriminate.
  - intros x. rewrite validate_number, odd_negb_even.
    destruct (Z.even (int_of_number x)); cbn;
      split; intros HH; try reflexivity; discriminate.
  - intros h w. rewrite validate_tuple.
    destruct (Z.odd (int_of_number h) && Z.odd (int_of_number w));
      [right; eexists; split; reflexivity | left; reflexivity].
  - intros x. rewrite validate_number.
    destruct (Z.odd (int_of_number x));
      [right; eexists; split; reflexivity | left; reflexivity].
Qed.

(** C10: validation tests oddness only, never positivity: d=(-3,3) and d=-3
    are accepted, and the counts are computed from the negative dimensions. *)
Theorem negative_odd_accepted :
  _params_validate_and_generate (dims (-3) 3) =
    Ok {| d := [-3; 3]; T := -1; num_readout := -1; num_lattice_readout := -1;
          num_data := -9; num_syn := [-2; -8] |}
  /\ _params_validate_and_generate (dim (-3)) =
    Ok {| d := [-3; -3]; T := -1; num_readout := -1; num_lattice_readout := -1;
          num_data := 9; num_syn := [4; 4] |}
  /\ (forall dh dw : Z,
        is_ok (_params_validate_and_generate (dims dh dw))
        = Z.odd dh && Z.odd dw).
Proof.
  repeat apply conj; try reflexivity.
  intros dh dw. rewrite validate_dims.
  destruct (Z.odd dh && Z.odd dw); reflexivity.
Qed.

(** ** Loops that may raise *)

Lemma bind_Ok_inv {A B : Type} (m : result A) (k : A -> result B) (b : B) :
  bind m k = Ok b -> exists a, m = Ok a /\ k a = Ok b.
Proof. destruct m as [a|e]; cbn; intros E; [eauto | discriminate]. Qed.

Lemma mapM_Forall2 {A B : Type} (f : A -> result B) (l : list A) :
  forall ys, mapM f l = Ok ys -> Forall2 (fun x y => f x = Ok y) l ys.
Proof.
  induction l as [|x xs IH]; cbn; intros ys E.
  - injection E as <-. constructor.
  - apply bind_Ok_inv in E as (y & Ey & E).
    apply bind_Ok_inv in E as (ys' & Eys & E).
    injection E as <-. constructor; auto.
Qed.

Lemma mapM_pure {A B : Type} (f : A -> result B) (g : A -> B) (l : list A) :
  (forall x, In x l -> f x = Ok (g x)) -> mapM f l = Ok (map g l).
Proof.
  induction l as [|x xs IH]; cbn; intros Hf; [reflexivity|].
  rewrite (Hf x) by auto. cbn. rewrite IH by auto. reflexivity.
Qed.

Lemma mapM_In {A B : Type} (f : A -> result B) (l : list A) (ys : list B) (y : B) :
  mapM f l = Ok ys -> In y ys -> exists x, In x l /\ f x = Ok y.
Proof.
  intros E. apply mapM_Forall2 in E.
  induction E as [|x y' l' ys' Hxy _ IH]; cbn; intros Hin; [contradiction|].
  destruct Hin as [<-|Hin]; [eauto|].
  destruct (IH Hin) as (x' & Hx' & Ef). eauto.
Qed.

Lemma mapM_total {A B : Type} (f : A -> result B) (l : list A) :
  (forall x, In x l -> exists y, f x = Ok y) -> exists ys, mapM f l = Ok ys.
Proof.
  induction l as [|x xs IH]; cbn; intros Hf; [eauto|].
  destruct (Hf x) as (y & Ey); auto. rewrite Ey. cbn.
  destruct IH as (ys & Eys); auto. rewrite Eys. cbn. eauto.
Qed.

Lemma mapM_length {A B : Type} (f : A -> result B) (l : list A) (ys : list B) :
  mapM f l = Ok ys -> length ys = length l.
Proof.
  intros E. apply mapM_Forall2 in E. symmetry.
  induction E; cbn; congruence.
Qed.

Lemma mapM_nth_error {A B : Type} (f : A -> result B) (l : list A)
    (ys : list B) (i : nat) (x : A) :
  mapM f l = Ok ys -> nth_error l i = Some x ->
  exists y, nth_error ys i = Some y /\ f x = Ok y.
Proof.
  intros E. apply mapM_Forall2 in E. revert i.
  induction E as [|x' y' l' ys' Hxy _ IH]; intros [|i]; cbn; intros Hn;
    try discriminate.
  - injection Hn as <-. eauto.
  - auto.
Qed.

(** ** Ranges and indexing *)

Lemma range_length (n : Z) : length (range n) = Z.to_nat n.
Proof. unfold range. rewrite length_map, length_seq. reflexivity. Qed.

Lemma In_range (n x : Z) : In x (range n) <-> 0 <= x < n.
Proof.
  unfold range. rewrite in_map_iff. split.
  - intros (k & <- & Hk). apply in_seq in Hk. lia.
  - intros Hx. exists (Z.to_nat x). split; [lia|]. apply in_seq. lia.
Qed.

Lemma nth_error_range (n k : Z) :
  0 <= k < n -> nth_error (range n) (Z.to_nat k) = Some k.
Proof.
  intros Hk. unfold range.
  rewrite nth_error_map, nth_error_seq.
  destruct (Nat.ltb_spec (Z.to_nat k) (Z.to_nat n)); [|lia].
  cbn. f_equal. lia.
Qed.

Lemma getitem_nth_error {A : Type} (l : list A) (k : Z) (x : A) :
  0 <= k -> nth_error l (Z.to_nat k) = Some x -> getitem l k = Ok x.
Proof.
  intros Hk Hn. unfold getitem.
  assert (Hlt : (Z.to_nat k < length l)%nat)
    by (apply nth_error_Some; congruence).
  destruct (Z.ltb_spec k 0); [lia|].
  destruct (Z.ltb_spec k 0); [lia|].
  destruct (Z.leb_spec (Z.of_nat (length l)) k); [lia|].
  cbn. rewrite Hn. reflexivity.
Qed.

Lemma getitem_Ok_inv {A : Type} (l : list A) (k : Z) (x : A) :
  0 <= k -> getitem l k = Ok x -> nth_error l (Z.to_nat k) = Some x.
Proof.
  intros Hk. unfold getitem.
  destruct (Z.ltb_spec k 0); [lia|].
  destruct (_ || _); [discriminate|].
  destruct (nth_error l (Z.to_nat k)); [congruence | discriminate].
Qed.

Lemma slice_from_1_cons {A : Type} (a : A) (l : list A) :
  slice_from 1 (a :: l) = l.
Proof. reflexivity. Qed.

Lemma slice_from_1_nil {A : Type} : slice_from 1 (@nil A) = [].
Proof. reflexivity. Qed.

Lemma Ok_inj {A : Type} (a b : A) : Ok a = Ok b -> a = b.
Proof. congruence. Qed.

Lemma Some_inj {A : Type} (a b : A) : Some a = Some b -> a = b.
Proof. congruence. Qed.

Lemma In_four {A : Type} (x a b c d : A) :
  In x [a; b; c; d] -> a = x \/ b = x \/ c = x \/ d = x.
Proof. cbn. tauto. Qed.

(** The element that a loop over [range(n)] appends at step [k]. *)
Lemma mapM_range_getitem {B : Type} (f : Z -> result B) (n k : Z) (ys : list B) :
  mapM f (range n) = Ok ys -> 0 <= k < n ->
  exists y, getitem ys k = Ok y /\ f k = Ok y.
Proof.
  intros E Hk.
  destruct (mapM_nth_error f _ ys _ k E (nth_error_range n k Hk)) as (y & Hy & Ef).
  exists y. split; [|exact Ef]. apply getitem_nth_error; [lia | exact Hy].
Qed.

(** ** Geometry *)

Lemma odd_decompose (a : Z) : Z.odd a = true -> exists k, a = 2 * k + 1.
Proof. intros Ha. apply Z.odd_spec in Ha. exact Ha. Qed.

Lemma half_odd_succ (k : Z) : (2 * k + 1 + 1) / 2 = k + 1.
Proof. symmetry. apply (Z.div_unique _ 2 _ 0); lia. Qed.

Lemma half_odd_pred (k : Z) : (2 * k + 1 - 1) / 2 = k.
Proof. symmetry. apply (Z.div_unique _ 2 _ 0); lia. Qed.

Lemma half_odd (k : Z) : (2 * k + 1) / 2 = k.
Proof. symmetry. apply (Z.div_unique _ 2 _ 1); lia. Qed.

Lemma mod2_cases (a : Z) : a mod 2 = 0 \/ a mod 2 = 1.
Proof. pose proof (Z.mod_pos_bound a 2). lia. Qed.

(** The plaquette that the X loop appends for [syn], case by case. *)
Lemma plaquette_x_cases (dh dw per syn : Z) :
  per <> 0 ->
  plaquette_x dh dw per syn =
  Ok (let row := syn / per in
      let offset := syn mod per in
      if row =? 0 then
        [Some syn; None; None; Some (syn * 2); Some (syn * 2 + 1)]
      else if row =? dh then
        [Some syn; Some ((row - 1) * dw + (offset * 2) + 1);
         Some ((row - 1) * dw + (offset * 2) + 2); None; None]
      else
        [Some syn;
         Some ((row - 1) * dw + (offset * 2) + row mod 2);
         Some ((row - 1) * dw + (offset * 2) + row mod 2 + 1);
         Some ((row - 1) * dw + dw + (offset * 2) + row mod 2);
         Some ((row - 1) * dw + dw + (offset * 2) + row mod 2 + 1)]).
Proof.
  intros Hper. unfold plaquette_x, floordiv, pymod.
  destruct (Z.eqb_spec per 0); [contradiction|]. cbn.
  destruct (syn / per =? 0); [reflexivity|].
  destruct (syn / per =? dh); reflexivity.
Qed.

(** The plaquette that the Z loop appends for [syn], case by case. *)
Lemma plaquette_z_cases (dw per syn : Z) :
  per <> 0 ->
  plaquette_z dw per syn =
  Ok (let row := syn / per in
      let offset := syn mod per in
      let base := row * dw + (offset * 2) - row mod 2 in
      if (row mod 2 =? 0) && (offset =? per - 1) then
        [Some syn; Some base; None; Some (row * dw + dw + (offset * 2) - row mod 2); None]
      else if (row mod 2 =? 1) && (offset =? 0) then
        [Some syn; None; Some (base + 1); None;
         Some (row * dw + dw + (offset * 2) - row mod 2 + 1)]
      else
        [Some syn; Some base; Some (base + 1);
         Some (row * dw + dw + (offset * 2) - row mod 2);
         Some (row * dw + dw + (offset * 2) - row mod 2 + 1)]).
Proof.
  intros Hper. unfold plaquette_z, floordiv, pymod.
  destruct (Z.eqb_spec per 0); [contradiction|]. cbn.
  destruct ((syn / per) mod 2 =? 0), (syn mod per =? per - 1),
    ((syn / per) mod 2 =? 1), (syn mod per =? 0); reflexivity.
Qed.

Lemma set_geometry_generated (dh dw : Z) :
  _set_geometry (generated dh dw) =
  (gx <- mapM (plaquette_x dh dw ((dw - 1) / 2))
           (range (((dh + 1) / 2) * (dw - 1))) ;;
   gz <- mapM (plaquette_z dw ((dw + 1) / 2))
           (range (((dw + 1) / 2) * (dh - 1))) ;;
   Ok {| mx := gx; mz := gz |}).
Proof. reflexivity. Qed.

(** Neither loop divides by zero: the row length of an axis is zero only
    when that axis has no plaquette at all. *)
Lemma per_row_x_nonzero (dh dw syn : Z) :
  Z.odd dw = true -> In syn (range (((dh + 1) / 2) * (dw - 1))) ->
  (dw - 1) / 2 <> 0.
Proof.
  intros Hw Hin. apply odd_decompose in Hw as (m & ->).
  apply In_range in Hin. rewrite half_odd_pred.
  intros ->. cbn in Hin. lia.
Qed.

Lemma per_row_z_nonzero (dh dw syn : Z) :
  Z.odd dw = true -> In syn (range (((dw + 1) / 2) * (dh - 1))) ->
  (dw + 1) / 2 <> 0.
Proof.
  intros Hw Hin. apply odd_decompose in Hw as (m & ->).
  apply In_range in Hin. rewrite half_odd_succ in *.
  intros E. rewrite E in Hin. lia.
Qed.

(** Construction succeeds for every pair of odd dimensions. *)
Lemma new_lattice_built (dh dw : Z) :
  Z.odd dh = true -> Z.odd dw = true ->
  exists gx gz,
    mapM (plaquette_x dh dw ((dw - 1) / 2))
         (range (((dh + 1) / 2) * (dw - 1))) = Ok gx /\
    mapM (plaquette_z dw ((dw + 1) / 2))
         (range (((dw + 1) / 2) * (dh - 1))) = Ok gz /\
    new_lattice (dims dh dw) =
      Ok {| params := generated dh dw; geometry := {| mx := gx; mz := gz |} |}.
Proof.
  intros Hh Hw.
  destruct (mapM_total (plaquette_x dh dw ((dw - 1) / 2))
              (range (((dh + 1) / 2) * (dw - 1)))) as (gx & Egx).
  { intros syn Hin. eexists. apply plaquette_x_cases.
    eapply per_row_x_nonzero; eauto. }
  destruct (mapM_total (plaquette_z dw ((dw + 1) / 2))
              (range (((dw + 1) / 2) * (dh - 1)))) as (gz & Egz).
  { intros syn Hin. eexists. apply plaquette_z_cases.
    eapply per_row_z_nonzero; eauto. }
  exists gx, gz. repeat split; auto.
  unfold new_lattice. rewrite validate_dims, Hh, Hw. cbn [andb bind].
  rewrite set_geometry_generated, Egx, Egz. reflexivity.
Qed.

(** One of four optional indices is [Some idx]: settle each by arithmetic. *)
Ltac index_cases Hidx idx :=
  let HH := fresh "HH" in
  destruct Hidx as [HH|[HH|[HH|HH]]]; try discriminate;
  apply Some_inj in HH; subst idx; lia.

Lemma x_row_offset_bounds (n m syn : Z) :
  0 <= n -> 0 <= m -> 0 <= syn < (n + 1) * (2 * m) ->
  0 < m /\ 0 <= syn / m <= 2 * n + 1 /\ 0 <= syn mod m < m /\
  syn = m * (syn / m) + syn mod m.
Proof.
  intros Hn Hm Hsyn.
  assert (0 < m) by nia.
  pose proof (Z.mod_pos_bound syn m ltac:(lia)).
  pose proof (Z.div_mod syn m ltac:(lia)).
  assert (0 <= syn / m) by (apply Z.div_pos; lia).
  assert (syn / m < 2 * (n + 1)) by (apply Z.div_lt_upper_bound; nia).
  lia.
Qed.

Lemma z_row_offset_bounds (n m syn : Z) :
  0 <= n -> 0 <= m -> 0 <= syn < (m + 1) * (2 * n) ->
  0 <= syn / (m + 1) <= 2 * n - 1 /\ 0 <= syn mod (m + 1) <= m /\
  syn = (m + 1) * (syn / (m + 1)) + syn mod (m + 1).
Proof.
  intros Hn Hm Hsyn.
  pose proof (Z.mod_pos_bound syn (m + 1) ltac:(lia)).
  pose proof (Z.div_mod syn (m + 1) ltac:(lia)).
  assert (0 <= syn / (m + 1)) by (apply Z.div_pos; lia).
  assert (syn / (m + 1) < 2 * n) by (apply Z.div_lt_upper_bound; nia).
  lia.
Qed.

(** Every data qubit that an X plaquette names is a qubit of the lattice. *)
Lemma plaquette_x_in_range (dh dw syn : Z) (pl : plaquette) :
  Z.odd dh = true -> Z.odd dw = true -> 1 <= dh -> 1 <= dw ->
  In syn (range (((dh + 1) / 2) * (dw - 1))) ->
  plaquette_x dh dw ((dw - 1) / 2) syn = Ok pl ->
  forall idx, In (Some idx) (slice_from 1 pl) -> 0 <= idx < dh * dw.
Proof.
  intros Hh Hw Hh1 Hw1 Hin E idx Hidx.
  pose proof (per_row_x_nonzero dh dw syn Hw Hin) as Hper.
  rewrite plaquette_x_cases in E by exact Hper.
  apply odd_decompose in Hh as (n & ->). apply odd_decompose in Hw as (m & ->).
  apply In_range in Hin.
  rewrite half_odd_succ, half_odd_pred in *.
  replace (2 * m + 1 - 1) with (2 * m) in Hin by lia.
  destruct (x_row_offset_bounds n m syn ltac:(lia) ltac:(lia) Hin)
    as (Hm & Hrow & Hoff & Hsyn).
  set (row := syn / m) in *. set (off := syn mod m) in *.
  pose proof (mod2_cases row) as Hpar.
  cbv zeta in E. revert E.
  destruct (Z.eqb_spec row 0) as [E0|N0]; intros E.
  - apply Ok_inj in E; subst pl. rewrite slice_from_1_cons in Hidx. apply In_four in Hidx.
    assert (syn = off) by (rewrite E0 in Hsyn; lia).
    assert (2 * m + 1 <= (2 * n + 1) * (2 * m + 1)) by nia.
    index_cases Hidx idx.
  - revert E. destruct (Z.eqb_spec row (2 * n + 1)) as [E1|N1]; intros E.
    + apply Ok_inj in E; subst pl. rewrite slice_from_1_cons in Hidx. apply In_four in Hidx.
      rewrite E1 in Hidx.
      replace (2 * n + 1 - 1) with (2 * n) in Hidx by lia.
      assert (0 <= 2 * n * (2 * m + 1)) by nia.
      assert ((2 * n + 1) * (2 * m + 1) = 2 * n * (2 * m + 1) + (2 * m + 1))
        by ring.
      index_cases Hidx idx.
    + apply Ok_inj in E; subst pl. rewrite slice_from_1_cons in Hidx. apply In_four in Hidx.
      assert (0 <= (row - 1) * (2 * m + 1)) by nia.
      assert ((row - 1) * (2 * m + 1) + (2 * m + 1) + (2 * m + 1)
              <= (2 * n + 1) * (2 * m + 1)) by nia.
      index_cases Hidx idx.
Qed.

(** Every data qubit that a Z plaquette names is a qubit of the lattice. *)
Lemma plaquette_z_in_range (dh dw syn : Z) (pl : plaquette) :
  Z.odd dh = true -> Z.odd dw = true -> 1 <= dh -> 1 <= dw ->
  In syn (range (((dw + 1) / 2) * (dh - 1))) ->
  plaquette_z dw ((dw + 1) / 2) syn = Ok pl ->
  forall idx, In (Some idx) (slice_from 1 pl) -> 0 <= idx < dh * dw.
Proof.
  intros Hh Hw Hh1 Hw1 Hin E idx Hidx.
  pose proof (per_row_z_nonzero dh dw syn Hw Hin) as Hper.
  rewrite plaquette_z_cases in E by exact Hper.
  apply odd_decompose in Hh as (n & ->). apply odd_decompose in Hw as (m & ->).
  apply In_range in Hin.
  rewrite half_odd_succ in *.
  replace (2 * n + 1 - 1) with (2 * n) in Hin by lia.
  destruct (z_row_offset_bounds n m syn ltac:(lia) ltac:(lia) Hin)
    as (Hrow & Hoff & Hsyn).
  set (row := syn / (m + 1)) in *. set (off := syn mod (m + 1)) in *.
  pose proof (mod2_cases row) as Hpar.
  cbv zeta in E.
  assert (0 <= row * (2 * m + 1)) by nia.
  assert (row * (2 * m + 1) + (2 * m + 1) + (2 * m + 1)
          <= (2 * n + 1) * (2 * m + 1)) by nia.
  revert E.
  destruct (Z.eqb_spec (row mod 2) 0) as [P0|P0];
    destruct (Z.eqb_spec off (m + 1 - 1)) as [O1|O1];
    destruct (Z.eqb_spec (row mod 2) 1) as [P1|P1];
    destruct (Z.eqb_spec off 0) as [O0|O0]; intros E;
    cbn [andb] in E; apply Ok_inj in E; subst pl;
    rewrite slice_from_1_cons in Hidx; apply In_four in Hidx;
    index_cases Hidx idx.
Qed.

(** C3: for odd [dh], [dw >= 3] the lattice is built, and every data-qubit
    index named by a plaquette of "mx" or of "mz" lies in [[0, num_data)],
    where [num_data = dh*dw]. *)
Theorem geometry_indices_in_range (dh dw : Z) :
  Z.odd dh = true -> Z.odd dw = true -> 3 <= dh -> 3 <= dw ->
  exists L,
    new_lattice (dims dh dw) = Ok L /\
    num_data (params L) = dh * dw /\
    (forall pl idx,
        In pl (mx (geometry L)) -> In (Some idx) (slice_from 1 pl) ->
        0 <= idx < num_data (params L)) /\
    (forall pl idx,
        In pl (mz (geometry L)) -> In (Some idx) (slice_from 1 pl) ->
        0 <= idx < num_data (params L)).
Proof.
  intros Hh Hw Hh3 Hw3.
  destruct (new_lattice_built dh dw Hh Hw) as (gx & gz & Egx & Egz & EL).
  eexists. split; [exact EL|]. cbn [params geometry mx mz generated num_data].
  split; [reflexivity|]. split; intros pl idx Hpl Hidx.
  - destruct (mapM_In _ _ _ _ Egx Hpl) as (syn & Hsyn & Epl).
    eapply (plaquette_x_in_range dh dw syn pl); eauto; lia.
  - destruct (mapM_In _ _ _ _ Egz Hpl) as (syn & Hsyn & Epl).
    eapply (plaquette_z_in_range dh dw syn pl); eauto; lia.
Qed.

Lemma geometry_indices_in_range_witness :
  exists L,
    new_lattice (dims 3 5) = Ok L /\
    num_data (params L) = 3 * 5 /\
    (forall pl idx,
        In pl (mx (geometry L)) -> In (Some idx) (slice_from 1 pl) ->
        0 <= idx < num_data (params L)) /\
    (forall pl idx,
        In pl (mz (geometry L)) -> In (Some idx) (slice_from 1 pl) ->
        0 <= idx < num_data (params L)).
Proof.
  apply (geometry_indices_in_range 3 5); [reflexivity | reflexivity | lia | lia].
Defined.

(** C4: for odd [dh], [dw >= 3] the X plaquette [syn] sits in the conceptual
    row [row = syn // per_row_x], between 0 and [dh]; in row 0 it has only
    its bottom pair [syn*2], [syn*2+1]; in row [dh] only its top pair
    [(row-1)*dw + offset*2 + 1] and the next index; in every row between,
    all four data qubits. *)
Theorem x_boundary_truncation (dh dw : Z) :
  Z.odd dh = true -> Z.odd dw = true -> 3 <= dh -> 3 <= dw ->
  exists L,
    new_lattice (dims dh dw) = Ok L /\
    getitem (num_syn (params L)) SYNX = Ok (Z.of_nat (length (mx (geometry L)))) /\
    forall syn, 0 <= syn < Z.of_nat (length (mx (geometry L))) ->
      let per_row_x := (dw - 1) / 2 in
      let row := syn / per_row_x in
      let offset := syn mod per_row_x in
      0 <= row <= dh /\
      (row = 0 ->
       getitem (mx (geometry L)) syn =
         Ok [Some syn; None; None; Some (syn * 2); Some (syn * 2 + 1)]) /\
      (row = dh ->
       getitem (mx (geometry L)) syn =
         Ok [Some syn; Some ((row - 1) * dw + offset * 2 + 1);
             Some ((row - 1) * dw + offset * 2 + 2); None; None]) /\
      (0 < row < dh ->
       exists top_l top_r bot_l bot_r,
         getitem (mx (geometry L)) syn =
           Ok [Some syn; Some top_l; Some top_r; Some bot_l; Some bot_r]).
Proof.
  intros Hh Hw Hh3 Hw3.
  destruct (new_lattice_built dh dw Hh Hw) as (gx & gz & Egx & Egz & EL).
  eexists. split; [exact EL|]. cbn [params geometry mx mz generated num_syn].
  pose proof (mapM_length _ _ _ Egx) as Hlen. rewrite range_length in Hlen.
  assert (Hnx : 0 <= (dh + 1) / 2 * (dw - 1)).
  { apply Z.mul_nonneg_nonneg; [apply Z.div_pos|]; lia. }
  split.
  { unfold SYNX. rewrite getitem_pair_0, Hlen. f_equal. lia. }
  intros syn Hsyn. rewrite Hlen in Hsyn. rewrite Z2Nat.id in Hsyn by exact Hnx.
  destruct (mapM_range_getitem _ _ syn gx Egx Hsyn) as (pl & Hget & Epl).
  assert (Hper : (dw - 1) / 2 <> 0).
  { apply (per_row_x_nonzero dh dw syn Hw). apply In_range. exact Hsyn. }
  rewrite plaquette_x_cases in Epl by exact Hper. rewrite Hget. clear Hget.
  assert (Hrow : 0 <= syn / ((dw - 1) / 2) <= dh).
  { destruct (odd_decompose dh Hh) as (n & ->).
    destruct (odd_decompose dw Hw) as (m & Em). rewrite Em in *.
    rewrite half_odd_succ, half_odd_pred in *.
    replace (2 * m + 1 - 1) with (2 * m) in Hsyn by lia.
    destruct (x_row_offset_bounds n m syn ltac:(lia) ltac:(lia) Hsyn)
      as (_ & Hr & _). exact Hr. }
  cbv zeta in *. split; [exact Hrow|].
  apply Ok_inj in Epl. subst pl.
  destruct (Z.eqb_spec (syn / ((dw - 1) / 2)) 0) as [E0|N0].
  - split; [reflexivity|]. split; intros; lia.
  - destruct (Z.eqb_spec (syn / ((dw - 1) / 2)) dh) as [E1|N1].
    + split; [intros; lia|]. split; [|intros; lia].
      intros _. reflexivity.
    + split; [intros; lia|]. split; [intros; lia|].
      intros _. do 4 eexists. reflexivity.
Qed.

Lemma x_boundary_truncation_witness :
  exists L,
    new_lattice (dims 3 5) = Ok L /\
    getitem (num_syn (params L)) SYNX = Ok (Z.of_nat (length (mx (geometry L)))) /\
    forall syn, 0 <= syn < Z.of_nat (length (mx (geometry L))) ->
      let per_row_x := (5 - 1) / 2 in
      let row := syn / per_row_x in
      let offset := syn mod per_row_x in
      0 <= row <= 3 /\
      (row = 0 ->
       getitem (mx (geometry L)) syn =
         Ok [Some syn; None; None; Some (syn * 2); Some (syn * 2 + 1)]) /\
      (row = 3 ->
       getitem (mx (geometry L)) syn =
         Ok [Some syn; Some ((row - 1) * 5 + offset * 2 + 1);
             Some ((row - 1) * 5 + offset * 2 + 2); None; None]) /\
      (0 < row < 3 ->
       exists top_l top_r bot_l bot_r,
         getitem (mx (geometry L)) syn =
           Ok [Some syn; Some top_l; Some top_r; Some bot_l; Some bot_r]).
Proof.
  apply (x_boundary_truncation 3 5); [reflexivity | reflexivity | lia | lia].
Defined.

(** ** Readout strings and data bits *)

Lemma int_of_bit_char (c : ascii) :
  is_bit c -> int_of_str [c] = Ok (bit_of_char c).
Proof. intros [-> | ->]; reflexivity. Qed.

Lemma readout_values_binary (final : str) :
  Forall is_bit final -> readout_values final = Ok (data_bits final).
Proof.
  intros Hbits. unfold readout_values, data_bits.
  rewrite (mapM_pure _ bit_of_char).
  - reflexivity.
  - intros c Hc. apply int_of_bit_char.
    rewrite Forall_forall in Hbits. auto.
Qed.

Lemma data_bits_length (final : str) :
  length (data_bits final) = length final.
Proof. unfold data_bits. rewrite length_rev, length_map. reflexivity. Qed.

Lemma bit_of_char_bit (c : ascii) : bit_of_char c = 0 \/ bit_of_char c = 1.
Proof. unfold bit_of_char. destruct (Ascii.eqb c "1"); auto. Qed.

Lemma data_bits_nth (final : str) (i : nat) :
  nth i (data_bits final) 0 = 0 \/ nth i (data_bits final) 0 = 1.
Proof.
  destruct (nth_in_or_default i (data_bits final) 0) as [Hin | ->]; auto.
  unfold data_bits in *. rewrite <- in_rev in Hin.
  apply in_map_iff in Hin as (c & Ec & _). rewrite <- Ec.
  apply bit_of_char_bit.
Qed.

Lemma getitem_nth {A : Type} (l : list A) (i : Z) (dflt : A) :
  0 <= i < Z.of_nat (length l) -> getitem l i = Ok (nth (Z.to_nat i) l dflt).
Proof.
  intros Hi. apply getitem_nth_error; [lia|].
  apply nth_error_nth'. lia.
Qed.

Lemma slice_from_1_tl {A : Type} (l : list A) : slice_from 1 l = tl l.
Proof. destruct l; reflexivity. Qed.

Lemma str_of_int_bit (x : Z) : str_of_int (x mod 2) = [char_of_bit (x mod 2)].
Proof. destruct (mod2_cases x) as [-> | ->]; reflexivity. Qed.

(** On indices inside the readout, the computed parity of a plaquette is
    the parity of the specification. *)
Lemma stabilizer_val_parity (vals : list Z) (pl : plaquette) :
  (forall idx, In (Some idx) (slice_from 1 pl) ->
               0 <= idx < Z.of_nat (length vals)) ->
  stabilizer_val vals pl = Ok (plaquette_parity vals pl).
Proof.
  intros Hin. unfold stabilizer_val, plaquette_parity.
  rewrite (mapM_pure _ (fun idx => match idx with
                                   | Some i => nth (Z.to_nat i) vals 0
                                   | None => 0
                                   end)).
  - rewrite slice_from_1_tl. reflexivity.
  - intros [i|] Hi; [|reflexivity]. apply getitem_nth. auto.
Qed.

Lemma stabilizer_loop_parity (vals : list Z) (pls : list plaquette) :
  (forall pl idx, In pl pls -> In (Some idx) (slice_from 1 pl) ->
                  0 <= idx < Z.of_nat (length vals)) ->
  forall acc,
    stabilizer_loop vals pls acc =
    Ok (map char_of_bit (rev (map (plaquette_parity vals) pls)) ++ acc).
Proof.
  induction pls as [|pl pls IH]; intros Hin acc; [reflexivity|].
  cbn [stabilizer_loop]. rewrite stabilizer_val_parity by (intros; eapply Hin; cbn; eauto).
  cbn [bind]. rewrite IH by (intros; eapply Hin; cbn; eauto).
  unfold plaquette_parity at 2. rewrite str_of_int_bit.
  cbn [map rev]. rewrite map_app, <- app_assoc. reflexivity.
Qed.

(** The loop of the logical readout computes the XOR of the bits it visits. *)
Lemma add_mod2_lxor (a b : Z) :
  (a = 0 \/ a = 1) -> (b = 0 \/ b = 1) -> (a + b) mod 2 = Z.lxor a b.
Proof. intros [-> | ->] [-> | ->]; reflexivity. Qed.

Lemma lxor_bit (a b : Z) :
  (a = 0 \/ a = 1) -> (b = 0 \/ b = 1) -> Z.lxor a b = 0 \/ Z.lxor a b = 1.
Proof. intros [-> | ->] [-> | ->]; cbn; auto. Qed.

Lemma logical_loop_xor (vals : list Z) (idxs : list Z) :
  (forall i, nth i vals 0 = 0 \/ nth i vals 0 = 1) ->
  (forall idx, In idx idxs -> 0 <= idx < Z.of_nat (length vals)) ->
  forall acc, (acc = 0 \/ acc = 1) ->
    logical_loop vals idxs acc = Ok (Z.lxor acc (xor_bits vals idxs)).
Proof.
  intros Hbits. induction idxs as [|idx idxs IH]; intros Hin acc Hacc.
  - cbn. rewrite Z.lxor_0_r. reflexivity.
  - cbn [logical_loop xor_bits fold_right].
    rewrite (getitem_nth vals idx 0) by (apply Hin; cbn; auto). cbn [bind].
    rewrite add_mod2_lxor by auto.
    rewrite IH; [| intros; apply Hin; cbn; auto | apply lxor_bit; auto].
    rewrite Z.lxor_assoc. reflexivity.
Qed.

(** ** The final round and the logical readout of a built lattice *)

Lemma range3_leftmost_column (dh dw : Z) :
  1 <= dh -> 1 <= dw ->
  range3 0 (dh * dw) dw = Ok (leftmost_column dh dw).
Proof.
  intros Hh Hw. unfold range3, leftmost_column, range.
  destruct (Z.eqb_spec dw 0); [lia|].
  destruct (Z.ltb_spec 0 dw); [|lia].
  destruct (Z.ltb_spec 0 (dh * dw)); [|nia].
  replace ((dh * dw - 0 - 1) / dw + 1) with dh.
  - rewrite map_map. reflexivity.
  - assert ((dh * dw - 0 - 1) / dw = dh - 1); [|lia].
    symmetry. apply (Z.div_unique _ dw _ (dw - 1)); lia.
Qed.

Lemma leftmost_column_in_range (dh dw idx : Z) :
  1 <= dh -> 1 <= dw -> In idx (leftmost_column dh dw) -> 0 <= idx < dh * dw.
Proof.
  intros Hh Hw Hin. unfold leftmost_column in Hin.
  apply in_map_iff in Hin as (k & <- & Hk). apply In_range in Hk. nia.
Qed.

Lemma topmost_row_in_range (dh dw idx : Z) :
  1 <= dh -> 1 <= dw -> In idx (topmost_row dw) -> 0 <= idx < dh * dw.
Proof.
  intros Hh Hw Hin. apply In_range in Hin. nia.
Qed.

Section BuiltLattice.

Variables dh dw : Z.
Hypothesis Hh : Z.odd dh = true.
Hypothesis Hw : Z.odd dw = true.
Hypothesis Hh1 : 1 <= dh.
Hypothesis Hw1 : 1 <= dw.

Variables gx gz : list plaquette.
Hypothesis Egx :
  mapM (plaquette_x dh dw ((dw - 1) / 2))
       (range (((dh + 1) / 2) * (dw - 1))) = Ok gx.
Hypothesis Egz :
  mapM (plaquette_z dw ((dw + 1) / 2))
       (range (((dw + 1) / 2) * (dh - 1))) = Ok gz.

Variable final : str.
Hypothesis Hbits : Forall is_bit final.
Hypothesis Hlen : Z.of_nat (length final) = dh * dw.

Lemma gx_in_range (pl : plaquette) (idx : Z) :
  In pl gx -> In (Some idx) (slice_from 1 pl) ->
  0 <= idx < Z.of_nat (length (data_bits final)).
Proof.
  intros Hpl Hidx. rewrite data_bits_length, Hlen.
  destruct (mapM_In _ _ _ _ Egx Hpl) as (syn & Hsyn & Epl).
  eapply (plaquette_x_in_range dh dw syn pl); eauto.
Qed.

Lemma gz_in_range (pl : plaquette) (idx : Z) :
  In pl gz -> In (Some idx) (slice_from 1 pl) ->
  0 <= idx < Z.of_nat (length (data_bits final)).
Proof.
  intros Hpl Hidx. rewrite data_bits_length, Hlen.
  destruct (mapM_In _ _ _ _ Egz Hpl) as (syn & Hsyn & Epl).
  eapply (plaquette_z_in_range dh dw syn pl); eauto.
Qed.

(** What the X variant returns on a binary readout of the whole lattice. *)
Lemma extract_x_built (prev : str) :
  extract_final_stabilizer_and_logical_readout_x
    {| params := generated dh dw; geometry := {| mx := gx; mz := gz |} |}
    final prev =
  Ok (xor_bits (data_bits final) (leftmost_column dh dw),
      map char_of_bit (rev (map (plaquette_parity (data_bits final)) gx))
      ++ slice_from (((dh + 1) / 2) * (dw - 1)) prev).
Proof.
  unfold extract_final_stabilizer_and_logical_readout_x.
  rewrite readout_values_binary by exact Hbits. cbn [bind].
  cbn [geometry params mx generated num_syn d num_data].
  rewrite stabilizer_loop_parity by (intros; eapply gx_in_range; eauto).
  cbn [bind]. unfold SYNX, DW. rewrite getitem_pair_0, getitem_pair_1.
  cbn [bind]. rewrite range3_leftmost_column by assumption. cbn [bind].
  rewrite logical_loop_xor; auto.
  - rewrite app_nil_r. reflexivity.
  - intros i. apply data_bits_nth.
  - intros idx Hidx. rewrite data_bits_length, Hlen.
    apply leftmost_column_in_range; assumption.
Qed.

(** What the Z variant returns on a binary readout of the whole lattice. *)
Lemma extract_z_built (prev : str) :
  extract_final_stabilizer_and_logical_readout_z
    {| params := generated dh dw; geometry := {| mx := gx; mz := gz |} |}
    final prev =
  Ok (xor_bits (data_bits final) (topmost_row dw),
      slice_to (((dh + 1) / 2) * (dw - 1)) prev
      ++ map char_of_bit (rev (map (plaquette_parity (data_bits final)) gz))).
Proof.
  unfold extract_final_stabilizer_and_logical_readout_z.
  rewrite readout_values_binary by exact Hbits. cbn [bind].
  cbn [geometry params mz generated num_syn d num_data].
  rewrite stabilizer_loop_parity by (intros; eapply gz_in_range; eauto).
  cbn [bind]. unfold SYNX, W. rewrite getitem_pair_0, getitem_pair_1.
  cbn [bind]. fold (topmost_row dw).
  rewrite logical_loop_xor; auto.
  - rewrite app_nil_r. reflexivity.
  - intros i. apply data_bits_nth.
  - intros idx Hidx. rewrite data_bits_length, Hlen.
    apply topmost_row_in_range; assumption.
Qed.

End BuiltLattice.

(** ** Slices of a spliced string *)

Lemma slice_to_app_exact {A : Type} (n : Z) (a b : list A) :
  Z.of_nat (length a) = n -> slice_to n (a ++ b) = a.
Proof.
  intros Hn. unfold slice_to, slice_bound.
  destruct (Z.ltb_spec n 0); [lia|].
  replace (Z.to_nat n) with (length a + 0)%nat by lia.
  rewrite firstn_app_2. cbn. apply app_nil_r.
Qed.

Lemma slice_from_app_exact {A : Type} (n : Z) (a b : list A) :
  Z.of_nat (length a) = n -> slice_from n (a ++ b) = b.
Proof.
  intros Hn. unfold slice_from, slice_bound.
  destruct (Z.ltb_spec n 0); [lia|].
  replace (Z.to_nat n) with (length a) by lia.
  rewrite skipn_app, skipn_all, Nat.sub_diag. reflexivity.
Qed.

Lemma slice_to_length {A : Type} (n : Z) (l : list A) :
  0 <= n <= Z.of_nat (length l) -> Z.of_nat (length (slice_to n l)) = n.
Proof.
  intros Hn. unfold slice_to, slice_bound.
  destruct (Z.ltb_spec n 0); [lia|]. rewrite length_firstn. lia.
Qed.

Lemma slice_from_length {A : Type} (n : Z) (l : list A) :
  0 <= n <= Z.of_nat (length l) ->
  Z.of_nat (length (slice_from n l)) = Z.of_nat (length l) - n.
Proof.
  intros Hn. unfold slice_from, slice_bound.
  destruct (Z.ltb_spec n 0); [lia|]. rewrite length_skipn. lia.
Qed.

Lemma Forall_slice_to {A : Type} (P : A -> Prop) (n : Z) (l : list A) :
  Forall P l -> Forall P (slice_to n l).
Proof.
  intros Hl. unfold slice_to.
  rewrite <- (firstn_skipn (slice_bound (length l) n) l) in Hl.
  apply Forall_app in Hl. tauto.
Qed.

Lemma Forall_slice_from {A : Type} (P : A -> Prop) (n : Z) (l : list A) :
  Forall P l -> Forall P (slice_from n l).
Proof.
  intros Hl. unfold slice_from.
  rewrite <- (firstn_skipn (slice_bound (length l) n) l) in Hl.
  apply Forall_app in Hl. tauto.
Qed.

(** ** Binary strings *)

Lemma binary_Forall (s : str) : binary s = true -> Forall is_bit s.
Proof.
  intros Hs. apply Forall_forall. intros c Hc.
  unfold binary in Hs. rewrite forallb_forall in Hs. specialize (Hs c Hc).
  apply orb_true_iff in Hs as [E|E]; apply Ascii.eqb_eq in E; [left|right]; exact E.
Qed.

Lemma all_zero_Forall (s : str) :
  all_zero s = true <-> Forall (eq "0"%char) s.
Proof.
  unfold all_zero. rewrite forallb_forall, Forall_forall.
  split; intros Hs c Hc; specialize (Hs c Hc).
  - apply Ascii.eqb_eq in Hs. congruence.
  - apply Ascii.eqb_eq. congruence.
Qed.

Lemma sum_zeros (l : list Z) :
  Forall (eq 0) l -> sum l = 0.
Proof.
  unfold sum. generalize 0 at 2 3 as acc. 
  induction l as [|x l IH]; intros acc Hl; [reflexivity|].
  inversion Hl as [|? ? Hx Hl']; subst. cbn. rewrite Z.add_0_r. auto.
Qed.

Lemma data_bits_zero (final : str) (i : nat) :
  Forall (eq "0"%char) final -> nth i (data_bits final) 0 = 0.
Proof.
  intros Hz.
  destruct (nth_in_or_default i (data_bits final) 0) as [Hin | ->]; auto.
  unfold data_bits in *. rewrite <- in_rev in Hin.
  apply in_map_iff in Hin as (c & Ec & Hc). rewrite <- Ec.
  rewrite Forall_forall in Hz. rewrite <- (Hz c Hc). reflexivity.
Qed.

Lemma plaquette_parity_zero (bits : list Z) (pl : plaquette) :
  (forall i, nth i bits 0 = 0) -> plaquette_parity bits pl = 0.
Proof.
  intros Hz. unfold plaquette_parity. rewrite sum_zeros; [reflexivity|].
  apply Forall_map, Forall_forall. intros [i|] _; [symmetry; apply Hz | reflexivity].
Qed.

Lemma parity_chars_zero (bits : list Z) (pls : list plaquette) :
  (forall i, nth i bits 0 = 0) ->
  Forall (eq "0"%char) (map char_of_bit (rev (map (plaquette_parity bits) pls))).
Proof.
  intros Hz. apply Forall_map, Forall_rev, Forall_map, Forall_forall.
  intros pl _. rewrite plaquette_parity_zero by exact Hz. reflexivity.
Qed.

Lemma xor_bits_zero (bits : list Z) (idxs : list Z) :
  (forall i, nth i bits 0 = 0) -> xor_bits bits idxs = 0.
Proof.
  intros Hz. induction idxs as [|i idxs IH]; [reflexivity|].
  cbn [xor_bits fold_right]. fold (xor_bits bits idxs).
  rewrite Hz, IH. reflexivity.
Qed.

Lemma parity_chars_length (bits : list Z) (pls : list plaquette) :
  length (map char_of_bit (rev (map (plaquette_parity bits) pls))) = length pls.
Proof. rewrite length_map, length_rev, length_map. reflexivity. Qed.

(** C5: on a binary readout of the [num_data] data qubits and a previous
    syndrome string of width [num_syn_X + num_syn_Z], both variants return a
    string of that width.  In the X variant its first (high) [num_syn_X]
    characters are the parities of the X plaquettes, the last plaquette
    first, and its remaining (low) [num_syn_Z] characters are those of the
    previous string; in the Z variant the high characters are those of the
    previous string and the low ones the parities of the Z plaquettes.
    All-zero inputs give the all-zero string. *)
Theorem final_stabilizer_string (dh dw : Z) (final prev : str) :
  Z.odd dh = true -> Z.odd dw = true -> 3 <= dh -> 3 <= dw ->
  binary final = true -> Z.of_nat (length final) = dh * dw ->
  Z.of_nat (length prev) = num_syn_X dh dw + num_syn_Z dh dw ->
  exists L,
    new_lattice (dims dh dw) = Ok L /\
    num_data (params L) = dh * dw /\
    num_syn (params L) = [num_syn_X dh dw; num_syn_Z dh dw] /\
    (exists logical_readout stabilizer_str,
       extract_final_stabilizer_and_logical_readout_x L final prev
         = Ok (logical_readout, stabilizer_str) /\
       Z.of_nat (length stabilizer_str) = num_syn_X dh dw + num_syn_Z dh dw /\
       slice_to (num_syn_X dh dw) stabilizer_str
         = map char_of_bit
             (rev (map (plaquette_parity (data_bits final)) (mx (geometry L)))) /\
       slice_from (num_syn_X dh dw) stabilizer_str
         = slice_from (num_syn_X dh dw) prev /\
       (all_zero final = true -> all_zero prev = true ->
        all_zero stabilizer_str = true)) /\
    (exists logical_readout stabilizer_str,
       extract_final_stabilizer_and_logical_readout_z L final prev
         = Ok (logical_readout, stabilizer_str) /\
       Z.of_nat (length stabilizer_str) = num_syn_X dh dw + num_syn_Z dh dw /\
       slice_to (num_syn_X dh dw) stabilizer_str
         = slice_to (num_syn_X dh dw) prev /\
       slice_from (num_syn_X dh dw) stabilizer_str
         = map char_of_bit
             (rev (map (plaquette_parity (data_bits final)) (mz (geometry L)))) /\
       (all_zero final = true -> all_zero prev = true ->
        all_zero stabilizer_str = true)).
Proof.
  intros Hh Hw Hh3 Hw3 Hbin Hlen Hprev.
  destruct (new_lattice_built dh dw Hh Hw) as (gx & gz & Egx & Egz & EL).
  assert (Hnx : 0 <= num_syn_X dh dw).
  { apply Z.mul_nonneg_nonneg; [apply Z.div_pos|]; lia. }
  assert (Hnz : 0 <= num_syn_Z dh dw).
  { apply Z.mul_nonneg_nonneg; [apply Z.div_pos|]; lia. }
  pose proof (mapM_length _ _ _ Egx) as Hgx. rewrite range_length in Hgx.
  pose proof (mapM_length _ _ _ Egz) as Hgz. rewrite range_length in Hgz.
  fold (num_syn_X dh dw) in Hgx. fold (num_syn_Z dh dw) in Hgz.
  pose proof (binary_Forall final Hbin) as Hbits.
  eexists. split; [exact EL|].
  cbn [params geometry mx mz generated num_data num_syn].
  split; [reflexivity|]. split; [reflexivity|]. split.
  - do 2 eexists. split.
    { apply (extract_x_built dh dw Hh Hw); try lia; assumption. }
    fold (num_syn_X dh dw).
    assert (Hpar : Z.of_nat (length (map char_of_bit
              (rev (map (plaquette_parity (data_bits final)) gx))))
            = num_syn_X dh dw).
    { rewrite parity_chars_length, Hgx. lia. }
    split; [|split; [|split]].
    + rewrite length_app, Nat2Z.inj_add, Hpar, slice_from_length by lia. lia.
    + apply slice_to_app_exact. exact Hpar.
    + apply slice_from_app_exact. exact Hpar.
    + intros Hz Hpz. apply all_zero_Forall. apply all_zero_Forall in Hz, Hpz.
      apply Forall_app. split.
      * apply parity_chars_zero. intros i. apply data_bits_zero. exact Hz.
      * apply Forall_slice_from. exact Hpz.
  - do 2 eexists. split.
    { apply (extract_z_built dh dw Hh Hw); try lia; assumption. }
    fold (num_syn_X dh dw).
    assert (Hpre : Z.of_nat (length (slice_to (num_syn_X dh dw) prev))
            = num_syn_X dh dw).
    { apply slice_to_length. lia. }
    split; [|split; [|split]].
    + rewrite length_app, Nat2Z.inj_add, Hpre, parity_chars_length, Hgz. lia.
    + apply slice_to_app_exact. exact Hpre.
    + apply slice_from_app_exact. exact Hpre.
    + intros Hz Hpz. apply all_zero_Forall. apply all_zero_Forall in Hz, Hpz.
      apply Forall_app. split.
      * apply Forall_slice_to. exact Hpz.
      * apply parity_chars_zero. intros i. apply data_bits_zero. exact Hz.
Qed.

Lemma final_stabilizer_string_witness :
  exists L,
    new_lattice (dims 3 3) = Ok L /\
    num_data (params L) = 3 * 3 /\
    num_syn (params L) = [num_syn_X 3 3; num_syn_Z 3 3] /\
    (exists logical_readout stabilizer_str,
       extract_final_stabilizer_and_logical_readout_x
         L (lit "000001001") (lit "10100101")
         = Ok (logical_readout, stabilizer_str) /\
       Z.of_nat (length stabilizer_str) = num_syn_X 3 3 + num_syn_Z 3 3 /\
       slice_to (num_syn_X 3 3) stabilizer_str
         = map char_of_bit
             (rev (map (plaquette_parity (data_bits (lit "000001001")))
                       (mx (geometry L)))) /\
       slice_from (num_syn_X 3 3) stabilizer_str
         = slice_from (num_syn_X 3 3) (lit "10100101") /\
       (all_zero (lit "000001001") = true -> all_zero (lit "10100101") = true ->
        all_zero stabilizer_str = true)) /\
    (exists logical_readout stabilizer_str,
       extract_final_stabilizer_and_logical_readout_z
         L (lit "000001001") (lit "10100101")
         = Ok (logical_readout, stabilizer_str) /\
       Z.of_nat (length stabilizer_str) = num_syn_X 3 3 + num_syn_Z 3 3 /\
       slice_to (num_syn_X 3 3) stabilizer_str
         = slice_to (num_syn_X 3 3) (lit "10100101") /\
       slice_from (num_syn_X 3 3) stabilizer_str
         = map char_of_bit
             (rev (map (plaquette_parity (data_bits (lit "000001001")))
                       (mz (geometry L)))) /\
       (all_zero (lit "000001001") = true -> all_zero (lit "10100101") = true ->
        all_zero stabilizer_str = true)).
Proof.
  apply (final_stabilizer_string 3 3 (lit "000001001") (lit "10100101"));
    [reflexivity | reflexivity | lia | lia | reflexivity | reflexivity
    | reflexivity].
Defined.

(** ** Flipping one data qubit of a readout *)

Lemma update_nth_length {A : Type} (n : nat) (f : A -> A) (l : list A) :
  length (update_nth n f l) = length l.
Proof.
  revert n. induction l as [|x l IH]; intros [|n]; cbn; auto.
Qed.

Lemma update_nth_same {A : Type} (n : nat) (f : A -> A) (l : list A) (dflt : A) :
  (n < length l)%nat -> nth n (update_nth n f l) dflt = f (nth n l dflt).
Proof.
  revert n. induction l as [|x l IH]; intros [|n]; cbn; intros Hn;
    try lia; auto. apply IH. lia.
Qed.

Lemma update_nth_other {A : Type} (n m : nat) (f : A -> A) (l : list A) (dflt : A) :
  n <> m -> nth m (update_nth n f l) dflt = nth m l dflt.
Proof.
  revert n m. induction l as [|x l IH]; intros [|n] [|m]; cbn; intros Hnm;
    try lia; auto.
Qed.

Lemma update_nth_map {A B : Type} (g : A -> B) (f : A -> A) (f' : B -> B)
    (n : nat) (l : list A) :
  (forall x, In x l -> g (f x) = f' (g x)) ->
  map g (update_nth n f l) = update_nth n f' (map g l).
Proof.
  revert n. induction l as [|x l IH]; intros [|n] Hf; cbn; auto.
  - rewrite Hf by (cbn; auto). reflexivity.
  - rewrite IH by (intros; apply Hf; cbn; auto). reflexivity.
Qed.

Lemma update_nth_Forall {A : Type} (P : A -> Prop) (f : A -> A) (n : nat)
    (l : list A) :
  (forall x, P x -> P (f x)) -> Forall P l -> Forall P (update_nth n f l).
Proof.
  intros Hf. revert n. induction l as [|x l IH]; intros [|n] Hl; cbn; auto;
    inversion Hl; subst; constructor; auto.
Qed.

Lemma flip_char_bit (c : ascii) : is_bit c -> is_bit (flip_char c).
Proof. intros [-> | ->]; [right | left]; reflexivity. Qed.

Lemma flip_char_value (c : ascii) :
  is_bit c -> bit_of_char (flip_char c) = 1 - bit_of_char c.
Proof. intros [-> | ->]; reflexivity. Qed.

Lemma flip_qubit_bits (idx : Z) (final : str) :
  Forall is_bit final -> Forall is_bit (flip_qubit idx final).
Proof.
  intros Hb. unfold flip_qubit. apply Forall_rev, update_nth_Forall.
  - apply flip_char_bit.
  - apply Forall_rev. exact Hb.
Qed.

Lemma flip_qubit_length (idx : Z) (final : str) :
  length (flip_qubit idx final) = length final.
Proof.
  unfold flip_qubit. rewrite length_rev, update_nth_length, length_rev.
  reflexivity.
Qed.

(** Flipping qubit [idx] in the string flips entry [idx] of the data bits. *)
Lemma data_bits_flip (idx : Z) (final : str) :
  Forall is_bit final ->
  data_bits (flip_qubit idx final) =
  update_nth (Z.to_nat idx) (fun b => 1 - b) (data_bits final).
Proof.
  intros Hb. unfold data_bits, flip_qubit.
  rewrite map_rev, rev_involutive.
  rewrite (update_nth_map bit_of_char flip_char (fun b => 1 - b)).
  - rewrite map_rev. reflexivity.
  - intros c Hc. apply flip_char_value.
    rewrite <- in_rev in Hc. rewrite Forall_forall in Hb. auto.
Qed.

Lemma xor_bits_flip_out (bits : list Z) (idx : Z) (idxs : list Z) :
  0 <= idx -> (forall i, In i idxs -> 0 <= i) -> ~ In idx idxs ->
  xor_bits (update_nth (Z.to_nat idx) (fun b => 1 - b) bits) idxs
  = xor_bits bits idxs.
Proof.
  intros Hidx. induction idxs as [|i idxs IH]; intros Hpos Hout; [reflexivity|].
  cbn [xor_bits fold_right].
  fold (xor_bits bits idxs).
  fold (xor_bits (update_nth (Z.to_nat idx) (fun b => 1 - b) bits) idxs).
  rewrite IH; [| intros; apply Hpos; cbn; auto | intros Hin; apply Hout; cbn; auto].
  rewrite update_nth_other; [reflexivity|].
  assert (i <> idx) by (intros ->; apply Hout; cbn; auto).
  assert (0 <= i) by (apply Hpos; cbn; auto). lia.
Qed.

Lemma flip_bit_lxor (b : Z) : (b = 0 \/ b = 1) -> 1 - b = Z.lxor 1 b.
Proof. intros [-> | ->]; reflexivity. Qed.

Lemma xor_bits_flip_in (bits : list Z) (idx : Z) (idxs : list Z) :
  (forall i, nth i bits 0 = 0 \/ nth i bits 0 = 1) ->
  0 <= idx < Z.of_nat (length bits) ->
  (forall i, In i idxs -> 0 <= i) -> NoDup idxs -> In idx idxs ->
  xor_bits (update_nth (Z.to_nat idx) (fun b => 1 - b) bits) idxs
  = Z.lxor 1 (xor_bits bits idxs).
Proof.
  intros Hbits Hidx. induction idxs as [|i idxs IH]; intros Hpos Hnd Hin;
    [contradiction|].
  inversion Hnd as [|? ? Hni Hnd']; subst.
  cbn [xor_bits fold_right].
  fold (xor_bits bits idxs).
  fold (xor_bits (update_nth (Z.to_nat idx) (fun b => 1 - b) bits) idxs).
  destruct (Z.eq_dec i idx) as [->|Hne].
  - rewrite xor_bits_flip_out;
      [| lia | intros; apply Hpos; cbn; auto | exact Hni].
    rewrite update_nth_same by lia.
    rewrite flip_bit_lxor by apply Hbits.
    apply Z.lxor_assoc.
  - destruct Hin as [E|Hin]; [contradiction|].
    rewrite IH; [| intros; apply Hpos; cbn; auto | exact Hnd' | exact Hin].
    rewrite update_nth_other
      by (assert (0 <= i) by (apply Hpos; cbn; auto); lia).
    rewrite <- !Z.lxor_assoc.
    rewrite (Z.lxor_comm (nth (Z.to_nat i) bits 0) 1). reflexivity.
Qed.

Lemma range_NoDup (n : Z) : NoDup (range n).
Proof.
  unfold range. apply NoDup_map_NoDup_ForallPairs.
  - intros a b _ _ E. lia.
  - apply seq_NoDup.
Qed.

Lemma leftmost_column_NoDup (dh dw : Z) : 1 <= dw -> NoDup (leftmost_column dh dw).
Proof.
  intros Hw. unfold leftmost_column.
  apply NoDup_map_NoDup_ForallPairs; [|apply range_NoDup].
  intros a b _ _ E. nia.
Qed.

Lemma xor_bits_bit (bits : list Z) (idxs : list Z) :
  (forall i, nth i bits 0 = 0 \/ nth i bits 0 = 1) ->
  xor_bits bits idxs = 0 \/ xor_bits bits idxs = 1.
Proof.
  intros Hbits. induction idxs as [|i idxs IH]; [left; reflexivity|].
  cbn [xor_bits fold_right]. fold (xor_bits bits idxs).
  apply lxor_bit; auto.
Qed.

(** C6: on a binary readout of the whole lattice the X logical readout is
    the XOR of the data bits at [0, dw, 2dw, ...] (the leftmost column) and
    the Z logical readout is the XOR of the data bits at [0 .. dw-1] (the
    topmost row), the bits being taken in index-ascending order.  Flipping
    the qubit [k*dw] of the leftmost column toggles the X readout; it leaves
    the Z readout as it was unless [k = 0], the qubit that is also in the
    top row, where the Z readout toggles too. *)
Theorem logical_readout_is_xor (dh dw : Z) (final prev : str) :
  Z.odd dh = true -> Z.odd dw = true -> 1 <= dh -> 1 <= dw ->
  binary final = true -> Z.of_nat (length final) = dh * dw ->
  exists L,
    new_lattice (dims dh dw) = Ok L /\
    num_data (params L) = dh * dw /\
    let x := xor_bits (data_bits final) (leftmost_column dh dw) in
    let z := xor_bits (data_bits final) (topmost_row dw) in
    (x = 0 \/ x = 1) /\ (z = 0 \/ z = 1) /\
    (exists s, extract_final_stabilizer_and_logical_readout_x L final prev
               = Ok (x, s)) /\
    (exists s, extract_final_stabilizer_and_logical_readout_z L final prev
               = Ok (z, s)) /\
    (forall k, 0 <= k < dh ->
       (exists s, extract_final_stabilizer_and_logical_readout_x
                    L (flip_qubit (k * dw) final) prev
                  = Ok (Z.lxor 1 x, s)) /\
       (exists s, extract_final_stabilizer_and_logical_readout_z
                    L (flip_qubit (k * dw) final) prev
                  = Ok ((if k =? 0 then Z.lxor 1 z else z), s))).
Proof.
  intros Hh Hw Hh1 Hw1 Hbin Hlen.
  destruct (new_lattice_built dh dw Hh Hw) as (gx & gz & Egx & Egz & EL).
  pose proof (binary_Forall final Hbin) as Hbits.
  pose proof (data_bits_nth final) as Hnth.
  eexists. split; [exact EL|]. split; [reflexivity|]. cbv zeta.
  split; [apply xor_bits_bit; exact Hnth|].
  split; [apply xor_bits_bit; exact Hnth|].
  split; [eexists; apply (extract_x_built dh dw Hh Hw); assumption|].
  split; [eexists; apply (extract_z_built dh dw Hh Hw); assumption|].
  intros k Hk.
  assert (Hidx : 0 <= k * dw < Z.of_nat (length (data_bits final))).
  { rewrite data_bits_length, Hlen. nia. }
  split; eexists.
  - rewrite (extract_x_built dh dw Hh Hw Hh1 Hw1 gx gz Egx);
      [| apply flip_qubit_bits; exact Hbits
       | rewrite flip_qubit_length; exact Hlen].
    rewrite data_bits_flip by exact Hbits.
    rewrite xor_bits_flip_in; [reflexivity | exact Hnth | exact Hidx | | | ].
    + intros i Hi. apply (leftmost_column_in_range dh dw i Hh1 Hw1 Hi).
    + apply leftmost_column_NoDup. exact Hw1.
    + unfold leftmost_column. apply in_map_iff. exists k. split; [reflexivity|].
      apply In_range. exact Hk.
  - rewrite (extract_z_built dh dw Hh Hw Hh1 Hw1 gx gz Egz);
      [| apply flip_qubit_bits; exact Hbits
       | rewrite flip_qubit_length; exact Hlen].
    rewrite data_bits_flip by exact Hbits.
    destruct (Z.eqb_spec k 0) as [->|Hk0].
    + rewrite xor_bits_flip_in; [reflexivity | exact Hnth | exact Hidx | | | ].
      * intros i Hi. apply In_range in Hi. lia.
      * apply range_NoDup.
      * apply In_range. lia.
    + rewrite xor_bits_flip_out; [reflexivity | lia | | ].
      * intros i Hi. apply In_range in Hi. lia.
      * intros Hin. apply In_range in Hin. nia.
Qed.

Lemma logical_readout_is_xor_witness :
  exists L,
    new_lattice (dims 3 3) = Ok L /\
    num_data (params L) = 3 * 3 /\
    let x := xor_bits (data_bits (lit "000001001")) (leftmost_column 3 3) in
    let z := xor_bits (data_bits (lit "000001001")) (topmost_row 3) in
    (x = 0 \/ x = 1) /\ (z = 0 \/ z = 1) /\
    (exists s, extract_final_stabilizer_and_logical_readout_x
                 L (lit "000001001") (lit "10100101") = Ok (x, s)) /\
    (exists s, extract_final_stabilizer_and_logical_readout_z
                 L (lit "000001001") (lit "10100101") = Ok (z, s)) /\
    (forall k, 0 <= k < 3 ->
       (exists s, extract_final_stabilizer_and_logical_readout_x
                    L (flip_qubit (k * 3) (lit "000001001")) (lit "10100101")
                  = Ok (Z.lxor 1 x, s)) /\
       (exists s, extract_final_stabilizer_and_logical_readout_z
                    L (flip_qubit (k * 3) (lit "000001001")) (lit "10100101")
                  = Ok ((if k =? 0 then Z.lxor 1 z else z), s))).
Proof.
  apply (logical_readout_is_xor 3 3 (lit "000001001") (lit "10100101"));
    [reflexivity | reflexivity | lia | lia | reflexivity | reflexivity].
Defined.

(** ** The lattice of distance 3 *)

Lemma new_lattice_d3 : new_lattice (dim 3) = Ok lattice_d3.
Proof. reflexivity. Qed.

(** ** A lattice readout without its axis *)

Lemma split_space_cons (cur s : str) :
  exists c0 rest, split_space cur s = c0 :: rest.
Proof.
  revert cur. induction s as [|c s IH]; intros cur; cbn.
  - eauto.
  - destruct (Ascii.eqb c " "); [eauto | apply IH].
Qed.

Lemma split_cons (s : str) : exists c0 rest, split s = c0 :: rest.
Proof. apply split_space_cons. Qed.

Lemma getitem_head {A : Type} (x : A) (l : list A) : getitem (x :: l) 0 = Ok x.
Proof. apply getitem_nth_error; [lia | reflexivity]. Qed.

Lemma getitem_second {A : Type} (x y : A) (l : list A) :
  getitem (x :: y :: l) 1 = Ok y.
Proof. apply getitem_nth_error; [lia | reflexivity]. Qed.

Lemma str_eqb_neq (a b : str) : a <> b -> str_eqb a b = false.
Proof.
  intros Hne. unfold str_eqb. destruct (list_eq_dec ascii_dec a b); congruence.
Qed.

(** C8: when the first chunk of the readout is longer than one character
    and the axis is omitted or is neither "X" nor "Z", [parse_readout]
    raises: the assertion fails when the axis is omitted; otherwise the
    wrapper's [None] cannot be unpacked ([TypeError]), or, when the readout
    has no second chunk, [chunks[1]] is out of range ([IndexError]).  The
    lattice object, its geometry included, is as it was before the call. *)
Theorem lattice_readout_needs_axis (self : Lattice) (readout_string : str)
    (readout_type : option str) :
  1 < Z.of_nat (length (hd [] (split readout_string))) ->
  readout_type <> Some (lit "X") -> readout_type <> Some (lit "Z") ->
  (exists e,
     fst (parse_readout self readout_string readout_type) = Raise e /\
     (readout_type = None -> e = AssertionError) /\
     (readout_type <> None -> tl (split readout_string) <> [] -> e = TypeError) /\
     (readout_type <> None -> tl (split readout_string) = [] -> e = IndexError))
  /\ snd (parse_readout self readout_string readout_type) = self
  /\ geometry (snd (parse_readout self readout_string readout_type))
     = geometry self.
Proof.
  intros Hlen HX HZ. split; [|split; reflexivity].
  unfold parse_readout, parse_readout_result, head_chunks. cbn [fst].
  destruct (split_cons readout_string) as (c0 & rest & E). rewrite E in *.
  cbn [hd tl] in *. rewrite getitem_head. cbn [bind].
  destruct (Z.ltb_spec 1 (Z.of_nat (length c0))) as [_|]; [|lia].
  destruct readout_type as [rt|].
  - destruct rest as [|c1 rest].
    + exists IndexError. split; [reflexivity|].
      repeat split; try congruence.
    + rewrite getitem_second. cbn [bind].
      unfold extract_final_stabilizer_and_logical_readout.
      rewrite !str_eqb_neq by congruence. cbn [bind].
      exists TypeError. split; [reflexivity|].
      repeat split; congruence.
  - exists AssertionError. split; [reflexivity|].
    repeat split; congruence.
Qed.

Lemma lattice_readout_needs_axis_witness :
  (exists e,
     fst (parse_readout lattice_d3 (lit "000000000 00000000 00000000")
            (Some (lit "Y"))) = Raise e /\
     (Some (lit "Y") = None -> e = AssertionError) /\
     (Some (lit "Y") <> None ->
      tl (split (lit "000000000 00000000 00000000")) <> [] -> e = TypeError) /\
     (Some (lit "Y") <> None ->
      tl (split (lit "000000000 00000000 00000000")) = [] -> e = IndexError))
  /\ snd (parse_readout lattice_d3 (lit "000000000 00000000 00000000")
            (Some (lit "Y"))) = lattice_d3
  /\ geometry (snd (parse_readout lattice_d3
                      (lit "000000000 00000000 00000000") (Some (lit "Y"))))
     = geometry lattice_d3.
Proof.
  apply (lattice_readout_needs_axis lattice_d3
           (lit "000000000 00000000 00000000") (Some (lit "Y")));
    [vm_compute; reflexivity | discriminate | discriminate].
Defined.

(** ** Syndrome changes: which time steps give events *)

Lemma flat_mapM_In {A B : Type} (f : A -> result (list B)) (l : list A)
    (ys : list B) (y : B) :
  flat_mapM f l = Ok ys -> In y ys ->
  exists x ys', In x l /\ f x = Ok ys' /\ In y ys'.
Proof.
  unfold flat_mapM. intros E Hy.
  apply bind_Ok_inv in E as (ls & Els & E). apply Ok_inj in E. subst ys.
  apply in_concat in Hy as (ys' & Hys' & Hy).
  destruct (mapM_In _ _ _ _ Els Hys') as (x & Hx & Ex). eauto.
Qed.

Lemma flat_mapM_nil {A B : Type} (f : A -> result (list B)) (l : list A) :
  (forall x, In x l -> f x = Ok []) -> flat_mapM f l = Ok [].
Proof.
  intros Hf. unfold flat_mapM.
  rewrite (mapM_pure f (fun _ => [])) by exact Hf. cbn [bind]. f_equal.
  induction l as [|x l IH]; [reflexivity|]. cbn. apply IH.
  intros; apply Hf; cbn; auto.
Qed.

Lemma flat_mapM_total {A B : Type} (f : A -> result (list B)) (l : list A) :
  (forall x, In x l -> exists ys, f x = Ok ys) -> exists ys, flat_mapM f l = Ok ys.
Proof.
  intros Hf. unfold flat_mapM.
  destruct (mapM_total f l Hf) as (ls & ->). cbn. eauto.
Qed.

Lemma x_hit_In (per T s loc : Z) (l : list TQubit) (e : TQubit) :
  x_hit per T s loc = Ok l -> In e l -> time e = inject_Z T /\ s <> 0.
Proof.
  unfold x_hit. destruct (Z.eqb_spec (Z.land s (Z.shiftl 1 loc)) 0) as [E0|N0].
  - intros E. apply Ok_inj in E. subst l. contradiction.
  - unfold floordiv, pymod. destruct (per =? 0); [discriminate|]. cbn [bind].
    intros E. apply Ok_inj in E. subst l. intros [<-|[]]. split; [reflexivity|].
    intros ->. apply N0. apply Z.land_0_l.
Qed.

Lemma z_hit_In (per T s loc : Z) (l : list TQubit) (e : TQubit) :
  z_hit per T s loc = Ok l -> In e l -> time e = inject_Z T /\ s <> 0.
Proof.
  unfold z_hit. destruct (Z.eqb_spec (Z.land s (Z.shiftl 1 loc)) 0) as [E0|N0].
  - intros E. apply Ok_inj in E. subst l. contradiction.
  - unfold floordiv, pymod. destruct (per =? 0); [discriminate|]. cbn [bind].
    intros E. apply Ok_inj in E. subst l. intros [<-|[]]. split; [reflexivity|].
    intros ->. apply N0. apply Z.land_0_l.
Qed.

Lemma combine_seq_In {A : Type} (l : list A) (s n : nat) (T : Z) (x : A) :
  In (T, x) (combine (map Z.of_nat (seq s n)) l) ->
  exists i, T = Z.of_nat (s + i) /\ nth_error l i = Some x.
Proof.
  revert s n. induction l as [|y l IH]; intros s [|n]; cbn; try contradiction.
  intros [E|Hin].
  - injection E as <- <-. exists 0%nat. split; [f_equal; lia | reflexivity].
  - destruct (IH _ _ Hin) as (i & -> & Hi). exists (S i).
    split; [f_equal; lia | exact Hi].
Qed.

Lemma enumerate_In {A : Type} (l : list A) (T : Z) (x : A) :
  In (T, x) (enumerate l) ->
  exists i, T = Z.of_nat i /\ nth_error l i = Some x.
Proof.
  unfold enumerate, range. intros Hin.
  apply combine_seq_In in Hin as (i & -> & Hi). eauto.
Qed.

(** An event of the output comes from a non-zero change value, and its
    time is the position of that value. *)
Lemma hits_In (hit : Z -> Z -> Z -> result (list TQubit)) (n : Z)
    (syndromes : list Z) (evs : list TQubit) (e : TQubit) :
  (forall T s loc l e, hit T s loc = Ok l -> In e l ->
                       time e = inject_Z T /\ s <> 0) ->
  hits hit n syndromes = Ok evs -> In e evs ->
  exists i s, nth_error syndromes i = Some s /\ s <> 0 /\
              time e = inject_Z (Z.of_nat i).
Proof.
  intros Hhit E He. unfold hits in E.
  destruct (flat_mapM_In _ _ _ _ E He) as ((T & s) & row & HT & Erow & Hrow).
  destruct (flat_mapM_In _ _ _ _ Erow Hrow) as (loc & l & _ & El & Hl).
  destruct (Hhit _ _ _ _ _ El Hl) as (Htime & Hs).
  apply enumerate_In in HT as (i & -> & Hi). eauto.
Qed.

Lemma x_syndromes_zero (nx nz : Z) (xors xs : list Z) (i : nat) :
  x_syndromes nx nz xors = Ok xs -> nth_error xors i = Some 0 ->
  nth_error xs i = Some 0.
Proof.
  unfold x_syndromes. intros E Hi.
  destruct (mapM_nth_error _ _ _ _ _ E Hi) as (y & Hy & Ey).
  apply bind_Ok_inv in Ey as (m & _ & Ey). unfold rshift in Ey.
  destruct (nz <? 0); [discriminate|]. apply Ok_inj in Ey.
  rewrite Z.land_0_l, Z.shiftr_0_l in Ey. congruence.
Qed.

Lemma z_syndromes_zero (nz : Z) (xors zs : list Z) (i : nat) (s : Z) :
  z_syndromes nz xors = Ok zs -> nth_error xors i = Some 0 ->
  nth_error zs i = Some s -> s = 0.
Proof.
  unfold z_syndromes. intros E Hi Hs.
  destruct (repeat_seq (lit "1") nz) as [|c mask].
  - apply Ok_inj in E. subst zs. destruct i; discriminate.
  - destruct (mapM_nth_error _ _ _ _ _ E Hi) as (y & Hy & Ey).
    apply bind_Ok_inv in Ey as (m & _ & Ey). apply Ok_inj in Ey.
    rewrite Z.land_0_l in Ey. congruence.
Qed.

Lemma combine_nth_error {A B : Type} (l : list A) (l' : list B) (i : nat)
    (a : A) (b : B) :
  nth_error l i = Some a -> nth_error l' i = Some b ->
  nth_error (combine l l') i = Some (a, b).
Proof.
  revert l' i. induction l as [|x l IH]; intros [|y l'] [|i]; cbn;
    try discriminate; try congruence. apply IH.
Qed.

Lemma xor_syndromes_nth (ints : list Z) (i : nat) (a b : Z) :
  nth_error ints i = Some a -> nth_error ints (S i) = Some b ->
  nth_error (xor_syndromes ints) i = Some (Z.lxor a b).
Proof.
  intros Ha Hb. unfold xor_syndromes, zip.
  rewrite nth_error_map, (combine_nth_error _ _ i a b); [reflexivity | exact Ha |].
  rewrite slice_from_1_tl. destruct ints; [discriminate | exact Hb].
Qed.

Lemma xor_syndromes_length (ints : list Z) :
  length (xor_syndromes ints) = Nat.pred (length ints).
Proof.
  unfold xor_syndromes, zip.
  rewrite length_map, length_combine, slice_from_1_tl.
  destruct ints as [|z l]; [reflexivity|]. cbn [tl length Nat.pred]. lia.
Qed.

(** Two identical consecutive rounds give the change value zero. *)
Lemma identical_rounds_xor_zero (chunks : list str) (ints : list Z) (i : nat)
    (a : str) :
  int_syndromes chunks = Ok ints ->
  nth_error (rev chunks) i = Some a -> nth_error (rev chunks) (S i) = Some a ->
  nth_error (xor_syndromes ints) i = Some 0.
Proof.
  unfold int_syndromes. intros E Hi HSi.
  destruct (mapM_nth_error _ _ _ _ _ E Hi) as (v & Hv & Ev).
  destruct (mapM_nth_error _ _ _ _ _ E HSi) as (v' & Hv' & Ev').
  assert (v' = v) by congruence. subst v'.
  rewrite <- (Z.lxor_nilpotent v). apply xor_syndromes_nth; assumption.
Qed.

(** For any lattice object: when the parse returns, a time step between two
    identical rounds has no event. *)
Lemma parse_chunks_identical_rounds (self : Lattice) (chunks : list str)
    (syndromes : Syndromes) (i : nat) (a : str) :
  parse_chunks self chunks = Ok syndromes ->
  nth_error (rev chunks) i = Some a -> nth_error (rev chunks) (S i) = Some a ->
  (forall e, In e (hits_X syndromes) -> ~ (time e == inject_Z (Z.of_nat i))%Q) /\
  (forall e, In e (hits_Z syndromes) -> ~ (time e == inject_Z (Z.of_nat i))%Q).
Proof.
  unfold parse_chunks. intros E Hi HSi.
  apply bind_Ok_inv in E as (ints & Eints & E).
  apply bind_Ok_inv in E as (nz & _ & E).
  apply bind_Ok_inv in E as (nx & _ & E).
  apply bind_Ok_inv in E as (xs & Exs & E).
  apply bind_Ok_inv in E as (zs & Ezs & E).
  apply bind_Ok_inv in E as (dw & _ & E).
  apply bind_Ok_inv in E as (X & EX & E).
  apply bind_Ok_inv in E as (Z & EZ & E).
  apply Ok_inj in E. subst syndromes. cbn [hits_X hits_Z].
  pose proof (identical_rounds_xor_zero chunks ints i a Eints Hi HSi) as Hzero.
  split; intros e He Htime.
  - destruct (hits_In _ _ _ _ e (x_hit_In (dw / 2)) EX He) as (j & s & Hj & Hs & Ht).
    rewrite Ht in Htime.
    apply (proj1 (inject_Z_injective _ _)), Nat2Z.inj in Htime. subst j.
    pose proof (x_syndromes_zero _ _ _ _ i Exs Hzero). congruence.
  - destruct (hits_In _ _ _ _ e (z_hit_In (dw / 2 + 1)) EZ He)
      as (j & s & Hj & Hs & Ht).
    rewrite Ht in Htime.
    apply (proj1 (inject_Z_injective _ _)), Nat2Z.inj in Htime. subst j.
    apply Hs. eapply z_syndromes_zero; eauto.
Qed.

(** ** The parse returns on well-formed rounds *)

Lemma int_digits_binary (s : str) :
  binary s = true -> forall acc, exists v, int_digits 2 acc s = Ok v.
Proof.
  induction s as [|c s IH]; intros Hb acc; [cbn; eauto|].
  cbn [binary forallb] in Hb. apply andb_true_iff in Hb as (Hc & Hs).
  apply orb_true_iff in Hc as [E|E]; apply Ascii.eqb_eq in E; subst c;
    cbn; apply IH; exact Hs.
Qed.

Lemma int_base2_chunk (c : str) :
  syndrome_chunk c = true -> exists v, int_base 2 c = Ok v.
Proof.
  destruct c as [|x c]; [discriminate|]. intros Hb.
  apply (int_digits_binary (x :: c) Hb 0).
Qed.

Lemma int_syndromes_total (chunks : list str) :
  forallb syndrome_chunk chunks = true ->
  exists ints, int_syndromes chunks = Ok ints /\ length ints = length chunks.
Proof.
  intros Hc. unfold int_syndromes.
  destruct (mapM_total (int_base 2) (rev chunks)) as (ints & E).
  - intros c Hin. apply int_base2_chunk. rewrite <- in_rev in Hin.
    rewrite forallb_forall in Hc. auto.
  - exists ints. split; [exact E|].
    rewrite (mapM_length _ _ _ E), length_rev. reflexivity.
Qed.

Lemma repeat_seq_binary (c : ascii) (n : Z) :
  is_bit c -> binary (repeat_seq [c] n) = true.
Proof.
  intros Hc. unfold repeat_seq, binary. rewrite <- repeat_to_concat.
  apply forallb_forall. intros x Hx. apply repeat_spec in Hx. subst x.
  destruct Hc as [-> | ->]; reflexivity.
Qed.

Lemma repeat_seq_cons (c : ascii) (n : Z) :
  0 < n -> exists s, repeat_seq [c] n = c :: s.
Proof.
  intros Hn. unfold repeat_seq.
  destruct (Z.to_nat n) as [|k] eqn:E; [lia|]. cbn. eauto.
Qed.

Lemma mask_chunk (nx nz : Z) :
  0 < nx ->
  syndrome_chunk (repeat_seq (lit "1") nx ++ repeat_seq (lit "0") nz) = true.
Proof.
  intros Hnx. destruct (repeat_seq_cons "1" nx Hnx) as (s & E).
  assert (Hb : binary (repeat_seq (lit "1") nx ++ repeat_seq (lit "0") nz) = true).
  { unfold binary. rewrite forallb_app. apply andb_true_iff. split.
    - apply (repeat_seq_binary "1" nx). right; reflexivity.
    - apply (repeat_seq_binary "0" nz). left; reflexivity. }
  unfold lit in *. cbn [list_ascii_of_string] in *.
  rewrite E in *. exact Hb.
Qed.

Lemma x_syndromes_total (nx nz : Z) (xors : list Z) :
  0 < nx -> 0 <= nz -> exists xs, x_syndromes nx nz xors = Ok xs.
Proof.
  intros Hnx Hnz. unfold x_syndromes. apply mapM_total. intros x _.
  destruct (int_base2_chunk _ (mask_chunk nx nz Hnx)) as (m & ->).
  cbn [bind]. unfold rshift. destruct (Z.ltb_spec nz 0); [lia|]. eauto.
Qed.

Lemma z_syndromes_total (nz : Z) (xors : list Z) :
  exists zs, z_syndromes nz xors = Ok zs.
Proof.
  unfold z_syndromes.
  destruct (repeat_seq (lit "1") nz) as [|c mask] eqn:E; [eauto|].
  apply mapM_total. intros x _.
  destruct (int_base2_chunk (c :: mask)) as (m & ->); [|cbn; eauto].
  cbn [syndrome_chunk]. rewrite <- E.
  apply (repeat_seq_binary "1" nz). right; reflexivity.
Qed.

Lemma x_hit_total (per T s loc : Z) :
  per <> 0 -> exists l, x_hit per T s loc = Ok l.
Proof.
  intros Hper. unfold x_hit, floordiv, pymod.
  destruct (Z.land s (Z.shiftl 1 loc) =? 0); [eauto|].
  destruct (Z.eqb_spec per 0); [contradiction|]. cbn. eauto.
Qed.

Lemma z_hit_total (per T s loc : Z) :
  per <> 0 -> exists l, z_hit per T s loc = Ok l.
Proof.
  intros Hper. unfold z_hit, floordiv, pymod.
  destruct (Z.land s (Z.shiftl 1 loc) =? 0); [eauto|].
  destruct (Z.eqb_spec per 0); [contradiction|]. cbn. eauto.
Qed.

Lemma hits_total (hit : Z -> Z -> Z -> result (list TQubit)) (n : Z)
    (syndromes : list Z) :
  (forall T s loc, exists l, hit T s loc = Ok l) ->
  exists evs, hits hit n syndromes = Ok evs.
Proof.
  intros Hhit. unfold hits. apply flat_mapM_total.
  intros (T & s) _. apply flat_mapM_total. intros loc _. apply Hhit.
Qed.

Lemma parse_chunks_total (dh dw : Z) (g : Geometry) (chunks : list str) :
  3 <= dh -> 3 <= dw -> forallb syndrome_chunk chunks = true ->
  exists syndromes,
    parse_chunks {| params := generated dh dw; geometry := g |} chunks
    = Ok syndromes.
Proof.
  intros Hh Hw Hc. unfold parse_chunks.
  destruct (int_syndromes_total chunks Hc) as (ints & -> & _). cbn [bind].
  cbn [params generated num_syn d]. unfold SYNX, SYNZ, W.
  rewrite !getitem_pair_0, !getitem_pair_1. cbn [bind].
  assert (Hhalf : 2 <= (dh + 1) / 2) by (apply Z.div_le_lower_bound; lia).
  assert (Hhalfw : 2 <= (dw + 1) / 2) by (apply Z.div_le_lower_bound; lia).
  assert (Hnx : 0 < (dh + 1) / 2 * (dw - 1)) by nia.
  assert (Hnz : 0 <= (dw + 1) / 2 * (dh - 1)) by nia.
  destruct (x_syndromes_total _ _ (xor_syndromes ints) Hnx Hnz) as (xs & ->).
  destruct (z_syndromes_total ((dw + 1) / 2 * (dh - 1)) (xor_syndromes ints))
    as (zs & ->).
  cbn [bind].
  assert (Hper : 1 <= dw / 2) by (apply Z.div_le_lower_bound; lia).
  destruct (hits_total (x_hit (dw / 2)) ((dh + 1) / 2 * (dw - 1)) xs) as (X & ->).
  { intros. apply x_hit_total. lia. }
  destruct (hits_total (z_hit (dw / 2 + 1)) ((dw + 1) / 2 * (dh - 1)) zs) as (Z & ->).
  { intros. apply z_hit_total. lia. }
  cbn. eauto.
Qed.

Lemma new_lattice_inv (dh dw : Z) (L : Lattice) :
  new_lattice (dims dh dw) = Ok L ->
  params L = generated dh dw /\ Z.odd dh = true /\ Z.odd dw = true.
Proof.
  unfold new_lattice. rewrite validate_dims.
  destruct (Z.odd dh), (Z.odd dw); cbn [andb bind]; try discriminate.
  intros E. apply bind_Ok_inv in E as (g & _ & E). apply Ok_inj in E.
  subst L. auto.
Qed.

(** C9: on a lattice of odd dimensions at least 3, a history of well-formed
    rounds is parsed; its rounds give [rounds - 1] XOR change values (none
    for an empty history), and a time step between two
    identical consecutive rounds has no event in the "X" list and none in
    the "Z" list. *)
Theorem identical_rounds_no_events (dh dw : Z) (L : Lattice)
    (readout_string : str) (readout_type : option str)
    (logical_readout : Z) (chunks : list str) :
  3 <= dh -> 3 <= dw -> new_lattice (dims dh dw) = Ok L ->
  head_chunks L (split readout_string) readout_type
    = Ok (logical_readout, chunks) ->
  forallb syndrome_chunk chunks = true ->
  exists ints syndromes,
    int_syndromes chunks = Ok ints /\
    length ints = length chunks /\
    Z.of_nat (length (xor_syndromes ints))
      = Z.max 0 (Z.of_nat (length chunks) - 1) /\
    fst (parse_readout L readout_string readout_type)
      = Ok (logical_readout, syndromes) /\
    forall (i : nat) (a : str),
      nth_error (rev chunks) i = Some a ->
      nth_error (rev chunks) (S i) = Some a ->
      (forall e, In e (hits_X syndromes) ->
                 ~ (time e == inject_Z (Z.of_nat i))%Q) /\
      (forall e, In e (hits_Z syndromes) ->
                 ~ (time e == inject_Z (Z.of_nat i))%Q).
Proof.
  intros Hh Hw EL Ehead Hc.
  destruct (new_lattice_inv dh dw L EL) as (Hp & _ & _).
  destruct L as [p g]. cbn [params] in Hp. subst p.
  destruct (int_syndromes_total chunks Hc) as (ints & Eints & Hlen).
  destruct (parse_chunks_total dh dw g chunks Hh Hw Hc) as (syndromes & Esyn).
  exists ints, syndromes.
  split; [exact Eints|]. split; [exact Hlen|].
  split; [rewrite xor_syndromes_length, Hlen; lia|].
  split.
  - unfold parse_readout, parse_readout_result. cbn [fst].
    rewrite Ehead. cbn [bind]. rewrite Esyn. reflexivity.
  - intros i a Hi HSi.
    exact (parse_chunks_identical_rounds _ chunks syndromes i a Esyn Hi HSi).
Qed.

Lemma identical_rounds_no_events_witness :
  exists ints syndromes,
    int_syndromes [lit "00010001"; lit "00000000"; lit "00000000"] = Ok ints /\
    length ints = length [lit "00010001"; lit "00000000"; lit "00000000"] /\
    Z.of_nat (length (xor_syndromes ints))
      = Z.max 0
          (Z.of_nat (length [lit "00010001"; lit "00000000"; lit "00000000"])
           - 1) /\
    fst (parse_readout lattice_d3 (lit "1 00010001 00000000 00000000") None)
      = Ok (1, syndromes) /\
    forall (i : nat) (a : str),
      nth_error (rev [lit "00010001"; lit "00000000"; lit "00000000"]) i
        = Some a ->
      nth_error (rev [lit "00010001"; lit "00000000"; lit "00000000"]) (S i)
        = Some a ->
      (forall e, In e (hits_X syndromes) ->
                 ~ (time e == inject_Z (Z.of_nat i))%Q) /\
      (forall e, In e (hits_Z syndromes) ->
                 ~ (time e == inject_Z (Z.of_nat i))%Q).
Proof.
  apply (identical_rounds_no_events 3 3 lattice_d3
           (lit "1 00010001 00000000 00000000") None 1
           [lit "00010001"; lit "00000000"; lit "00000000"]);
    [lia | lia | reflexivity | reflexivity | reflexivity].
Defined.

(** ** A history with a single flip *)

Lemma mapM_app {A B : Type} (f : A -> result B) (l1 l2 : list A) :
  mapM f (l1 ++ l2) =
  (a <- mapM f l1 ;; b <- mapM f l2 ;; Ok (a ++ b)).
Proof.
  induction l1 as [|x l1 IH]; cbn.
  - destruct (mapM f l2); reflexivity.
  - destruct (f x) as [y|e]; [|reflexivity]. cbn. rewrite IH.
    destruct (mapM f l1) as [ys|e]; [|reflexivity]. cbn.
    destruct (mapM f l2) as [zs|e]; reflexivity.
Qed.

Lemma mapM_repeat {A B : Type} (f : A -> result B) (x : A) (y : B) (n : nat) :
  f x = Ok y -> mapM f (repeat x n) = Ok (repeat y n).
Proof.
  intros E. induction n as [|n IH]; [reflexivity|].
  cbn. rewrite E. cbn. rewrite IH. reflexivity.
Qed.

Lemma xor_syndromes_cons (a b : Z) (l : list Z) :
  xor_syndromes (a :: b :: l) = Z.lxor a b :: xor_syndromes (b :: l).
Proof. reflexivity. Qed.

Lemma xor_syndromes_repeat (b : Z) (k : nat) :
  xor_syndromes (repeat b (S k)) = repeat 0 k.
Proof.
  induction k as [|k IH]; [reflexivity|].
  change (repeat b (S (S k))) with (b :: b :: repeat b k).
  rewrite xor_syndromes_cons, Z.lxor_nilpotent.
  change (b :: repeat b k) with (repeat b (S k)). rewrite IH. reflexivity.
Qed.

(** The change values of a history that holds [a] up to round [T] and [b]
    from round [T+1] on. *)
Lemma xor_syndromes_single_flip (a b : Z) (T k : nat) :
  xor_syndromes (repeat a (S T) ++ repeat b (S k))
  = repeat 0 T ++ Z.lxor a b :: repeat 0 k.
Proof.
  induction T as [|T IH].
  - change (repeat a 1 ++ repeat b (S k)) with (a :: b :: repeat b k).
    rewrite xor_syndromes_cons.
    change (b :: repeat b k) with (repeat b (S k)).
    rewrite xor_syndromes_repeat. reflexivity.
  - change (repeat a (S (S T)) ++ repeat b (S k))
      with (a :: a :: (repeat a T ++ repeat b (S k))).
    rewrite xor_syndromes_cons, Z.lxor_nilpotent.
    change (a :: repeat a T ++ repeat b (S k))
      with (repeat a (S T) ++ repeat b (S k)).
    rewrite IH. reflexivity.
Qed.

Lemma enumerate_from_0 {A : Type} (l : list A) : enumerate l = enumerate_from 0 l.
Proof. unfold enumerate, enumerate_from, range. rewrite Nat2Z.id. reflexivity. Qed.

Lemma enumerate_from_app {A : Type} (s : nat) (l1 l2 : list A) :
  enumerate_from s (l1 ++ l2)
  = enumerate_from s l1 ++ enumerate_from (s + length l1) l2.
Proof.
  unfold enumerate_from. revert s. induction l1 as [|x l1 IH]; intros s.
  - cbn. rewrite Nat.add_0_r. reflexivity.
  - cbn. f_equal. rewrite (IH (S s)).
    replace (S s + length l1)%nat with (s + S (length l1))%nat by lia.
    reflexivity.
Qed.

Lemma enumerate_from_In {A : Type} (s : nat) (l : list A) (T : Z) (x : A) :
  In (T, x) (enumerate_from s l) -> In x l.
Proof. unfold enumerate_from. apply in_combine_r. Qed.

Section Hits.

Variable hit : Z -> Z -> Z -> result (list TQubit).
Variable n : Z.
Hypothesis hit_zero : forall T loc, hit T 0 loc = Ok [].

Lemma row_zero (T : Z) : hits_row hit n (T, 0) = Ok [].
Proof. cbn. apply flat_mapM_nil. intros loc _. apply hit_zero. Qed.

Lemma rows_zero (s m : nat) :
  flat_mapM (hits_row hit n) (enumerate_from s (repeat 0 m)) = Ok [].
Proof.
  apply flat_mapM_nil. intros (T & x) Hin.
  apply enumerate_from_In, repeat_spec in Hin. subst x. apply row_zero.
Qed.

Lemma flat_mapM_app {A B : Type} (f : A -> result (list B)) (l1 l2 : list A) :
  flat_mapM f (l1 ++ l2) =
  (a <- flat_mapM f l1 ;; b <- flat_mapM f l2 ;; Ok (a ++ b)).
Proof.
  unfold flat_mapM. rewrite mapM_app.
  destruct (mapM f l1) as [ys|e]; [|reflexivity]. cbn.
  destruct (mapM f l2) as [zs|e]; [|reflexivity]. cbn.
  rewrite concat_app. reflexivity.
Qed.

(** All change values zero: no event. *)
Lemma hits_zero (m : nat) : hits hit n (repeat 0 m) = Ok [].
Proof.
  unfold hits. fold (hits_row hit n). rewrite enumerate_from_0. apply rows_zero.
Qed.

(** A single non-zero change value, at time [T]: its events alone. *)
Lemma hits_single (T k : nat) (s : Z) (evs : list TQubit) :
  flat_mapM (hit (Z.of_nat T) s) (range n) = Ok evs ->
  hits hit n (repeat 0 T ++ s :: repeat 0 k) = Ok evs.
Proof.
  intros E. unfold hits. fold (hits_row hit n).
  rewrite enumerate_from_0, enumerate_from_app, flat_mapM_app, rows_zero.
  cbn [bind]. rewrite repeat_length.
  change (s :: repeat 0 k) with ([s] ++ repeat 0 k).
  rewrite enumerate_from_app, flat_mapM_app, rows_zero.
  unfold enumerate_from at 1. cbn [length seq map combine].
  unfold flat_mapM at 1. cbn [mapM hits_row]. rewrite Nat.add_0_l, E.
  cbn. rewrite !app_nil_r. reflexivity.
Qed.

End Hits.

Lemma x_hit_zero (per T loc : Z) : x_hit per T 0 loc = Ok [].
Proof. unfold x_hit. rewrite Z.land_0_l. reflexivity. Qed.

Lemma z_hit_zero (per T loc : Z) : z_hit per T 0 loc = Ok [].
Proof. unfold z_hit. rewrite Z.land_0_l. reflexivity. Qed.

Lemma mapM_single (f : Z -> result Z) (T k : nat) (c y : Z) :
  f 0 = Ok 0 -> f c = Ok y ->
  mapM f (repeat 0 T ++ c :: repeat 0 k) = Ok (repeat 0 T ++ y :: repeat 0 k).
Proof.
  intros E0 Ec. rewrite mapM_app, (mapM_repeat f 0 0 T E0). cbn [bind mapM].
  rewrite Ec, (mapM_repeat f 0 0 k E0). reflexivity.
Qed.

Lemma lxor_flip_back (a c : Z) : Z.lxor a (Z.lxor a c) = c.
Proof. rewrite <- Z.lxor_assoc, Z.lxor_nilpotent. apply Z.lxor_0_l. Qed.

(** On the lattice of distance 3 there are 4 X and 4 Z plaquettes, one X
    plaquette and two Z plaquettes per row. *)
Lemma parse_chunks_d3 (chunks : list str) :
  parse_chunks lattice_d3 chunks =
  (ints <- int_syndromes chunks ;;
   xs <- x_syndromes 4 4 (xor_syndromes ints) ;;
   zs <- z_syndromes 4 (xor_syndromes ints) ;;
   X <- hits (x_hit 1) 4 xs ;;
   Z <- hits (z_hit 2) 4 zs ;;
   Ok {| hits_X := X; hits_Z := Z |}).
Proof. reflexivity. Qed.

Lemma int_syndromes_single_flip (before after : str) (a b : Z) (T k : nat) :
  int_base 2 before = Ok a -> int_base 2 after = Ok b ->
  int_syndromes (repeat after (S k) ++ repeat before (S T))
  = Ok (repeat a (S T) ++ repeat b (S k)).
Proof.
  intros Ea Eb. unfold int_syndromes.
  rewrite rev_app_distr, !rev_repeat, mapM_app.
  rewrite (mapM_repeat _ before a (S T) Ea). cbn [bind].
  rewrite (mapM_repeat _ after b (S k) Eb). reflexivity.
Qed.

(** C1, as the code has it: on the lattice that is built for d=3, take a
    history whose rounds are identical up to round [T] and identical from
    round [T+1] on, the two differing in one bit; it gives a single event.
    When the bit is X-field position 0 (bit [num_syn_Z + 0] of a round) the
    event is [(T, -0.5, 0.5)] in the "X" list; when it is Z-field position 0
    (bit 0) the event is [(T, 0.5, 0.5)] in the "Z" list. *)
Theorem single_flip_event_d3 (readout_string : str) (readout_type : option str)
    (logical_readout : Z) (before after : str) (a : Z) (T k : nat) :
  head_chunks lattice_d3 (split readout_string) readout_type
    = Ok (logical_readout, repeat after (S k) ++ repeat before (S T)) ->
  int_base 2 before = Ok a ->
  new_lattice (dim 3) = Ok lattice_d3 /\
  (int_base 2 after = Ok (Z.lxor a (Z.shiftl 1 (num_syn_Z 3 3 + 0))) ->
   fst (parse_readout lattice_d3 readout_string readout_type)
   = Ok (logical_readout,
         {| hits_X := [(inject_Z (Z.of_nat T), -1 # 2, 1 # 2)%Q];
            hits_Z := [] |}))
  /\
  (int_base 2 after = Ok (Z.lxor a (Z.shiftl 1 0)) ->
   fst (parse_readout lattice_d3 readout_string readout_type)
   = Ok (logical_readout,
         {| hits_X := [];
            hits_Z := [(inject_Z (Z.of_nat T), 1 # 2, 1 # 2)%Q] |})).
Proof.
  intros Ehead Ea. split; [reflexivity|].
  unfold parse_readout, parse_readout_result. cbn [fst].
  rewrite Ehead. cbn [bind]. rewrite parse_chunks_d3.
  split; intros Eb;
    rewrite (int_syndromes_single_flip before after a _ T k Ea Eb);
    cbn [bind]; rewrite xor_syndromes_single_flip, lxor_flip_back.
  - change (Z.shiftl 1 (num_syn_Z 3 3 + 0)) with 16.
    unfold x_syndromes. rewrite (mapM_single _ T k 16 1) by reflexivity.
    cbn [bind]. unfold z_syndromes.
    change (repeat_seq (lit "1") 4) with (lit "1111").
    cbn [lit list_ascii_of_string].
    rewrite (mapM_single _ T k 16 0) by reflexivity. cbn [bind].
    rewrite (hits_single (x_hit 1) 4 (x_hit_zero 1) T k 1
               [(inject_Z (Z.of_nat T), -1 # 2, 1 # 2)%Q]) by reflexivity.
    cbn [bind].
    change (0 :: repeat 0 k) with (repeat 0 (S k)). rewrite <- repeat_app.
    rewrite (hits_zero (z_hit 2) 4 (z_hit_zero 2)). reflexivity.
  - change (Z.shiftl 1 0) with 1.
    unfold x_syndromes. rewrite (mapM_single _ T k 1 0) by reflexivity.
    cbn [bind]. unfold z_syndromes.
    change (repeat_seq (lit "1") 4) with (lit "1111").
    cbn [lit list_ascii_of_string].
    rewrite (mapM_single _ T k 1 1) by reflexivity. cbn [bind].
    change (0 :: repeat 0 k) with (repeat 0 (S k)). rewrite <- repeat_app.
    rewrite (hits_zero (x_hit 1) 4 (x_hit_zero 1)). cbn [bind].
    rewrite (hits_single (z_hit 2) 4 (z_hit_zero 2) T k 1
               [(inject_Z (Z.of_nat T), 1 # 2, 1 # 2)%Q]) by reflexivity.
    reflexivity.
Qed.

Lemma single_flip_event_d3_witness :
  fst (parse_readout lattice_d3 (lit "0 00010000 00000000") None)
  = Ok (0, {| hits_X := [(inject_Z (Z.of_nat 0), -1 # 2, 1 # 2)%Q];
              hits_Z := [] |})
  /\
  fst (parse_readout lattice_d3
         (lit "1 10100111 10100111 10100110 10100110") None)
  = Ok (1, {| hits_X := [];
              hits_Z := [(inject_Z (Z.of_nat 1), 1 # 2, 1 # 2)%Q] |}).
Proof.
  split.
  - apply (proj1 (proj2 (single_flip_event_d3
                           (lit "0 00010000 00000000") None 0
                           (lit "00000000") (lit "00010000") 0 0 0
                           eq_refl eq_refl))).
    reflexivity.
  - apply (proj2 (proj2 (single_flip_event_d3
                           (lit "1 10100111 10100111 10100110 10100110") None 1
                           (lit "10100110") (lit "10100111") 166 1 1
                           eq_refl eq_refl))).
    reflexivity.
Defined.

(** The golden value (T, 0.5, -0.5) of the specification does not hold: a
    single flip at Z-field position 0 gives an event whose column is 0.5,
    not -0.5. *)
Lemma z_flip_column_counterexample :
  new_lattice (dim 3) = Ok lattice_d3 /\
  exists row col,
    fst (parse_readout lattice_d3 (lit "0 00000001 00000000") None)
    = Ok (0, {| hits_X := []; hits_Z := [(inject_Z 0, row, col)] |}) /\
    (row == 1 # 2)%Q /\ (col == 1 # 2)%Q /\ ~ (col == - (1 # 2))%Q.
Proof.
  split; [reflexivity|]. exists (1 # 2)%Q, (1 # 2)%Q.
  split; [reflexivity|]. split; [reflexivity|]. split; [reflexivity|].
  intros E. discriminate E.
Qed.

(** * Further properties *)

(** ** Validation: the forms of "d" *)

(** X1: every form of "d" is read as a pair of integers: a missing "d" as
    (3, 3), a number [x] as the square (int(x), int(x)), and a pair through
    [int] of its components; so a fractional distance is truncated before
    it is tested for oddness. *)
Theorem d_read_as_integer_pair :
  _params_validate_and_generate None = _params_validate_and_generate (dims 3 3)
  /\ (forall x : Q,
        _params_validate_and_generate (Some (DNumber x))
        = _params_validate_and_generate (dims (int_of_number x) (int_of_number x)))
  /\ (forall h w : Q,
        _params_validate_and_generate (Some (DTuple [h; w]))
        = _params_validate_and_generate (dims (int_of_number h) (int_of_number w))).
Proof.
  split; [reflexivity|]. split.
  - intros x. rewrite validate_number, validate_dims.
    destruct (Z.odd (int_of_number x)); reflexivity.
  - intros h w. rewrite validate_tuple, validate_dims. reflexivity.
Qed.

(** X2: a sequence "d" with fewer than two components raises [IndexError]
    (not [LatticeError]); one with more than two is validated on its first
    two components alone, and is stored whole. *)
Theorem d_sequence_length :
  _params_validate_and_generate (Some (DTuple [])) = Raise IndexError
  /\ (forall h : Q,
     _params_validate_and_generate (Some (DTuple [h])) = Raise IndexError)
  /\ (forall (h w : Q) (rest : list Q),
     _params_validate_and_generate (Some (DTuple (h :: w :: rest)))
     = p <- _params_validate_and_generate (Some (DTuple [h; w])) ;;
       Ok (with_d p (map int_of_number (h :: w :: rest)))).
Proof.
  split; [reflexivity|]. split.
  - intros h. reflexivity.
  - intros h w rest. rewrite validate_tuple.
    unfold _params_validate_and_generate, normalise_d, H, W.
    cbn [map]. rewrite getitem_head, getitem_second. cbn [bind].
    rewrite !mod2_eqb_odd.
    destruct (Z.odd (int_of_number h)), (Z.odd (int_of_number w)); reflexivity.
Qed.

(** X3: for odd dimensions of either sign the lattice has one stabilizer
    fewer than it has data qubits: [num_syn_X + num_syn_Z = num_data - 1]. *)
Theorem one_stabilizer_fewer_than_data (dh dw : Z) :
  Z.odd dh = true -> Z.odd dw = true ->
  exists p nx nz,
    _params_validate_and_generate (dims dh dw) = Ok p /\
    getitem (num_syn p) SYNX = Ok nx /\
    getitem (num_syn p) SYNZ = Ok nz /\
    nx + nz = num_data p - 1.
Proof.
  intros Hh Hw. rewrite validate_dims, Hh, Hw. cbn [andb].
  eexists _, _, _. split; [reflexivity|].
  split; [reflexivity|]. split; [reflexivity|].
  cbn [generated num_data].
  apply odd_decompose in Hh as (n & ->). apply odd_decompose in Hw as (m & ->).
  rewrite !half_odd_succ. ring.
Qed.

Lemma one_stabilizer_fewer_than_data_witness :
  exists p nx nz,
    _params_validate_and_generate (dims 5 (-3)) = Ok p /\
    getitem (num_syn p) SYNX = Ok nx /\
    getitem (num_syn p) SYNZ = Ok nz /\
    nx + nz = num_data p - 1.
Proof.
  apply (one_stabilizer_fewer_than_data 5 (-3)); reflexivity.
Defined.

(** ** Geometry: shape of the table *)

Lemma mapM_nth_error_inv {A B : Type} (f : A -> result B) (l : list A)
    (ys : list B) (i : nat) (y : B) :
  mapM f l = Ok ys -> nth_error ys i = Some y ->
  exists x, nth_error l i = Some x /\ f x = Ok y.
Proof.
  intros E. apply mapM_Forall2 in E. revert i.
  induction E as [|x' y' l' ys' Hxy _ IH]; intros [|i]; cbn; intros Hn;
    try discriminate.
  - injection Hn as <-. eauto.
  - auto.
Qed.

Lemma nth_error_range_inv (n : Z) (i : nat) (x : Z) :
  nth_error (range n) i = Some x -> x = Z.of_nat i /\ 0 <= x < n.
Proof.
  unfold range. rewrite nth_error_map, nth_error_seq.
  destruct (Nat.ltb_spec i (Z.to_nat n)); cbn; intros E; [|discriminate].
  apply Some_inj in E. subst x. lia.
Qed.

(** X4: for odd dimensions of either sign the geometry is built; "mx" has
    [num_syn_X] plaquettes and "mz" has [num_syn_Z] (none when the count is
    not positive), and the plaquette at position [i] of either list is a
    list of five entries whose first entry is [i] itself. *)
Theorem geometry_shape (dh dw : Z) :
  Z.odd dh = true -> Z.odd dw = true ->
  exists L,
    new_lattice (dims dh dw) = Ok L /\
    Z.of_nat (length (mx (geometry L))) = Z.max 0 (num_syn_X dh dw) /\
    Z.of_nat (length (mz (geometry L))) = Z.max 0 (num_syn_Z dh dw) /\
    forall (i : nat) (pl : plaquette),
      nth_error (mx (geometry L)) i = Some pl \/
      nth_error (mz (geometry L)) i = Some pl ->
      exists top_l top_r bot_l bot_r,
        pl = [Some (Z.of_nat i); top_l; top_r; bot_l; bot_r].
Proof.
  intros Hh Hw.
  destruct (new_lattice_built dh dw Hh Hw) as (gx & gz & Egx & Egz & EL).
  eexists. split; [exact EL|]. cbn [geometry mx mz].
  pose proof (mapM_length _ _ _ Egx) as Hgx. rewrite range_length in Hgx.
  pose proof (mapM_length _ _ _ Egz) as Hgz. rewrite range_length in Hgz.
  split; [unfold num_syn_X; lia|]. split; [unfold num_syn_Z; lia|].
  intros i pl [Hpl|Hpl].
  - destruct (mapM_nth_error_inv _ _ _ _ _ Egx Hpl) as (syn & Hsyn & Epl).
    apply nth_error_range_inv in Hsyn as (-> & Hr).
    rewrite plaquette_x_cases in Epl.
    + apply Ok_inj in Epl. subst pl. cbv zeta.
      destruct (_ =? 0); [|destruct (_ =? dh)]; do 4 eexists; reflexivity.
    + apply (per_row_x_nonzero dh dw (Z.of_nat i) Hw). apply In_range. exact Hr.
  - destruct (mapM_nth_error_inv _ _ _ _ _ Egz Hpl) as (syn & Hsyn & Epl).
    apply nth_error_range_inv in Hsyn as (-> & Hr).
    rewrite plaquette_z_cases in Epl.
    + apply Ok_inj in Epl. subst pl. cbv zeta.
      destruct (_ && _); [|destruct (_ && _)]; do 4 eexists; reflexivity.
    + apply (per_row_z_nonzero dh dw (Z.of_nat i) Hw). apply In_range. exact Hr.
Qed.

Lemma geometry_shape_witness :
  exists L,
    new_lattice (dims 3 (-5)) = Ok L /\
    Z.of_nat (length (mx (geometry L))) = Z.max 0 (num_syn_X 3 (-5)) /\
    Z.of_nat (length (mz (geometry L))) = Z.max 0 (num_syn_Z 3 (-5)) /\
    forall (i : nat) (pl : plaquette),
      nth_error (mx (geometry L)) i = Some pl \/
      nth_error (mz (geometry L)) i = Some pl ->
      exists top_l top_r bot_l bot_r,
        pl = [Some (Z.of_nat i); top_l; top_r; bot_l; bot_r].
Proof.
  apply (geometry_shape 3 (-5)); reflexivity.
Defined.

(** X5: for odd [dh], [dw >= 3] the Z plaquette [syn] sits in the row
    [row = syn // per_row_z], between 0 and [dh - 2].  With
    [base = row*dw + 2*offset - row % 2]: in an even row its last plaquette
    has only the left pair [base], [base + dw]; in an odd row its first
    plaquette has only the right pair [base + 1], [base + dw + 1]; every
    other plaquette has the four data qubits [base], [base + 1],
    [base + dw], [base + dw + 1]. *)
Theorem z_boundary_truncation (dh dw : Z) :
  Z.odd dh = true -> Z.odd dw = true -> 3 <= dh -> 3 <= dw ->
  exists L,
    new_lattice (dims dh dw) = Ok L /\
    forall syn, 0 <= syn < Z.of_nat (length (mz (geometry L))) ->
      let per_row_z := (dw + 1) / 2 in
      let row := syn / per_row_z in
      let offset := syn mod per_row_z in
      let base := row * dw + 2 * offset - row mod 2 in
      0 <= row <= dh - 2 /\ 0 <= offset <= per_row_z - 1 /\
      (row mod 2 = 0 /\ offset = per_row_z - 1 ->
       getitem (mz (geometry L)) syn =
         Ok [Some syn; Some base; None; Some (base + dw); None]) /\
      (row mod 2 = 1 /\ offset = 0 ->
       getitem (mz (geometry L)) syn =
         Ok [Some syn; None; Some (base + 1); None; Some (base + dw + 1)]) /\
      (~ (row mod 2 = 0 /\ offset = per_row_z - 1) ->
       ~ (row mod 2 = 1 /\ offset = 0) ->
       getitem (mz (geometry L)) syn =
         Ok [Some syn; Some base; Some (base + 1);
             Some (base + dw); Some (base + dw + 1)]).
Proof.
  intros Hh Hw Hh3 Hw3.
  destruct (new_lattice_built dh dw Hh Hw) as (gx & gz & Egx & Egz & EL).
  eexists. split; [exact EL|]. cbn [geometry mz].
  pose proof (mapM_length _ _ _ Egz) as Hlen. rewrite range_length in Hlen.
  intros syn Hsyn. rewrite Hlen in Hsyn.
  assert (Hnz : 0 <= (dw + 1) / 2 * (dh - 1)).
  { apply Z.mul_nonneg_nonneg; [apply Z.div_pos|]; lia. }
  rewrite Z2Nat.id in Hsyn by exact Hnz.
  destruct (mapM_range_getitem _ _ syn gz Egz Hsyn) as (pl & Hget & Epl).
  assert (Hper : (dw + 1) / 2 <> 0).
  { apply (per_row_z_nonzero dh dw syn Hw). apply In_range. exact Hsyn. }
  rewrite plaquette_z_cases in Epl by exact Hper. rewrite Hget. clear Hget.
  apply Ok_inj in Epl. subst pl. cbv zeta.
  assert (Hb : 0 <= syn / ((dw + 1) / 2) <= dh - 2 /\
               0 <= syn mod ((dw + 1) / 2) <= (dw + 1) / 2 - 1).
  { destruct (odd_decompose dh Hh) as (n & En).
    destruct (odd_decompose dw Hw) as (m & Em). rewrite En, Em in *.
    rewrite half_odd_succ in *.
    replace (2 * n + 1 - 1) with (2 * n) in Hsyn by lia.
    destruct (z_row_offset_bounds n m syn ltac:(lia) ltac:(lia) Hsyn)
      as (Hr & Ho & _). lia. }
  destruct Hb as (Hrow & Hoff).
  split; [exact Hrow|]. split; [exact Hoff|].
  set (row := syn / ((dw + 1) / 2)) in *.
  set (off := syn mod ((dw + 1) / 2)) in *.
  replace (row * dw + off * 2 - row mod 2)
    with (row * dw + 2 * off - row mod 2) by lia.
  replace (row * dw + dw + off * 2 - row mod 2)
    with (row * dw + 2 * off - row mod 2 + dw) by lia.
  replace (row * dw + dw + off * 2 - row mod 2 + 1)
    with (row * dw + 2 * off - row mod 2 + dw + 1) by lia.
  destruct (Z.eqb_spec (row mod 2) 0) as [P0|P0];
    destruct (Z.eqb_spec off ((dw + 1) / 2 - 1)) as [O1|O1];
    destruct (Z.eqb_spec (row mod 2) 1) as [P1|P1];
    destruct (Z.eqb_spec off 0) as [O0|O0]; cbn [andb];
    (split; [intros; try reflexivity; lia|]);
    (split; [intros; try reflexivity; lia|]);
    intros; try reflexivity; tauto.
Qed.

Lemma z_boundary_truncation_witness :
  exists L,
    new_lattice (dims 3 5) = Ok L /\
    forall syn, 0 <= syn < Z.of_nat (length (mz (geometry L))) ->
      let per_row_z := (5 + 1) / 2 in
      let row := syn / per_row_z in
      let offset := syn mod per_row_z in
      let base := row * 5 + 2 * offset - row mod 2 in
      0 <= row <= 3 - 2 /\ 0 <= offset <= per_row_z - 1 /\
      (row mod 2 = 0 /\ offset = per_row_z - 1 ->
       getitem (mz (geometry L)) syn =
         Ok [Some syn; Some base; None; Some (base + 5); None]) /\
      (row mod 2 = 1 /\ offset = 0 ->
       getitem (mz (geometry L)) syn =
         Ok [Some syn; None; Some (base + 1); None; Some (base + 5 + 1)]) /\
      (~ (row mod 2 = 0 /\ offset = per_row_z - 1) ->
       ~ (row mod 2 = 1 /\ offset = 0) ->
       getitem (mz (geometry L)) syn =
         Ok [Some syn; Some base; Some (base + 1);
             Some (base + 5); Some (base + 5 + 1)]).
Proof.
  apply (z_boundary_truncation 3 5); [reflexivity | reflexivity | lia | lia].
Defined.

(** ** Geometry: every data qubit is checked on both axes *)

Lemma div_mod_of_sum (per q r : Z) :
  0 <= r < per -> (per * q + r) / per = q /\ (per * q + r) mod per = r.
Proof.
  intros Hr. split.
  - symmetry. apply (Z.div_unique _ per q r); [left; exact Hr | reflexivity].
  - symmetry. apply (Z.mod_unique _ per q r); [left; exact Hr | reflexivity].
Qed.

(** One of the four optional indices of a plaquette is [Some idx]. *)
Ltac pick_corner :=
  cbn [tl In];
  first [ left; f_equal; lia
        | right; left; f_equal; lia
        | right; right; left; f_equal; lia
        | right; right; right; left; f_equal; lia ].

Lemma z_plaquette_covers (n m idx : Z) :
  1 <= n -> 1 <= m -> 0 <= idx < (2 * n + 1) * (2 * m + 1) ->
  exists syn pl,
    0 <= syn < (m + 1) * (2 * n) /\
    plaquette_z (2 * m + 1) (m + 1) syn = Ok pl /\
    In (Some idx) (tl pl).
Proof.
  intros Hn Hm Hidx.
  pose proof (Z.div_mod idx (2 * m + 1) ltac:(lia)) as Hdm.
  pose proof (Z.mod_pos_bound idx (2 * m + 1) ltac:(lia)) as Hc.
  assert (Hr : 0 <= idx / (2 * m + 1) <= 2 * n).
  { split; [apply Z.div_pos; lia|].
    apply Z.lt_succ_r, Z.div_lt_upper_bound; lia. }
  remember (idx / (2 * m + 1)) as r eqn:Er.
  remember (idx mod (2 * m + 1)) as c eqn:Ec.
  assert (HR : exists R, 0 <= R <= 2 * n - 1 /\
                         (R = r \/ R = r - 1 /\ r = 2 * n)).
  { destruct (Z.leb_spec r (2 * n - 1));
      [exists r | exists (r - 1)]; lia. }
  destruct HR as (R & HRb & HRr).
  pose proof (mod2_cases R) as Hp.
  pose proof (Z.div_mod (c + R mod 2) 2 ltac:(lia)) as Hoff.
  pose proof (Z.mod_pos_bound (c + R mod 2) 2 ltac:(lia)) as He.
  remember (R mod 2) as p eqn:Ep.
  remember ((c + p) / 2) as off eqn:Eo.
  remember ((c + p) mod 2) as e eqn:Ee.
  assert (Hob : 0 <= off <= m) by lia.
  destruct (div_mod_of_sum (m + 1) R off ltac:(lia)) as (Ediv & Emod).
  exists ((m + 1) * R + off). eexists. split; [nia|].
  split; [apply plaquette_z_cases; lia|].
  cbv zeta. rewrite Ediv, Emod, <- Ep.
  assert (Hrm : r * m = m * r) by ring.
  assert (HRm : R * m = m * R) by ring.
  destruct (Z.eqb_spec p 0) as [P0|P0];
    destruct (Z.eqb_spec off (m + 1 - 1)) as [O1|O1];
    destruct (Z.eqb_spec p 1) as [P1|P1];
    destruct (Z.eqb_spec off 0) as [O0|O0]; cbn [andb];
    try lia; clear Ep Er Ec Eo Ee Ediv Emod;
    destruct HRr as [HRr|(HRr & Hlast)]; subst R;
    (assert (He' : e = 0 \/ e = 1) by lia); destruct He'; pick_corner.
Qed.

Lemma succ_mod2 (r : Z) : (r + 1) mod 2 = 1 - r mod 2.
Proof.
  pose proof (Z.div_mod r 2 ltac:(lia)) as Hr.
  destruct (mod2_cases r) as [E|E]; rewrite E in *.
  - symmetry. apply (Z.mod_unique _ 2 (r / 2) 1); lia.
  - symmetry. apply (Z.mod_unique _ 2 (r / 2 + 1) 0); lia.
Qed.

Lemma x_plaquette_covers (n m idx : Z) :
  0 <= n -> 1 <= m -> 0 <= idx < (2 * n + 1) * (2 * m + 1) ->
  exists syn pl,
    0 <= syn < (n + 1) * (2 * m) /\
    plaquette_x (2 * n + 1) (2 * m + 1) m syn = Ok pl /\
    In (Some idx) (tl pl).
Proof.
  intros Hn Hm Hidx.
  pose proof (Z.div_mod idx (2 * m + 1) ltac:(lia)) as Hdm.
  pose proof (Z.mod_pos_bound idx (2 * m + 1) ltac:(lia)) as Hc.
  assert (Hr : 0 <= idx / (2 * m + 1) <= 2 * n).
  { split; [apply Z.div_pos; lia|].
    apply Z.lt_succ_r, Z.div_lt_upper_bound; lia. }
  remember (idx / (2 * m + 1)) as r eqn:Er.
  remember (idx mod (2 * m + 1)) as c eqn:Ec.
  assert (Hp : exists p, (c = 0 /\ p = 0) \/ (1 <= c /\ p = 1)).
  { destruct (Z.eq_dec c 0); [exists 0 | exists 1]; lia. }
  destruct Hp as (p & Hp).
  assert (HR : exists R, (R = r \/ R = r + 1) /\ R mod 2 = p).
  { pose proof (succ_mod2 r). destruct (mod2_cases r);
      destruct (Z.eq_dec (r mod 2) p); [exists r | exists (r + 1) | exists r
                                        | exists (r + 1)]; lia. }
  destruct HR as (R & HRr & HRp).
  pose proof (Z.div_mod (c - p) 2 ltac:(lia)) as Hoff.
  pose proof (Z.mod_pos_bound (c - p) 2 ltac:(lia)) as He.
  remember ((c - p) / 2) as off eqn:Eo.
  remember ((c - p) mod 2) as e eqn:Ee.
  assert (Hob : 0 <= off <= m - 1) by lia.
  destruct (div_mod_of_sum m R off ltac:(lia)) as (Ediv & Emod).
  exists (m * R + off). eexists. split; [nia|].
  split; [apply plaquette_x_cases; lia|].
  cbv zeta. rewrite Ediv, Emod, HRp.
  assert (Hrm : r * m = m * r) by ring.
  assert (HRm : R * m = m * R) by ring.
  clear Er Ec Eo Ee Ediv Emod.
  assert (He' : e = 0 \/ e = 1) by lia.
  destruct (Z.eqb_spec R 0) as [R0|R0].
  - assert (r = 0) by lia. subst R r. cbn in HRp. pick_corner.
  - destruct (Z.eqb_spec R (2 * n + 1)) as [R1|R1].
    + assert (p = 1).
      { rewrite R1 in HRp. rewrite <- HRp.
        symmetry. apply (Z.mod_unique _ 2 n 1); lia. }
      destruct HRr as [HRr|HRr]; [lia|]. subst R.
      destruct He'; pick_corner.
    + destruct HRr as [HRr|HRr]; subst R; clear HRp;
        destruct Hp as [Hp|Hp]; destruct He'; pick_corner.
Qed.

Lemma mapM_range_In {B : Type} (f : Z -> result B) (n k : Z) (ys : list B)
    (y : B) :
  mapM f (range n) = Ok ys -> 0 <= k < n -> f k = Ok y -> In y ys.
Proof.
  intros E Hk Ey.
  destruct (mapM_range_getitem f n k ys E Hk) as (y' & Hget & Ey').
  assert (y' = y) by congruence. subst y'.
  apply getitem_Ok_inv in Hget; [|lia]. eapply nth_error_In; eauto.
Qed.

Lemma built_covers (dh dw idx : Z) (gx gz : list plaquette) :
  Z.odd dh = true -> Z.odd dw = true -> 3 <= dh -> 3 <= dw ->
  mapM (plaquette_x dh dw ((dw - 1) / 2))
       (range (((dh + 1) / 2) * (dw - 1))) = Ok gx ->
  mapM (plaquette_z dw ((dw + 1) / 2))
       (range (((dw + 1) / 2) * (dh - 1))) = Ok gz ->
  0 <= idx < dh * dw ->
  (exists pl, In pl gx /\ In (Some idx) (tl pl)) /\
  (exists pl, In pl gz /\ In (Some idx) (tl pl)).
Proof.
  intros Hh Hw Hh3 Hw3 Egx Egz Hidx.
  destruct (odd_decompose dh Hh) as (n & En).
  destruct (odd_decompose dw Hw) as (m & Em). subst dh dw.
  rewrite half_odd_succ, half_odd_pred in *.
  replace (2 * m + 1 - 1) with (2 * m) in * by lia.
  replace (2 * n + 1 - 1) with (2 * n) in * by lia.
  split.
  - destruct (x_plaquette_covers n m idx ltac:(lia) ltac:(lia) Hidx)
      as (syn & pl & Hsyn & Epl & Hin).
    exists pl. split; [|exact Hin].
    eapply mapM_range_In; eauto.
  - destruct (z_plaquette_covers n m idx ltac:(lia) ltac:(lia) Hidx)
      as (syn & pl & Hsyn & Epl & Hin).
    exists pl. split; [|exact Hin].
    eapply mapM_range_In; eauto.
Qed.

(** X6: for odd [dh], [dw >= 3] every data qubit of the lattice is named by
    at least one X plaquette and by at least one Z plaquette. *)
Theorem every_data_qubit_checked (dh dw idx : Z) :
  Z.odd dh = true -> Z.odd dw = true -> 3 <= dh -> 3 <= dw ->
  0 <= idx < dh * dw ->
  exists L,
    new_lattice (dims dh dw) = Ok L /\
    (exists pl, In pl (mx (geometry L)) /\ In (Some idx) (tl pl)) /\
    (exists pl, In pl (mz (geometry L)) /\ In (Some idx) (tl pl)).
Proof.
  intros Hh Hw Hh3 Hw3 Hidx.
  destruct (new_lattice_built dh dw Hh Hw) as (gx & gz & Egx & Egz & EL).
  eexists. split; [exact EL|]. cbn [geometry mx mz].
  apply (built_covers dh dw idx gx gz); assumption.
Qed.

Lemma every_data_qubit_checked_witness :
  exists L,
    new_lattice (dims 3 5) = Ok L /\
    (exists pl, In pl (mx (geometry L)) /\ In (Some 14) (tl pl)) /\
    (exists pl, In pl (mz (geometry L)) /\ In (Some 14) (tl pl)).
Proof.
  apply (every_data_qubit_checked 3 5 14); [reflexivity | reflexivity | lia..].
Defined.

(** ** Events sit at the centre of their plaquette *)

Ltac q_arith :=
  unfold Qeq, Qminus, Qplus, Qopp, inject_Z; cbn [Qnum Qden]; lia.

Lemma at_grid_intro (dw i q rem : Z) (r c : Q) :
  i = dw * q + rem -> 0 <= rem < dw ->
  (inject_Z q == r)%Q -> (inject_Z rem == c)%Q ->
  at_grid dw (Some i) r c.
Proof.
  intros -> Hrem Hq Hc. destruct (div_mod_of_sum dw q rem Hrem) as (Ed & Em).
  cbn [at_grid]. rewrite Ed, Em. split; assumption.
Qed.

Lemma x_event_centred (n m loc T s : Z) (pl : plaquette) :
  0 <= n -> 1 <= m -> 0 <= loc < (n + 1) * (2 * m) ->
  plaquette_x (2 * n + 1) (2 * m + 1) m loc = Ok pl ->
  Z.land s (Z.shiftl 1 loc) <> 0 ->
  exists row col,
    x_hit m T s loc = Ok [(inject_Z T, row, col)] /\
    centred_at (2 * m + 1) pl row col.
Proof.
  intros Hn Hm Hloc Epl Hbit.
  rewrite plaquette_x_cases in Epl by lia. apply Ok_inj in Epl. subst pl.
  unfold x_hit, floordiv, pymod.
  destruct (Z.eqb_spec (Z.land s (Z.shiftl 1 loc)) 0); [contradiction|].
  destruct (Z.eqb_spec m 0); [lia|]. cbn [bind].
  do 2 eexists. split; [reflexivity|].
  destruct (x_row_offset_bounds n m loc Hn ltac:(lia) Hloc)
    as (_ & Hrow & Hoff & Hsyn).
  pose proof (mod2_cases (loc / m)) as Hp. cbv zeta.
  remember (loc / m) as R eqn:ER. remember (loc mod m) as off eqn:Eoff.
  remember (R mod 2) as p eqn:Ep.
  destruct (Z.eqb_spec R 0) as [R0|R0].
  - assert (p = 0) by (rewrite Ep, R0; reflexivity).
    cbn [centred_at]. split; [|split; [|split]]; try exact I.
    + apply (at_grid_intro _ _ 0 (loc * 2)); [lia | lia | q_arith | q_arith].
    + apply (at_grid_intro _ _ 0 (loc * 2 + 1)); [lia | lia | q_arith | q_arith].
  - destruct (Z.eqb_spec R (2 * n + 1)) as [R1|R1].
    + assert (p = 1).
      { rewrite Ep, R1. symmetry. apply (Z.mod_unique _ 2 n 1); lia. }
      cbn [centred_at]. split; [|split; [|split]]; try exact I.
      * apply (at_grid_intro _ _ (R - 1) (off * 2 + 1));
          [ring | lia | q_arith | q_arith].
      * apply (at_grid_intro _ _ (R - 1) (off * 2 + 2));
          [ring | lia | q_arith | q_arith].
    + cbn [centred_at]. split; [|split; [|split]].
      * apply (at_grid_intro _ _ (R - 1) (off * 2 + p));
          [ring | lia | q_arith | q_arith].
      * apply (at_grid_intro _ _ (R - 1) (off * 2 + p + 1));
          [ring | lia | q_arith | q_arith].
      * apply (at_grid_intro _ _ R (off * 2 + p));
          [ring | lia | q_arith | q_arith].
      * apply (at_grid_intro _ _ R (off * 2 + p + 1));
          [ring | lia | q_arith | q_arith].
Qed.

Lemma z_event_centred (n m loc T s : Z) (pl : plaquette) :
  0 <= n -> 0 <= m -> 0 <= loc < (m + 1) * (2 * n) ->
  plaquette_z (2 * m + 1) (m + 1) loc = Ok pl ->
  Z.land s (Z.shiftl 1 loc) <> 0 ->
  exists row col,
    z_hit (m + 1) T s loc = Ok [(inject_Z T, row, col)] /\
    centred_at (2 * m + 1) pl row col.
Proof.
  intros Hn Hm Hloc Epl Hbit.
  rewrite plaquette_z_cases in Epl by lia. apply Ok_inj in Epl. subst pl.
  unfold z_hit, floordiv, pymod.
  destruct (Z.eqb_spec (Z.land s (Z.shiftl 1 loc)) 0); [contradiction|].
  destruct (Z.eqb_spec (m + 1) 0); [lia|]. cbn [bind].
  do 2 eexists. split; [reflexivity|].
  destruct (z_row_offset_bounds n m loc Hn Hm Hloc) as (Hrow & Hoff & Hsyn).
  pose proof (mod2_cases (loc / (m + 1))) as Hp. cbv zeta.
  remember (loc / (m + 1)) as R eqn:ER.
  remember (loc mod (m + 1)) as off eqn:Eoff.
  remember (R mod 2) as p eqn:Ep.
  destruct (Z.eqb_spec p 0) as [P0|P0];
    destruct (Z.eqb_spec off (m + 1 - 1)) as [O1|O1];
    destruct (Z.eqb_spec p 1) as [P1|P1];
    destruct (Z.eqb_spec off 0) as [O0|O0]; cbn [andb]; try lia;
    cbn [centred_at]; (split; [|split; [|split]]); try exact I;
    first
      [ apply (at_grid_intro _ _ R (off * 2 - p));
          [ring | lia | q_arith | q_arith]
      | apply (at_grid_intro _ _ R (off * 2 - p + 1));
          [ring | lia | q_arith | q_arith]
      | apply (at_grid_intro _ _ (R + 1) (off * 2 - p));
          [ring | lia | q_arith | q_arith]
      | apply (at_grid_intro _ _ (R + 1) (off * 2 - p + 1));
          [ring | lia | q_arith | q_arith] ].
Qed.

(** X7: for odd [dh], [dw >= 3] the event that [parse_readout] emits for a
    set bit [loc] of an axis has the coordinates of the centre of plaquette
    [loc] of that axis: each data qubit of the plaquette, at grid position
    [(idx // dw, idx % dw)], is half a row and half a column away, on the
    side that its name (top/bottom, left/right) says. *)
Theorem event_at_plaquette_centre (dh dw : Z) :
  Z.odd dh = true -> Z.odd dw = true -> 3 <= dh -> 3 <= dw ->
  exists L,
    new_lattice (dims dh dw) = Ok L /\
    (forall loc T s, 0 <= loc < Z.of_nat (length (mx (geometry L))) ->
       Z.land s (Z.shiftl 1 loc) <> 0 ->
       exists pl row col,
         getitem (mx (geometry L)) loc = Ok pl /\
         x_hit (dw / 2) T s loc = Ok [(inject_Z T, row, col)] /\
         centred_at dw pl row col) /\
    (forall loc T s, 0 <= loc < Z.of_nat (length (mz (geometry L))) ->
       Z.land s (Z.shiftl 1 loc) <> 0 ->
       exists pl row col,
         getitem (mz (geometry L)) loc = Ok pl /\
         z_hit (dw / 2 + 1) T s loc = Ok [(inject_Z T, row, col)] /\
         centred_at dw pl row col).
Proof.
  intros Hh Hw Hh3 Hw3.
  destruct (new_lattice_built dh dw Hh Hw) as (gx & gz & Egx & Egz & EL).
  eexists. split; [exact EL|]. cbn [geometry mx mz].
  pose proof (mapM_length _ _ _ Egx) as Hgx. rewrite range_length in Hgx.
  pose proof (mapM_length _ _ _ Egz) as Hgz. rewrite range_length in Hgz.
  destruct (odd_decompose dh Hh) as (n & En).
  destruct (odd_decompose dw Hw) as (m & Em). subst dh dw.
  rewrite half_odd_succ, half_odd_pred, ?half_odd in *.
  replace (2 * m + 1 - 1) with (2 * m) in * by lia.
  replace (2 * n + 1 - 1) with (2 * n) in * by lia.
  split; intros loc T s Hloc Hbit.
  - assert (Hr : 0 <= loc < (n + 1) * (2 * m)) by nia.
    destruct (mapM_range_getitem _ _ loc gx Egx Hr) as (pl & Hget & Epl).
    destruct (x_event_centred n m loc T s pl ltac:(lia) ltac:(lia) Hr Epl Hbit)
      as (row & col & Ehit & Hc).
    exists pl, row, col. auto.
  - assert (Hr : 0 <= loc < (m + 1) * (2 * n)) by nia.
    destruct (mapM_range_getitem _ _ loc gz Egz Hr) as (pl & Hget & Epl).
    destruct (z_event_centred n m loc T s pl ltac:(lia) ltac:(lia) Hr Epl Hbit)
      as (row & col & Ehit & Hc).
    exists pl, row, col. auto.
Qed.

Lemma event_at_plaquette_centre_witness :
  exists L,
    new_lattice (dims 3 5) = Ok L /\
    (forall loc T s, 0 <= loc < Z.of_nat (length (mx (geometry L))) ->
       Z.land s (Z.shiftl 1 loc) <> 0 ->
       exists pl row col,
         getitem (mx (geometry L)) loc = Ok pl /\
         x_hit (5 / 2) T s loc = Ok [(inject_Z T, row, col)] /\
         centred_at 5 pl row col) /\
    (forall loc T s, 0 <= loc < Z.of_nat (length (mz (geometry L))) ->
       Z.land s (Z.shiftl 1 loc) <> 0 ->
       exists pl row col,
         getitem (mz (geometry L)) loc = Ok pl /\
         z_hit (5 / 2 + 1) T s loc = Ok [(inject_Z T, row, col)] /\
         centred_at 5 pl row col).
Proof.
  apply (event_at_plaquette_centre 3 5); [reflexivity | reflexivity | lia | lia].
Defined.

(** ** Lattice readouts of the wrong shape *)

(** A loop raises [E] when one step raises [E] and no step raises anything
    else. *)
Lemma mapM_raises {A B : Type} (f : A -> result B) (l : list A) (E : exn) :
  (forall x, In x l -> (exists y, f x = Ok y) \/ f x = Raise E) ->
  (exists x, In x l /\ f x = Raise E) ->
  mapM f l = Raise E.
Proof.
  induction l as [|x l IH]; intros Hall (x0 & Hin & Ex0); [contradiction|].
  cbn [mapM]. destruct (Hall x ltac:(cbn; auto)) as [(y & Ey)|Ey];
    rewrite Ey; [|reflexivity].
  cbn [bind]. rewrite IH; [reflexivity | intros; apply Hall; cbn; auto |].
  destruct Hin as [<-|Hin]; [congruence | eauto].
Qed.

Lemma digit_of_char_bound (c : ascii) (v : Z) :
  digit_of_char c = Some v -> 0 <= v < 10.
Proof.
  unfold digit_of_char.
  destruct (Z.leb_spec 48 (Z.of_nat (nat_of_ascii c)));
    destruct (Z.leb_spec (Z.of_nat (nat_of_ascii c)) 57); cbn;
    intros E; try discriminate. apply Some_inj in E. lia.
Qed.

Lemma int_of_char (c : ascii) :
  int_of_str [c] = match digit_of_char c with
                   | Some v => Ok v
                   | None => Raise ValueError
                   end.
Proof.
  unfold int_of_str, int_base, int_digits.
  destruct (digit_of_char c) as [v|] eqn:E; [|reflexivity].
  apply digit_of_char_bound in E.
  destruct (Z.ltb_spec v 10); [reflexivity | lia].
Qed.

Lemma readout_values_non_digit (final : str) :
  forallb is_digit final = false -> readout_values final = Raise ValueError.
Proof.
  intros Hd. unfold readout_values. rewrite (mapM_raises _ _ ValueError).
  - reflexivity.
  - intros c _. rewrite int_of_char. destruct (digit_of_char c); eauto.
  - assert (Hex : existsb (fun c => negb (is_digit c)) final = true).
    { induction final as [|c final IH]; [discriminate|].
      cbn in *. destruct (is_digit c); cbn in *; auto. }
    apply existsb_exists in Hex as (c & Hc & Hn). exists c. split; [exact Hc|].
    rewrite int_of_char. unfold is_digit in Hn.
    destruct (digit_of_char c); [discriminate | reflexivity].
Qed.

(** X8: a lattice readout that holds a character other than a decimal
    digit makes both variants raise [ValueError], on any lattice object and
    before its geometry or parameters are read. *)
Theorem readout_non_digit_raises (self : Lattice) (final prev : str) :
  forallb is_digit final = false ->
  extract_final_stabilizer_and_logical_readout_x self final prev
    = Raise ValueError /\
  extract_final_stabilizer_and_logical_readout_z self final prev
    = Raise ValueError.
Proof.
  intros Hd.
  unfold extract_final_stabilizer_and_logical_readout_x,
    extract_final_stabilizer_and_logical_readout_z.
  rewrite readout_values_non_digit by exact Hd. split; reflexivity.
Qed.

Lemma readout_non_digit_raises_witness :
  extract_final_stabilizer_and_logical_readout_x
    lattice_d3 (lit "0000x0000") (lit "00000000") = Raise ValueError /\
  extract_final_stabilizer_and_logical_readout_z
    lattice_d3 (lit "0000x0000") (lit "00000000") = Raise ValueError.
Proof.
  apply (readout_non_digit_raises lattice_d3 (lit "0000x0000") (lit "00000000")).
  reflexivity.
Defined.

Lemma readout_values_digits (final : str) :
  forallb is_digit final = true ->
  exists vals, readout_values final = Ok vals /\ length vals = length final.
Proof.
  intros Hd. unfold readout_values.
  destruct (mapM_total (fun q => int_of_str [q]) final) as (vals & E).
  - intros c Hc. rewrite forallb_forall in Hd. specialize (Hd c Hc).
    rewrite int_of_char. unfold is_digit in Hd.
    destruct (digit_of_char c); [eauto | discriminate].
  - rewrite E. cbn [bind]. eexists. split; [reflexivity|].
    rewrite length_rev. eapply mapM_length; eauto.
Qed.

Lemma getitem_outcome {A : Type} (l : list A) (i : Z) :
  (exists x, getitem l i = Ok x) \/ getitem l i = Raise IndexError.
Proof.
  unfold getitem. destruct (_ || _); [auto|].
  destruct (nth_error l _); eauto.
Qed.

Lemma getitem_beyond {A : Type} (l : list A) (i : Z) :
  Z.of_nat (length l) <= i -> getitem l i = Raise IndexError.
Proof.
  intros Hi. unfold getitem.
  destruct (Z.ltb_spec i 0); [lia|].
  destruct (Z.ltb_spec i 0); [lia|].
  destruct (Z.leb_spec (Z.of_nat (length l)) i); [reflexivity | lia].
Qed.

Lemma stabilizer_val_outcome (vals : list Z) (pl : plaquette) :
  (exists v, stabilizer_val vals pl = Ok v) \/
  stabilizer_val vals pl = Raise IndexError.
Proof.
  unfold stabilizer_val.
  destruct (mapM _ (slice_from 1 pl)) as [xs|e] eqn:E; [left; cbn; eauto|].
  right. cbn.
  assert (Hall : forall l, mapM (fun idx : option Z =>
                    match idx with Some i => getitem vals i | None => Ok 0 end)
                    l = Raise e -> e = IndexError).
  { induction l as [|o l IH]; cbn; [discriminate|].
    destruct o as [i|]; cbn.
    - destruct (getitem_outcome vals i) as [(x & ->)| ->]; cbn; [|congruence].
      destruct (mapM _ l); cbn; [discriminate|]. intros E'. apply IH. congruence.
    - destruct (mapM _ l); cbn; [discriminate|]. intros E'. apply IH. congruence. }
  rewrite (Hall _ E). reflexivity.
Qed.

Lemma stabilizer_val_beyond (vals : list Z) (pl : plaquette) (idx : Z) :
  In (Some idx) (tl pl) -> Z.of_nat (length vals) <= idx ->
  stabilizer_val vals pl = Raise IndexError.
Proof.
  intros Hin Hidx. unfold stabilizer_val. rewrite slice_from_1_tl.
  rewrite (mapM_raises _ _ IndexError); [reflexivity | |].
  - intros [i|] _; [|eauto]. apply getitem_outcome.
  - exists (Some idx). split; [exact Hin|]. apply getitem_beyond. exact Hidx.
Qed.

Lemma stabilizer_loop_beyond (vals : list Z) (pls : list plaquette) :
  (exists pl, In pl pls /\ stabilizer_val vals pl = Raise IndexError) ->
  forall acc, stabilizer_loop vals pls acc = Raise IndexError.
Proof.
  induction pls as [|pl pls IH]; intros (pl0 & Hin & E) acc; [contradiction|].
  cbn [stabilizer_loop].
  destruct (stabilizer_val_outcome vals pl) as [(v & Ev)|Ev]; rewrite Ev;
    [|reflexivity].
  cbn [bind]. apply IH. destruct Hin as [<-|Hin]; [congruence | eauto].
Qed.

(** X9: on a lattice of odd dimensions at least 3, a lattice readout of
    digits that is shorter than [num_data] makes both variants raise
    [IndexError]: the last data qubit is named by a plaquette of each axis. *)
Theorem short_readout_raises (dh dw : Z) (final prev : str) :
  Z.odd dh = true -> Z.odd dw = true -> 3 <= dh -> 3 <= dw ->
  forallb is_digit final = true -> Z.of_nat (length final) < dh * dw ->
  exists L,
    new_lattice (dims dh dw) = Ok L /\
    extract_final_stabilizer_and_logical_readout_x L final prev
      = Raise IndexError /\
    extract_final_stabilizer_and_logical_readout_z L final prev
      = Raise IndexError.
Proof.
  intros Hh Hw Hh3 Hw3 Hd Hlen.
  destruct (new_lattice_built dh dw Hh Hw) as (gx & gz & Egx & Egz & EL).
  destruct (built_covers dh dw (dh * dw - 1) gx gz Hh Hw Hh3 Hw3 Egx Egz
              ltac:(nia)) as ((plx & Hplx & Hx) & (plz & Hplz & Hz)).
  eexists. split; [exact EL|]. cbn [geometry mx mz].
  destruct (readout_values_digits final Hd) as (vals & Evals & Hvals).
  unfold extract_final_stabilizer_and_logical_readout_x,
    extract_final_stabilizer_and_logical_readout_z.
  rewrite Evals. cbn [bind]. split.
  - rewrite stabilizer_loop_beyond; [reflexivity|].
    exists plx. split; [exact Hplx|].
    apply (stabilizer_val_beyond vals plx (dh * dw - 1) Hx). lia.
  - rewrite stabilizer_loop_beyond; [reflexivity|].
    exists plz. split; [exact Hplz|].
    apply (stabilizer_val_beyond vals plz (dh * dw - 1) Hz). lia.
Qed.

Lemma short_readout_raises_witness :
  exists L,
    new_lattice (dims 3 3) = Ok L /\
    extract_final_stabilizer_and_logical_readout_x
      L (lit "00000000") (lit "00000000") = Raise IndexError /\
    extract_final_stabilizer_and_logical_readout_z
      L (lit "00000000") (lit "00000000") = Raise IndexError.
Proof.
  apply (short_readout_raises 3 3 (lit "00000000") (lit "00000000"));
    [reflexivity | reflexivity | lia | lia | reflexivity | vm_compute; reflexivity].
Defined.











Lemma slice_from_length_any {A : Type} (n : Z) (l : list A) :
  0 <= n ->
  Z.of_nat (length (slice_from n l)) = Z.max 0 (Z.of_nat (length l) - n).
Proof.
  intros Hn. unfold slice_from, slice_bound.
  destruct (Z.ltb_spec n 0); [lia|]. rewrite length_skipn. lia.
Qed.

Lemma slice_to_length_any {A : Type} (n : Z) (l : list A) :
  0 <= n ->
  Z.of_nat (length (slice_to n l)) = Z.min n (Z.of_nat (length l)).
Proof.
  intros Hn. unfold slice_to, slice_bound.
  destruct (Z.ltb_spec n 0); [lia|]. rewrite length_firstn. lia.
Qed.

(** X11: the width of the previous syndrome string is never checked.  On a
    lattice of odd dimensions at least 3 and a binary readout of the whole
    lattice, both variants return for every previous string; the X variant
    returns [num_syn_X] parity characters followed by what the previous
    string holds after its first [num_syn_X] characters (nothing, when it is
    shorter), the Z variant at most [num_syn_X] characters of the previous
    string followed by [num_syn_Z] parity characters. *)
Theorem previous_width_not_checked (dh dw : Z) (final prev : str) :
  Z.odd dh = true -> Z.odd dw = true -> 3 <= dh -> 3 <= dw ->
  binary final = true -> Z.of_nat (length final) = dh * dw ->
  exists L,
    new_lattice (dims dh dw) = Ok L /\
    (exists lr s,
       extract_final_stabilizer_and_logical_readout_x L final prev = Ok (lr, s) /\
       Z.of_nat (length s)
       = num_syn_X dh dw
         + Z.max 0 (Z.of_nat (length prev) - num_syn_X dh dw)) /\
    (exists lr s,
       extract_final_stabilizer_and_logical_readout_z L final prev = Ok (lr, s) /\
       Z.of_nat (length s)
       = Z.min (num_syn_X dh dw) (Z.of_nat (length prev)) + num_syn_Z dh dw).
Proof.
  intros Hh Hw Hh3 Hw3 Hbin Hlen.
  destruct (new_lattice_built dh dw Hh Hw) as (gx & gz & Egx & Egz & EL).
  assert (Hnx : 0 <= num_syn_X dh dw).
  { apply Z.mul_nonneg_nonneg; [apply Z.div_pos|]; lia. }
  assert (Hnz : 0 <= num_syn_Z dh dw).
  { apply Z.mul_nonneg_nonneg; [apply Z.div_pos|]; lia. }
  pose proof (mapM_length _ _ _ Egx) as Hgx. rewrite range_length in Hgx.
  pose proof (mapM_length _ _ _ Egz) as Hgz. rewrite range_length in Hgz.
  fold (num_syn_X dh dw) in Hgx. fold (num_syn_Z dh dw) in Hgz.
  pose proof (binary_Forall final Hbin) as Hbits.
  eexists. split; [exact EL|]. split.
  - do 2 eexists. split.
    { apply (extract_x_built dh dw Hh Hw); try lia; assumption. }
    fold (num_syn_X dh dw).
    rewrite length_app, Nat2Z.inj_add, parity_chars_length, Hgx,
      slice_from_length_any by exact Hnx. lia.
  - do 2 eexists. split.
    { apply (extract_z_built dh dw Hh Hw); try lia; assumption. }
    fold (num_syn_X dh dw).
    rewrite length_app, Nat2Z.inj_add, parity_chars_length, Hgz,
      slice_to_length_any by exact Hnx. lia.
Qed.

Lemma previous_width_not_checked_witness :
  exists L,
    new_lattice (dims 3 3) = Ok L /\
    (exists lr s,
       extract_final_stabilizer_and_logical_readout_x
         L (lit "000001001") (lit "10") = Ok (lr, s) /\
       Z.of_nat (length s)
       = num_syn_X 3 3 + Z.max 0 (Z.of_nat (length (lit "10")) - num_syn_X 3 3)) /\
    (exists lr s,
       extract_final_stabilizer_and_logical_readout_z
         L (lit "000001001") (lit "10") = Ok (lr, s) /\
       Z.of_nat (length s)
       = Z.min (num_syn_X 3 3) (Z.of_nat (length (lit "10"))) + num_syn_Z 3 3).
Proof.
  apply (previous_width_not_checked 3 3 (lit "000001001") (lit "10"));
    [reflexivity | reflexivity | lia | lia | reflexivity | reflexivity].
Defined.

(** ** A flipped data qubit and the plaquettes that name it *)

Lemma fold_add_acc (l : list Z) (a : Z) :
  fold_left Z.add l a = a + fold_left Z.add l 0.
Proof.
  revert a. induction l as [|x l IH]; intros a; cbn; [lia|].
  rewrite (IH (a + x)), (IH x). lia.
Qed.

Lemma sum_cons (x : Z) (l : list Z) : sum (x :: l) = x + sum l.
Proof. unfold sum. cbn. apply fold_add_acc. Qed.

Lemma add_bit_mod2 (b s : Z) :
  (b = 0 \/ b = 1) -> (b + s) mod 2 = Z.lxor b (s mod 2).
Proof.
  intros Hb. rewrite <- Z.add_mod_idemp_r by lia.
  apply add_mod2_lxor; [exact Hb | apply mod2_cases].
Qed.

(** The parity of a plaquette is the XOR of the bits of its data qubits. *)
Lemma plaquette_parity_xor (bits : list Z) (pl : plaquette) :
  (forall i, nth i bits 0 = 0 \/ nth i bits 0 = 1) ->
  plaquette_parity bits pl = xor_bits bits (present pl).
Proof.
  intros Hbits. unfold plaquette_parity, present.
  induction (tl pl) as [|o l IH]; [reflexivity|].
  cbn [map flat_map]. rewrite sum_cons. destruct o as [i|].
  - cbn [app xor_bits fold_right]. rewrite add_bit_mod2 by apply Hbits.
    rewrite IH. reflexivity.
  - cbn [app]. rewrite Z.add_0_l. exact IH.
Qed.

Lemma present_In (pl : plaquette) (idx : Z) :
  In idx (present pl) <-> In (Some idx) (tl pl).
Proof.
  unfold present. rewrite in_flat_map. split.
  - intros ([i|] & Hin & Hi); cbn in Hi; [|contradiction].
    destruct Hi as [<-|[]]. exact Hin.
  - intros Hin. exists (Some idx). split; [exact Hin | cbn; auto].
Qed.

Lemma names_In (pl : plaquette) (idx : Z) :
  names pl idx = true <-> In (Some idx) (tl pl).
Proof.
  unfold names. rewrite existsb_exists, <- present_In. split.
  - intros (i & Hi & E). apply Z.eqb_eq in E. subst i. exact Hi.
  - intros Hi. exists idx. split; [exact Hi | apply Z.eqb_refl].
Qed.

Ltac nodup_by_lia :=
  repeat (constructor; [cbn [In]; lia|]); constructor.

Lemma plaquette_x_NoDup (dh dw per syn : Z) (pl : plaquette) :
  per <> 0 -> 2 <= dw -> plaquette_x dh dw per syn = Ok pl ->
  NoDup (present pl).
Proof.
  intros Hper Hw E. rewrite plaquette_x_cases in E by exact Hper.
  apply Ok_inj in E. subst pl. cbv zeta.
  destruct (_ =? 0); [|destruct (_ =? dh)]; cbn [present tl flat_map app];
    nodup_by_lia.
Qed.

Lemma plaquette_z_NoDup (dw per syn : Z) (pl : plaquette) :
  per <> 0 -> 2 <= dw -> plaquette_z dw per syn = Ok pl ->
  NoDup (present pl).
Proof.
  intros Hper Hw E. rewrite plaquette_z_cases in E by exact Hper.
  apply Ok_inj in E. subst pl. cbv zeta.
  destruct (_ && _); [|destruct (_ && _)]; cbn [present tl flat_map app];
    nodup_by_lia.
Qed.

(** Flipping qubit [idx] toggles the parity of a plaquette that names it
    and leaves the parity of any other plaquette. *)
Lemma plaquette_parity_flip (final : str) (pl : plaquette) (idx : Z) :
  Forall is_bit final -> 0 <= idx < Z.of_nat (length final) ->
  NoDup (present pl) -> (forall i, In i (present pl) -> 0 <= i) ->
  plaquette_parity (data_bits (flip_qubit idx final)) pl
  = if names pl idx then 1 - plaquette_parity (data_bits final) pl
    else plaquette_parity (data_bits final) pl.
Proof.
  intros Hbits Hidx Hnd Hpos.
  rewrite !plaquette_parity_xor
    by (intros; apply data_bits_nth).
  rewrite data_bits_flip by exact Hbits.
  destruct (names pl idx) eqn:En.
  - apply names_In, present_In in En.
    rewrite xor_bits_flip_in;
      [| apply data_bits_nth | rewrite data_bits_length; exact Hidx
       | exact Hpos | exact Hnd | exact En].
    symmetry. apply flip_bit_lxor. apply xor_bits_bit. apply data_bits_nth.
  - apply xor_bits_flip_out; [lia | exact Hpos |].
    intros Hin. apply present_In, names_In in Hin. congruence.
Qed.

Section FlippedQubit.

Variables dh dw : Z.
Hypothesis Hh : Z.odd dh = true.
Hypothesis Hw : Z.odd dw = true.
Hypothesis Hh3 : 3 <= dh.
Hypothesis Hw3 : 3 <= dw.

Variables gx gz : list plaquette.
Hypothesis Egx :
  mapM (plaquette_x dh dw ((dw - 1) / 2))
       (range (((dh + 1) / 2) * (dw - 1))) = Ok gx.
Hypothesis Egz :
  mapM (plaquette_z dw ((dw + 1) / 2))
       (range (((dw + 1) / 2) * (dh - 1))) = Ok gz.

Variable final : str.
Hypothesis Hbits : Forall is_bit final.
Hypothesis Hlen : Z.of_nat (length final) = dh * dw.

Variable idx : Z.
Hypothesis Hidx : 0 <= idx < dh * dw.

Lemma built_plaquette_flip (pl : plaquette) :
  In pl gx \/ In pl gz ->
  (forall i, In (Some i) (slice_from 1 pl) -> 0 <= i < dh * dw) /\
  plaquette_parity (data_bits (flip_qubit idx final)) pl
  = if names pl idx then 1 - plaquette_parity (data_bits final) pl
    else plaquette_parity (data_bits final) pl.
Proof.
  intros Hpl.
  assert (Hpre : (forall i, In (Some i) (slice_from 1 pl) -> 0 <= i < dh * dw)
                 /\ NoDup (present pl)).
  { destruct Hpl as [Hpl|Hpl].
    - destruct (mapM_In _ _ _ _ Egx Hpl) as (syn & Hsyn & Epl). split.
      + apply (plaquette_x_in_range dh dw syn pl); auto; lia.
      + apply (plaquette_x_NoDup dh dw ((dw - 1) / 2) syn pl);
          [|lia|exact Epl].
        eapply per_row_x_nonzero; eauto.
    - destruct (mapM_In _ _ _ _ Egz Hpl) as (syn & Hsyn & Epl). split.
      + apply (plaquette_z_in_range dh dw syn pl); auto; lia.
      + apply (plaquette_z_NoDup dw ((dw + 1) / 2) syn pl);
          [|lia|exact Epl].
        eapply per_row_z_nonzero; eauto. }
  destruct Hpre as (Hrange & Hnd). split; [exact Hrange|].
  apply plaquette_parity_flip; [exact Hbits | lia | exact Hnd |].
  intros i Hi. apply present_In in Hi. rewrite <- slice_from_1_tl in Hi.
  apply Hrange in Hi. lia.
Qed.

(** The parity characters of an axis change when a qubit is flipped. *)
Lemma parity_chars_flip (pls : list plaquette) :
  (forall pl, In pl pls -> In pl gx \/ In pl gz) ->
  (exists pl, In pl pls /\ In (Some idx) (tl pl)) ->
  map char_of_bit (rev (map (plaquette_parity (data_bits final)) pls))
  <> map char_of_bit
       (rev (map (plaquette_parity (data_bits (flip_qubit idx final))) pls)).
Proof.
  intros Hsub (pl & Hpl & Hin) E.
  rewrite <- !map_rev, !map_map in E.
  pose proof (proj1 map_ext_in_iff E pl (proj1 (in_rev pls pl) Hpl)) as Epl.
  cbv beta in Epl.
  destruct (built_plaquette_flip pl (Hsub pl Hpl)) as (_ & Eflip).
  rewrite Eflip in Epl. apply names_In in Hin. rewrite Hin in Epl.
  unfold plaquette_parity in Epl.
  destruct (mod2_cases (sum (map (fun o : option Z =>
              match o with Some i => nth (Z.to_nat i) (data_bits final) 0
                         | None => 0 end) (tl pl)))) as [E0|E0];
    rewrite E0 in Epl; discriminate Epl.
Qed.

End FlippedQubit.

(** X12: on a lattice of odd dimensions at least 3 and a binary readout of
    the whole lattice, flipping one data qubit toggles the computed parity
    of exactly the plaquettes that name this qubit: every other plaquette,
    of either axis, keeps its parity. *)
Theorem flip_toggles_named_plaquettes (dh dw idx : Z) (final : str) :
  Z.odd dh = true -> Z.odd dw = true -> 3 <= dh -> 3 <= dw ->
  binary final = true -> Z.of_nat (length final) = dh * dw ->
  0 <= idx < dh * dw ->
  exists L vals vals',
    new_lattice (dims dh dw) = Ok L /\
    readout_values final = Ok vals /\
    readout_values (flip_qubit idx final) = Ok vals' /\
    forall pl, In pl (mx (geometry L)) \/ In pl (mz (geometry L)) ->
      exists v,
        stabilizer_val vals pl = Ok v /\
        stabilizer_val vals' pl = Ok (if names pl idx then 1 - v else v).
Proof.
  intros Hh Hw Hh3 Hw3 Hbin Hlen Hidx.
  destruct (new_lattice_built dh dw Hh Hw) as (gx & gz & Egx & Egz & EL).
  pose proof (binary_Forall final Hbin) as Hbits.
  exists {| params := generated dh dw; geometry := {| mx := gx; mz := gz |} |},
    (data_bits final), (data_bits (flip_qubit idx final)).
  split; [exact EL|].
  split; [apply readout_values_binary; exact Hbits|].
  split; [apply readout_values_binary, flip_qubit_bits; exact Hbits|].
  cbn [geometry mx mz]. intros pl Hpl.
  destruct (built_plaquette_flip dh dw Hh Hw Hh3 Hw3 gx gz Egx Egz final Hbits
              Hlen idx Hidx pl Hpl) as (Hrange & Eflip).
  exists (plaquette_parity (data_bits final) pl). split.
  - apply stabilizer_val_parity. intros i Hi.
    rewrite data_bits_length, Hlen. auto.
  - rewrite <- Eflip. apply stabilizer_val_parity. intros i Hi.
    rewrite data_bits_length, flip_qubit_length, Hlen. auto.
Qed.

Lemma flip_toggles_named_plaquettes_witness :
  exists L vals vals',
    new_lattice (dims 3 3) = Ok L /\
    readout_values (lit "000001001") = Ok vals /\
    readout_values (flip_qubit 4 (lit "000001001")) = Ok vals' /\
    forall pl, In pl (mx (geometry L)) \/ In pl (mz (geometry L)) ->
      exists v,
        stabilizer_val vals pl = Ok v /\
        stabilizer_val vals' pl = Ok (if names pl 4 then 1 - v else v).
Proof.
  apply (flip_toggles_named_plaquettes 3 3 4 (lit "000001001"));
    [reflexivity | reflexivity | lia | lia | reflexivity | reflexivity | lia].
Defined.

(** X13: on a lattice of odd dimensions at least 3, flipping any single data
    qubit of a binary lattice readout changes the stabilizer string that the
    X variant returns, and the one that the Z variant returns: no single
    flip goes unseen on either axis. *)
Theorem single_flip_changes_stabilizers (dh dw idx : Z) (final prev : str) :
  Z.odd dh = true -> Z.odd dw = true -> 3 <= dh -> 3 <= dw ->
  binary final = true -> Z.of_nat (length final) = dh * dw ->
  0 <= idx < dh * dw ->
  exists L,
    new_lattice (dims dh dw) = Ok L /\
    (exists lr s lr' s',
       extract_final_stabilizer_and_logical_readout_x L final prev
         = Ok (lr, s) /\
       extract_final_stabilizer_and_logical_readout_x
         L (flip_qubit idx final) prev = Ok (lr', s') /\
       s <> s') /\
    (exists lr s lr' s',
       extract_final_stabilizer_and_logical_readout_z L final prev
         = Ok (lr, s) /\
       extract_final_stabilizer_and_logical_readout_z
         L (flip_qubit idx final) prev = Ok (lr', s') /\
       s <> s').
Proof.
  intros Hh Hw Hh3 Hw3 Hbin Hlen Hidx.
  destruct (new_lattice_built dh dw Hh Hw) as (gx & gz & Egx & Egz & EL).
  pose proof (binary_Forall final Hbin) as Hbits.
  pose proof (flip_qubit_bits idx final Hbits) as Hbits'.
  assert (Hlen' : Z.of_nat (length (flip_qubit idx final)) = dh * dw)
    by (rewrite flip_qubit_length; exact Hlen).
  destruct (built_covers dh dw idx gx gz Hh Hw Hh3 Hw3 Egx Egz Hidx)
    as (Hcx & Hcz).
  eexists. split; [exact EL|]. split.
  - do 4 eexists.
    split; [apply (extract_x_built dh dw Hh Hw); try lia; assumption|].
    split; [apply (extract_x_built dh dw Hh Hw); try lia; assumption|].
    intros E. apply app_inv_tail in E. revert E.
    apply (parity_chars_flip dh dw Hh Hw Hh3 Hw3 gx gz Egx Egz final Hbits
             Hlen idx Hidx gx); auto.
  - do 4 eexists.
    split; [apply (extract_z_built dh dw Hh Hw); try lia; assumption|].
    split; [apply (extract_z_built dh dw Hh Hw); try lia; assumption|].
    intros E. apply app_inv_head in E. revert E.
    apply (parity_chars_flip dh dw Hh Hw Hh3 Hw3 gx gz Egx Egz final Hbits
             Hlen idx Hidx gz); auto.
Qed.

Lemma single_flip_changes_stabilizers_witness :
  exists L,
    new_lattice (dims 3 3) = Ok L /\
    (exists lr s lr' s',
       extract_final_stabilizer_and_logical_readout_x
         L (lit "000001001") (lit "10100101") = Ok (lr, s) /\
       extract_final_stabilizer_and_logical_readout_x
         L (flip_qubit 8 (lit "000001001")) (lit "10100101") = Ok (lr', s') /\
       s <> s') /\
    (exists lr s lr' s',
       extract_final_stabilizer_and_logical_readout_z
         L (lit "000001001") (lit "10100101") = Ok (lr, s) /\
       extract_final_stabilizer_and_logical_readout_z
         L (flip_qubit 8 (lit "000001001")) (lit "10100101") = Ok (lr', s') /\
       s <> s').
Proof.
  apply (single_flip_changes_stabilizers 3 3 8 (lit "000001001") (lit "10100101"));
    [reflexivity | reflexivity | lia | lia | reflexivity | reflexivity | lia].
Defined.

(** ** Parsing: short histories and malformed heads *)

Lemma new_lattice_params (dh dw : Z) (L : Lattice) :
  new_lattice (dims dh dw) = Ok L ->
  exists g, L = {| params := generated dh dw; geometry := g |}.
Proof.
  intros EL. destruct (new_lattice_inv dh dw L EL) as (Hp & _).
  destruct L as [p g]. cbn in Hp. subst p. eauto.
Qed.

(** X14: with fewer than two syndrome rounds there is nothing to compare:
    on any built lattice (odd dimensions of either sign) the parse returns
    the logical readout and no event. *)
Theorem fewer_than_two_rounds (dh dw : Z) (L : Lattice) (readout_string : str)
    (readout_type : option str) (logical_readout : Z) (chunks : list str) :
  new_lattice (dims dh dw) = Ok L ->
  head_chunks L (split readout_string) readout_type
    = Ok (logical_readout, chunks) ->
  (length chunks <= 1)%nat -> forallb syndrome_chunk chunks = true ->
  fst (parse_readout L readout_string readout_type)
  = Ok (logical_readout, {| hits_X := []; hits_Z := [] |}).
Proof.
  intros EL Ehead Hlen Hc.
  destruct (new_lattice_params dh dw L EL) as (g & ->).
  unfold parse_readout, parse_readout_result. cbn [fst].
  rewrite Ehead. cbn [bind]. unfold parse_chunks.
  destruct (int_syndromes_total chunks Hc) as (ints & -> & Hints).
  cbn [bind params generated num_syn d]. unfold SYNX, SYNZ, W.
  rewrite !getitem_pair_0, !getitem_pair_1. cbn [bind].
  assert (Ex : xor_syndromes ints = []).
  { apply length_zero_iff_nil. rewrite xor_syndromes_length. lia. }
  rewrite Ex. unfold x_syndromes, z_syndromes. cbn [mapM bind].
  destruct (repeat_seq (lit "1") _); reflexivity.
Qed.

Lemma fewer_than_two_rounds_witness :
  fst (parse_readout lattice_d3 (lit "1 10100101") None)
  = Ok (1, {| hits_X := []; hits_Z := [] |}).
Proof.
  apply (fewer_than_two_rounds 3 3 lattice_d3 (lit "1 10100101") None 1
           [lit "10100101"]); [reflexivity | reflexivity | cbn; lia | reflexivity].
Defined.

(** X15: a readout string whose first chunk is empty (an empty string, or
    one that begins with a space), or is a single character other than a
    decimal digit, raises [ValueError], on any lattice object and for any
    axis. *)
Theorem malformed_head_raises (self : Lattice) (readout_string : str)
    (readout_type : option str) :
  match hd [] (split readout_string) with
  | [] => True
  | [c] => is_digit c = false
  | _ => False
  end ->
  fst (parse_readout self readout_string readout_type) = Raise ValueError.
Proof.
  intros Hc0. unfold parse_readout, parse_readout_result, head_chunks.
  cbn [fst]. destruct (split_cons readout_string) as (c0 & rest & E).
  rewrite E in *. cbn [hd] in Hc0. rewrite getitem_head. cbn [bind].
  destruct c0 as [|c [|c' c0]]; [reflexivity | | contradiction].
  cbn [length Z.of_nat Z.ltb Z.compare Pos.compare Pos.of_succ_nat].
  change (1 <? Z.of_nat 1) with false. cbv iota.
  rewrite int_of_char. unfold is_digit in Hc0.
  destruct (digit_of_char c); [discriminate | reflexivity].
Qed.

Lemma malformed_head_raises_witness :
  fst (parse_readout lattice_d3 (lit " 10100101 10100101") (Some (lit "X")))
  = Raise ValueError.
Proof.
  apply (malformed_head_raises lattice_d3 (lit " 10100101 10100101")
           (Some (lit "X"))).
  exact I.
Defined.

(** ** The change values *)

Lemma xor_syndromes_single (a : Z) : xor_syndromes [a] = [].
Proof. reflexivity. Qed.

(** X16: the change values see differences only.  XOR-ing every round with
    one same value leaves them as they are, and the XOR of all of them is
    the XOR of the first round and the last one. *)
Theorem change_values_are_differences (ints : list Z) (c : Z) :
  xor_syndromes (map (Z.lxor c) ints) = xor_syndromes ints /\
  fold_right Z.lxor 0 (xor_syndromes ints) = Z.lxor (hd 0 ints) (last ints 0).
Proof.
  split.
  - induction ints as [|a [|b l] IH]; [reflexivity | reflexivity |].
    change (map (Z.lxor c) (a :: b :: l))
      with (Z.lxor c a :: Z.lxor c b :: map (Z.lxor c) l).
    rewrite !xor_syndromes_cons. f_equal.
    + rewrite (Z.lxor_comm c a), Z.lxor_assoc, <- (Z.lxor_assoc c c b),
        Z.lxor_nilpotent, Z.lxor_0_l. reflexivity.
    + exact IH.
  - induction ints as [|a [|b l] IH]; [reflexivity | |].
    + cbn. symmetry. apply Z.lxor_nilpotent.
    + rewrite xor_syndromes_cons. cbn [fold_right]. rewrite IH.
      cbn [hd]. change (last (a :: b :: l) 0) with (last (b :: l) 0).
      rewrite Z.lxor_assoc, <- (Z.lxor_assoc b b), Z.lxor_nilpotent,
        Z.lxor_0_l. reflexivity.
Qed.

(** ** Where and when the events are *)

Lemma hits_In_loc (hit : Z -> Z -> Z -> result (list TQubit)) (n : Z)
    (syndromes : list Z) (evs : list TQubit) (e : TQubit) :
  hits hit n syndromes = Ok evs -> In e evs ->
  exists i s loc l,
    nth_error syndromes i = Some s /\ 0 <= loc < n /\
    hit (Z.of_nat i) s loc = Ok l /\ In e l.
Proof.
  intros E He. unfold hits in E.
  destruct (flat_mapM_In _ _ _ _ E He) as ((T & s) & row & HT & Erow & Hrow).
  destruct (flat_mapM_In _ _ _ _ Erow Hrow) as (loc & l & Hloc & El & Hl).
  apply enumerate_In in HT as (i & -> & Hi). apply In_range in Hloc.
  exists i, s, loc, l. auto.
Qed.

Ltac q_le := unfold Qle, Qminus, Qplus, Qopp, inject_Z; cbn [Qnum Qden]; lia.

Lemma x_hit_bounds (n m T s loc : Z) (l : list TQubit) (e : TQubit) :
  0 <= n -> 1 <= m -> 0 <= loc < (n + 1) * (2 * m) ->
  x_hit m T s loc = Ok l -> In e l ->
  time e = inject_Z T /\
  (- (1 # 2) <= row_of e <= inject_Z (2 * n + 1) - (1 # 2))%Q /\
  ((1 # 2) <= col_of e <= inject_Z (2 * m + 1) - (3 # 2))%Q.
Proof.
  intros Hn Hm Hloc E He. unfold x_hit, floordiv, pymod in E.
  destruct (Z.land s (Z.shiftl 1 loc) =? 0).
  { apply Ok_inj in E. subst l. contradiction. }
  destruct (Z.eqb_spec m 0); [lia|]. cbn [bind] in E.
  apply Ok_inj in E. subst l. destruct He as [<-|[]].
  destruct (x_row_offset_bounds n m loc Hn ltac:(lia) Hloc)
    as (_ & Hrow & Hoff & _).
  pose proof (mod2_cases (loc / m)) as Hp.
  unfold time, row_of, col_of. cbn [fst snd].
  split; [reflexivity|]. split; split; q_le.
Qed.

Lemma z_hit_bounds (n m T s loc : Z) (l : list TQubit) (e : TQubit) :
  1 <= n -> 0 <= m -> 0 <= loc < (m + 1) * (2 * n) ->
  z_hit (m + 1) T s loc = Ok l -> In e l ->
  time e = inject_Z T /\
  ((1 # 2) <= row_of e <= inject_Z (2 * n + 1) - (3 # 2))%Q /\
  (- (1 # 2) <= col_of e <= inject_Z (2 * m + 1) - (1 # 2))%Q.
Proof.
  intros Hn Hm Hloc E He. unfold z_hit, floordiv, pymod in E.
  destruct (Z.land s (Z.shiftl 1 loc) =? 0).
  { apply Ok_inj in E. subst l. contradiction. }
  destruct (Z.eqb_spec (m + 1) 0); [lia|]. cbn [bind] in E.
  apply Ok_inj in E. subst l. destruct He as [<-|[]].
  destruct (z_row_offset_bounds n m loc ltac:(lia) Hm Hloc)
    as (Hrow & Hoff & _).
  pose proof (mod2_cases (loc / (m + 1))) as Hp.
  unfold time, row_of, col_of. cbn [fst snd].
  split; [reflexivity|]. split; split; q_le.
Qed.

Lemma z_syndromes_length (nz : Z) (xors zs : list Z) :
  z_syndromes nz xors = Ok zs -> (length zs <= length xors)%nat.
Proof.
  unfold z_syndromes. destruct (repeat_seq (lit "1") nz).
  - intros E. apply Ok_inj in E. subst zs. cbn. lia.
  - intros E. apply mapM_length in E. lia.
Qed.

(** X17: on a lattice of odd dimensions at least 3, every event that
    [parse_readout] returns has an integer time between 0 and rounds - 2,
    and lies on the lattice: an X event has its row in [-0.5, dh - 0.5] and
    its column in [0.5, dw - 1.5], a Z event its row in [0.5, dh - 1.5] and
    its column in [-0.5, dw - 0.5]. *)
Theorem events_within_lattice (dh dw : Z) (L : Lattice) (readout_string : str)
    (readout_type : option str) (logical_readout : Z) (chunks : list str)
    (syndromes : Syndromes) :
  3 <= dh -> 3 <= dw -> new_lattice (dims dh dw) = Ok L ->
  head_chunks L (split readout_string) readout_type
    = Ok (logical_readout, chunks) ->
  fst (parse_readout L readout_string readout_type)
    = Ok (logical_readout, syndromes) ->
  (forall e, In e (hits_X syndromes) ->
     (exists T, time e = inject_Z T /\
                0 <= T <= Z.of_nat (length chunks) - 2) /\
     (- (1 # 2) <= row_of e <= inject_Z dh - (1 # 2))%Q /\
     ((1 # 2) <= col_of e <= inject_Z dw - (3 # 2))%Q) /\
  (forall e, In e (hits_Z syndromes) ->
     (exists T, time e = inject_Z T /\
                0 <= T <= Z.of_nat (length chunks) - 2) /\
     ((1 # 2) <= row_of e <= inject_Z dh - (3 # 2))%Q /\
     (- (1 # 2) <= col_of e <= inject_Z dw - (1 # 2))%Q).
Proof.
  intros Hh3 Hw3 EL Ehead E.
  destruct (new_lattice_inv dh dw L EL) as (_ & Hh & Hw).
  destruct (new_lattice_params dh dw L EL) as (g & ->).
  unfold parse_readout, parse_readout_result in E. cbn [fst] in E.
  rewrite Ehead in E. cbn [bind] in E.
  apply bind_Ok_inv in E as (syn & E & Esyn).
  apply Ok_inj in Esyn. injection Esyn as <-.
  unfold parse_chunks in E.
  apply bind_Ok_inv in E as (ints & Eints & E).
  cbn [params generated num_syn d] in E. unfold SYNX, SYNZ, W in E.
  rewrite !getitem_pair_0, !getitem_pair_1 in E. cbn [bind] in E.
  apply bind_Ok_inv in E as (xs & Exs & E).
  apply bind_Ok_inv in E as (zs & Ezs & E).
  apply bind_Ok_inv in E as (X & EX & E).
  apply bind_Ok_inv in E as (Z & EZ & E).
  apply Ok_inj in E. subst syn. cbn [hits_X hits_Z].
  assert (Hints : length ints = length chunks).
  { unfold int_syndromes in Eints. apply mapM_length in Eints.
    rewrite length_rev in Eints. exact Eints. }
  pose proof (xor_syndromes_length ints) as Hxors.
  assert (Hxs : length xs = length (xor_syndromes ints))
    by (unfold x_syndromes in Exs; eapply mapM_length; eauto).
  pose proof (z_syndromes_length _ _ _ Ezs) as Hzs.
  destruct (odd_decompose dh Hh) as (n & En).
  destruct (odd_decompose dw Hw) as (m & Em). subst dh dw.
  rewrite half_odd_succ, ?half_odd in *.
  replace (2 * m + 1 - 1) with (2 * m) in * by lia.
  replace (2 * n + 1 - 1) with (2 * n) in * by lia.
  split; intros e He.
  - destruct (hits_In_loc _ _ _ _ e EX He) as (i & s & loc & l & Hi & Hloc & El & Hl).
    assert (Hlt : (i < length xs)%nat) by (apply nth_error_Some; congruence).
    destruct (x_hit_bounds n m (Z.of_nat i) s loc l e ltac:(lia) ltac:(lia)
                Hloc El Hl) as (Ht & Hr & Hc).
    split; [exists (Z.of_nat i); split; [exact Ht | lia]|]. auto.
  - destruct (hits_In_loc _ _ _ _ e EZ He) as (i & s & loc & l & Hi & Hloc & El & Hl).
    assert (Hlt : (i < length zs)%nat) by (apply nth_error_Some; congruence).
    destruct (z_hit_bounds n m (Z.of_nat i) s loc l e ltac:(lia) ltac:(lia)
                Hloc El Hl) as (Ht & Hr & Hc).
    split; [exists (Z.of_nat i); split; [exact Ht | lia]|]. auto.
Qed.

Lemma events_within_lattice_witness :
  (forall e,
     In e (hits_X {| hits_X := [(1, -1 # 2, 1 # 2)%Q];
                     hits_Z := [(0, 1 # 2, 1 # 2)%Q] |}) ->
     (exists T, time e = inject_Z T /\
        0 <= T <= Z.of_nat (length [lit "00010001"; lit "00000001";
                                    lit "00000000"]) - 2) /\
     (- (1 # 2) <= row_of e <= inject_Z 3 - (1 # 2))%Q /\
     ((1 # 2) <= col_of e <= inject_Z 3 - (3 # 2))%Q) /\
  (forall e,
     In e (hits_Z {| hits_X := [(1, -1 # 2, 1 # 2)%Q];
                     hits_Z := [(0, 1 # 2, 1 # 2)%Q] |}) ->
     (exists T, time e = inject_Z T /\
        0 <= T <= Z.of_nat (length [lit "00010001"; lit "00000001";
                                    lit "00000000"]) - 2) /\
     ((1 # 2) <= row_of e <= inject_Z 3 - (3 # 2))%Q /\
     (- (1 # 2) <= col_of e <= inject_Z 3 - (1 # 2))%Q).
Proof.
  apply (events_within_lattice 3 3 lattice_d3
           (lit "1 00010001 00000001 00000000") None 1
           [lit "00010001"; lit "00000001"; lit "00000000"]);
    [lia | lia | reflexivity | reflexivity | reflexivity].
Defined.

(** ** A history without errors *)

Lemma zeros_Forall (n : Z) : Forall (eq "0"%char) (zeros n).
Proof.
  unfold zeros. apply Forall_forall. intros c Hc.
  apply repeat_spec in Hc. congruence.
Qed.

Lemma zeros_binary (n : Z) : binary (zeros n) = true.
Proof.
  unfold binary. apply forallb_forall. intros c Hc.
  apply repeat_spec in Hc. subst c. reflexivity.
Qed.

Lemma zeros_length (n : Z) : 0 <= n -> Z.of_nat (length (zeros n)) = n.
Proof. intros Hn. unfold zeros. rewrite repeat_length. lia. Qed.

Lemma zeros_chunk (n : Z) : 0 < n -> syndrome_chunk (zeros n) = true.
Proof.
  intros Hn. pose proof (zeros_binary n) as Hb. unfold zeros in *.
  destruct (Z.to_nat n) as [|k] eqn:E; [lia|]. exact Hb.
Qed.

Lemma Forall_zeros (s : str) (n : Z) :
  Forall (eq "0"%char) s -> Z.of_nat (length s) = n -> s = zeros n.
Proof.
  intros Hs Hn. unfold zeros. rewrite (Forall_eq_repeat Hs). f_equal. lia.
Qed.

Lemma x_syndromes_zeros (nx nz : Z) (k : nat) :
  0 < nx -> 0 <= nz -> x_syndromes nx nz (repeat 0 k) = Ok (repeat 0 k).
Proof.
  intros Hnx Hnz. unfold x_syndromes. apply mapM_repeat.
  destruct (int_base2_chunk _ (mask_chunk nx nz Hnx)) as (m & ->).
  cbn [bind]. unfold rshift. destruct (Z.ltb_spec nz 0); [lia|].
  rewrite Z.land_0_l, Z.shiftr_0_l. reflexivity.
Qed.

Lemma z_syndromes_zeros (nz : Z) (k : nat) :
  exists j, z_syndromes nz (repeat 0 k) = Ok (repeat 0 j).
Proof.
  unfold z_syndromes.
  destruct (repeat_seq (lit "1") nz) as [|c mask] eqn:E.
  - exists 0%nat. reflexivity.
  - exists k. apply mapM_repeat.
    destruct (int_base2_chunk (c :: mask)) as (m & ->).
    + cbn [syndrome_chunk]. rewrite <- E.
      apply (repeat_seq_binary "1" nz). right; reflexivity.
    + cbn [bind]. rewrite Z.land_0_l. reflexivity.
Qed.

(** The parse of a history whose rounds are all the same string. *)
Lemma parse_chunks_constant (dh dw : Z) (g : Geometry) (c : str) (k : nat) :
  3 <= dh -> 3 <= dw -> syndrome_chunk c = true ->
  parse_chunks {| params := generated dh dw; geometry := g |} (repeat c k)
  = Ok {| hits_X := []; hits_Z := [] |}.
Proof.
  intros Hh Hw Hc. unfold parse_chunks, int_syndromes.
  destruct (int_base2_chunk c Hc) as (v & Ev).
  rewrite rev_repeat, (mapM_repeat _ c v k Ev). cbn [bind].
  cbn [params generated num_syn d]. unfold SYNX, SYNZ, W.
  rewrite !getitem_pair_0, !getitem_pair_1. cbn [bind].
  assert (Hx : exists j, xor_syndromes (repeat v k) = repeat 0 j).
  { destruct k as [|k]; [exists 0%nat; reflexivity|].
    exists k. apply xor_syndromes_repeat. }
  destruct Hx as (j & ->).
  assert (Hhalf : 2 <= (dh + 1) / 2) by (apply Z.div_le_lower_bound; lia).
  assert (Hhalfw : 2 <= (dw + 1) / 2) by (apply Z.div_le_lower_bound; lia).
  rewrite x_syndromes_zeros by nia.
  destruct (z_syndromes_zeros ((dw + 1) / 2 * (dh - 1)) j) as (j' & ->).
  cbn [bind].
  rewrite (hits_zero (x_hit (dw / 2)) _ (x_hit_zero (dw / 2))). cbn [bind].
  rewrite (hits_zero (z_hit (dw / 2 + 1)) _ (z_hit_zero (dw / 2 + 1))).
  reflexivity.
Qed.

(** X18: a history without errors parses to nothing.  On a lattice of odd
    dimensions at least 3, for either axis, a lattice readout of
    [num_data] zeros that follows one or more all-zero syndrome rounds
    gives the logical readout 0 and no event on either list. *)
Theorem zero_history_no_events (dh dw : Z) (readout_string rt : str) (k : nat) :
  Z.odd dh = true -> Z.odd dw = true -> 3 <= dh -> 3 <= dw ->
  str_eqb rt (lit "X") || str_eqb rt (lit "Z") = true ->
  split readout_string
    = zeros (dh * dw)
      :: repeat (zeros (num_syn_X dh dw + num_syn_Z dh dw)) (S k) ->
  exists L,
    new_lattice (dims dh dw) = Ok L /\
    fst (parse_readout L readout_string (Some rt))
    = Ok (0, {| hits_X := []; hits_Z := [] |}).
Proof.
  intros Hh Hw Hh3 Hw3 Hrt Esplit.
  destruct (new_lattice_built dh dw Hh Hw) as (gx & gz & Egx & Egz & EL).
  eexists. split; [exact EL|].
  assert (Hnx : 4 <= num_syn_X dh dw).
  { assert (2 <= (dh + 1) / 2) by (apply Z.div_le_lower_bound; lia).
    unfold num_syn_X. nia. }
  assert (Hnz : 4 <= num_syn_Z dh dw).
  { assert (2 <= (dw + 1) / 2) by (apply Z.div_le_lower_bound; lia).
    unfold num_syn_Z. nia. }
  assert (Hdata : 9 <= dh * dw) by nia.
  set (width := num_syn_X dh dw + num_syn_Z dh dw) in *.
  pose proof (zeros_Forall (dh * dw)) as Hzf.
  pose proof (zeros_Forall width) as Hzp.
  pose proof (binary_Forall _ (zeros_binary (dh * dw))) as Hbits.
  pose proof (zeros_length (dh * dw) ltac:(lia)) as Hlen.
  pose proof (zeros_length width ltac:(lia)) as Hplen.
  pose proof (mapM_length _ _ _ Egx) as Hgx. rewrite range_length in Hgx.
  pose proof (mapM_length _ _ _ Egz) as Hgz. rewrite range_length in Hgz.
  fold (num_syn_X dh dw) in Hgx. fold (num_syn_Z dh dw) in Hgz.
  unfold parse_readout, parse_readout_result, head_chunks. cbn [fst].
  rewrite Esplit. cbn [repeat]. rewrite getitem_head, getitem_second.
  cbn [bind].
  destruct (Z.ltb_spec 1 (Z.of_nat (length (zeros (dh * dw))))); [|lia].
  unfold extract_final_stabilizer_and_logical_readout.
  assert (Hzero : forall i, nth i (data_bits (zeros (dh * dw))) 0 = 0)
    by (intros i; apply data_bits_zero; exact Hzf).
  apply orb_true_iff in Hrt as [Ert|Ert]; rewrite Ert.
  - rewrite (extract_x_built dh dw Hh Hw ltac:(lia) ltac:(lia) gx gz Egx
               (zeros (dh * dw)) Hbits Hlen).
    cbn [bind]. rewrite xor_bits_zero by exact Hzero.
    fold (num_syn_X dh dw).
    rewrite (Forall_zeros (_ ++ _) width).
    + rewrite slice_from_1_cons.
      change ([zeros width] ++ zeros width :: repeat (zeros width) k)
        with (repeat (zeros width) (S (S k))).
      rewrite parse_chunks_constant by (lia || (apply zeros_chunk; lia)).
      reflexivity.
    + apply Forall_app. split;
        [apply parity_chars_zero; exact Hzero | apply Forall_slice_from; exact Hzp].
    + rewrite length_app, Nat2Z.inj_add, parity_chars_length, Hgx,
        slice_from_length by lia. lia.
  - destruct (str_eqb rt (lit "X")).
    + rewrite (extract_x_built dh dw Hh Hw ltac:(lia) ltac:(lia) gx gz Egx
                 (zeros (dh * dw)) Hbits Hlen).
      cbn [bind]. rewrite xor_bits_zero by exact Hzero.
      fold (num_syn_X dh dw).
      rewrite (Forall_zeros (_ ++ _) width).
      * rewrite slice_from_1_cons.
        change ([zeros width] ++ zeros width :: repeat (zeros width) k)
          with (repeat (zeros width) (S (S k))).
        rewrite parse_chunks_constant by (lia || (apply zeros_chunk; lia)).
        reflexivity.
      * apply Forall_app. split;
          [apply parity_chars_zero; exact Hzero
          | apply Forall_slice_from; exact Hzp].
      * rewrite length_app, Nat2Z.inj_add, parity_chars_length, Hgx,
          slice_from_length by lia. lia.
    + rewrite (extract_z_built dh dw Hh Hw ltac:(lia) ltac:(lia) gx gz Egz
                 (zeros (dh * dw)) Hbits Hlen).
      cbn [bind]. rewrite xor_bits_zero by exact Hzero.
      fold (num_syn_X dh dw).
      rewrite (Forall_zeros (_ ++ _) width).
      * rewrite slice_from_1_cons.
        change ([zeros width] ++ zeros width :: repeat (zeros width) k)
          with (repeat (zeros width) (S (S k))).
        rewrite parse_chunks_constant by (lia || (apply zeros_chunk; lia)).
        reflexivity.
      * apply Forall_app. split;
          [apply Forall_slice_to; exact Hzp
          | apply parity_chars_zero; exact Hzero].
      * rewrite length_app, Nat2Z.inj_add, parity_chars_length, Hgz,
          slice_to_length by lia. lia.
Qed.

Lemma zero_history_no_events_witness :
  exists L,
    new_lattice (dims 3 3) = Ok L /\
    fst (parse_readout L (lit "000000000 00000000 00000000") (Some (lit "Z")))
    = Ok (0, {| hits_X := []; hits_Z := [] |}).
Proof.
  apply (zero_history_no_events 3 3 (lit "000000000 00000000 00000000")
           (lit "Z") 1); [reflexivity | reflexivity | lia | lia | reflexivity
                         | reflexivity].
Defined.

(** ** The last time step of a lattice readout *)

(** Reading a binary string after an accumulator: the accumulator is
    shifted by the length of the string. *)
Lemma int_digits_binary_shift (b : str) :
  binary b = true ->
  exists B, 0 <= B < 2 ^ Z.of_nat (length b) /\
            forall acc, int_digits 2 acc b = Ok (acc * 2 ^ Z.of_nat (length b) + B).
Proof.
  induction b as [|c b IH]; intros Hb.
  - exists 0. split; [cbn; lia|]. intros acc. cbn. f_equal. lia.
  - cbn [binary forallb] in Hb. apply andb_true_iff in Hb as (Hc & Hb).
    destruct (IH Hb) as (B & HB & Hacc).
    assert (Hpow : 2 ^ Z.of_nat (length (c :: b)) = 2 * 2 ^ Z.of_nat (length b)).
    { cbn [length]. rewrite Nat2Z.inj_succ, Z.pow_succ_r by lia. reflexivity. }
    apply orb_true_iff in Hc as [E|E]; apply Ascii.eqb_eq in E; subst c.
    + exists B. split; [lia|]. intros acc. rewrite Hpow.
      change (int_digits 2 acc ("0"%char :: b)) with (int_digits 2 (acc * 2 + 0) b).
      rewrite Hacc. f_equal. ring.
    + exists (2 ^ Z.of_nat (length b) + B). split; [lia|]. intros acc.
      rewrite Hpow.
      change (int_digits 2 acc ("1"%char :: b)) with (int_digits 2 (acc * 2 + 1) b).
      rewrite Hacc. f_equal. ring.
Qed.

Lemma int_digits_app (base acc : Z) (a b : str) :
  int_digits base acc (a ++ b)
  = (v <- int_digits base acc a ;; int_digits base v b).
Proof.
  revert acc. induction a as [|c a IH]; intros acc; [reflexivity|].
  cbn [app int_digits]. destruct (digit_of_char c) as [v|]; [|reflexivity].
  destruct (v <? base); [apply IH | reflexivity].
Qed.

(** The value of a spliced binary string: high part times [2^n], plus the
    low part, which is below [2^n]. *)
Lemma int_base2_app (a b : str) :
  binary a = true -> binary b = true -> a ++ b <> [] ->
  exists A B, int_base 2 (a ++ b) = Ok (A * 2 ^ Z.of_nat (length b) + B) /\
              0 <= A /\ 0 <= B < 2 ^ Z.of_nat (length b) /\
              (forall acc, int_digits 2 acc a
                           = Ok (acc * 2 ^ Z.of_nat (length a) + A)) /\
              (forall acc, int_digits 2 acc b
                           = Ok (acc * 2 ^ Z.of_nat (length b) + B)).
Proof.
  intros Ha Hb Hne.
  destruct (int_digits_binary_shift a Ha) as (A & HA & EA).
  destruct (int_digits_binary_shift b Hb) as (B & HB & EB).
  exists A, B. split; [|split; [lia|split; [exact HB|split; assumption]]].
  unfold int_base. destruct (a ++ b) eqn:E; [contradiction|]. rewrite <- E.
  rewrite int_digits_app, EA. cbn [bind]. rewrite EB.
  f_equal; ring.
Qed.

Lemma testbit_below_pow2 (M n j : Z) :
  0 <= M < 2 ^ n -> 0 <= n <= j -> Z.testbit M j = false.
Proof.
  intros HM Hj. rewrite <- (Z.mod_small M (2 ^ n)) by exact HM.
  apply Z.mod_pow2_bits_high. exact Hj.
Qed.

(** Two values with the same low [n] bits differ in none of the bits that
    a mask below [2^n] selects. *)
Lemma land_lxor_same_low (P S M n : Z) :
  0 <= n -> P mod 2 ^ n = S mod 2 ^ n -> 0 <= M < 2 ^ n ->
  Z.land (Z.lxor P S) M = 0.
Proof.
  intros Hn Hlow HM. apply Z.bits_inj'. intros j Hj.
  rewrite Z.land_spec, Z.lxor_spec, Z.bits_0.
  destruct (Z.lt_ge_cases j n) as [Hlt|Hge].
  - rewrite <- (Z.mod_pow2_bits_low P n j Hlt), Hlow,
      (Z.mod_pow2_bits_low S n j Hlt), xorb_nilpotent. reflexivity.
  - rewrite (testbit_below_pow2 M n j HM ltac:(lia)). apply andb_false_r.
Qed.

(** Two values with the same bits from [n] upwards give nothing above bit
    [n] of their XOR. *)
Lemma shiftr_lxor_same_high (A B B' M n : Z) :
  0 <= n -> 0 <= B < 2 ^ n -> 0 <= B' < 2 ^ n ->
  Z.shiftr (Z.land (Z.lxor (A * 2 ^ n + B) (A * 2 ^ n + B')) M) n = 0.
Proof.
  intros Hn HB HB'.
  rewrite Z.shiftr_land, Z.shiftr_lxor, !Z.shiftr_div_pow2 by exact Hn.
  assert (E : forall b, 0 <= b < 2 ^ n -> (A * 2 ^ n + b) / 2 ^ n = A).
  { intros b Hb. symmetry. apply (Z.div_unique _ (2 ^ n) A b); [left; exact Hb|].
    ring. }
  rewrite !E by assumption. rewrite Z.lxor_nilpotent. apply Z.land_0_l.
Qed.

Lemma Forall_binary (s : str) : Forall is_bit s -> binary s = true.
Proof.
  intros Hs. apply forallb_forall. intros c Hc.
  rewrite Forall_forall in Hs. destruct (Hs c Hc) as [-> | ->]; reflexivity.
Qed.

Lemma parity_chars_binary (bits : list Z) (pls : list plaquette) :
  binary (map char_of_bit (rev (map (plaquette_parity bits) pls))) = true.
Proof.
  apply Forall_binary, Forall_map, Forall_forall. intros v _.
  unfold char_of_bit. destruct (v =? 0); [left | right]; reflexivity.
Qed.

Lemma z_syndromes_nth (nz : Z) (xors zs : list Z) (i : nat) (x s : Z) :
  0 <= nz ->
  z_syndromes nz xors = Ok zs -> nth_error xors i = Some x ->
  nth_error zs i = Some s ->
  exists m, 0 <= m < 2 ^ nz /\ s = Z.land x m.
Proof.
  intros Hnz. unfold z_syndromes. intros E Hx Hs.
  pose proof (repeat_seq_binary "1" nz ltac:(right; reflexivity)) as Hb.
  assert (Hl : Z.of_nat (length (repeat_seq (lit "1") nz)) = nz).
  { unfold repeat_seq, lit. cbn [list_ascii_of_string].
    rewrite <- repeat_to_concat, repeat_length. lia. }
  change (repeat_seq ["1"%char] nz) with (repeat_seq (lit "1") nz) in Hb.
  destruct (int_digits_binary_shift _ Hb) as (m & Hm & Em). rewrite Hl in Hm.
  destruct (repeat_seq (lit "1") nz) as [|c mask] eqn:Emask.
  - apply Ok_inj in E. subst zs. destruct i; discriminate.
  - destruct (mapM_nth_error _ _ _ _ _ E Hx) as (y & Hy & Ey).
    unfold int_base in Ey. rewrite (Em 0) in Ey. cbn [bind] in Ey.
    apply Ok_inj in Ey. exists m. split; [exact Hm|].
    rewrite Z.mul_0_l, Z.add_0_l in Ey. congruence.
Qed.

Lemma x_syndromes_nth (nx nz : Z) (xors xs : list Z) (i : nat) (x s : Z) :
  x_syndromes nx nz xors = Ok xs -> nth_error xors i = Some x ->
  nth_error xs i = Some s ->
  exists m, s = Z.shiftr (Z.land x m) nz /\ 0 <= nz.
Proof.
  unfold x_syndromes. intros E Hx Hs.
  destruct (mapM_nth_error _ _ _ _ _ E Hx) as (y & Hy & Ey).
  apply bind_Ok_inv in Ey as (m & _ & Ey). unfold rshift in Ey.
  destruct (Z.ltb_spec nz 0); [discriminate|]. apply Ok_inj in Ey.
  exists m. split; [congruence | lia].
Qed.

(** No event has the time of a step whose change value is zero. *)
Lemma hits_no_event_at (hit : Z -> Z -> Z -> result (list TQubit)) (n : Z)
    (syndromes : list Z) (evs : list TQubit) (i : nat) :
  (forall T s loc l e, hit T s loc = Ok l -> In e l ->
                       time e = inject_Z T /\ s <> 0) ->
  hits hit n syndromes = Ok evs ->
  (forall s, nth_error syndromes i = Some s -> s = 0) ->
  forall e, In e evs -> ~ (time e == inject_Z (Z.of_nat i))%Q.
Proof.
  intros Hhit E Hzero e He Htime.
  destruct (hits_In hit n syndromes evs e Hhit E He) as (j & s & Hj & Hs & Ht).
  rewrite Ht in Htime.
  apply (proj1 (inject_Z_injective _ _)), Nat2Z.inj in Htime. subst j.
  apply Hs, Hzero. exact Hj.
Qed.

Lemma mod_pow2_of_sum (A B n : Z) :
  0 <= B < 2 ^ n -> (A * 2 ^ n + B) mod 2 ^ n = B.
Proof.
  intros HB. rewrite (Z.mul_comm A). apply div_mod_of_sum. exact HB.
Qed.

Lemma nth_error_rev_last_two {A : Type} (a b : A) (older : list A) :
  nth_error (rev (a :: b :: older)) (length older) = Some b /\
  nth_error (rev (a :: b :: older)) (S (length older)) = Some a.
Proof.
  cbn [rev]. rewrite <- app_assoc. cbn [app]. split.
  - rewrite nth_error_app2 by (rewrite length_rev; lia).
    rewrite length_rev, Nat.sub_diag. reflexivity.
  - rewrite nth_error_app2 by (rewrite length_rev; lia).
    rewrite length_rev. replace (S (length older) - length older)%nat with 1%nat by lia.
    reflexivity.
Qed.

(** The last step of a history [stab :: prev :: older] on a built lattice:
    no Z event when the two last rounds agree on their low [num_syn_Z]
    bits, no X event when they agree above them. *)
Lemma parse_chunks_last_step (dh dw : Z) (g : Geometry) (stab prev : str)
    (older : list str) (P S : Z) :
  3 <= dh -> 3 <= dw ->
  forallb syndrome_chunk (stab :: prev :: older) = true ->
  int_base 2 prev = Ok P -> int_base 2 stab = Ok S ->
  exists syndromes,
    parse_chunks {| params := generated dh dw; geometry := g |}
                 (stab :: prev :: older) = Ok syndromes /\
    (P mod 2 ^ num_syn_Z dh dw = S mod 2 ^ num_syn_Z dh dw ->
     forall e, In e (hits_Z syndromes) ->
               ~ (time e == inject_Z (Z.of_nat (length older)))%Q) /\
    (Z.shiftr P (num_syn_Z dh dw) = Z.shiftr S (num_syn_Z dh dw) ->
     forall e, In e (hits_X syndromes) ->
               ~ (time e == inject_Z (Z.of_nat (length older)))%Q).
Proof.
  intros Hh Hw Hc EP ES.
  destruct (parse_chunks_total dh dw g _ Hh Hw Hc) as (syn & Esyn).
  exists syn. split; [exact Esyn|].
  assert (Hnz : 0 <= num_syn_Z dh dw).
  { apply Z.mul_nonneg_nonneg; [apply Z.div_pos|]; lia. }
  unfold parse_chunks in Esyn.
  apply bind_Ok_inv in Esyn as (ints & Eints & E).
  cbn [params generated num_syn d] in E. unfold SYNX, SYNZ, W in E.
  rewrite !getitem_pair_0, !getitem_pair_1 in E. cbn [bind] in E.
  fold (num_syn_X dh dw) in E. fold (num_syn_Z dh dw) in E.
  apply bind_Ok_inv in E as (xs & Exs & E).
  apply bind_Ok_inv in E as (zs & Ezs & E).
  apply bind_Ok_inv in E as (X & EX & E).
  apply bind_Ok_inv in E as (Z & EZ & E).
  apply Ok_inj in E. subst syn. cbn [hits_X hits_Z].
  destruct (nth_error_rev_last_two stab prev older) as (Hi & HSi).
  unfold int_syndromes in Eints.
  destruct (mapM_nth_error _ _ _ _ _ Eints Hi) as (P' & HP' & EP').
  destruct (mapM_nth_error _ _ _ _ _ Eints HSi) as (S' & HS' & ES').
  assert (P' = P) by congruence. assert (S' = S) by congruence. subst P' S'.
  pose proof (xor_syndromes_nth ints _ P S HP' HS') as Hx.
  split; intros Hsame.
  - apply (hits_no_event_at _ _ _ _ _ (z_hit_In (dw / 2 + 1)) EZ).
    intros s Hs.
    destruct (z_syndromes_nth _ _ _ _ _ s Hnz Ezs Hx Hs) as (m & Hm & ->).
    apply (land_lxor_same_low P S m (num_syn_Z dh dw)); assumption.
  - apply (hits_no_event_at _ _ _ _ _ (x_hit_In (dw / 2)) EX).
    intros s Hs.
    destruct (x_syndromes_nth _ _ _ _ _ _ s Exs Hx Hs) as (m & -> & _).
    rewrite Z.shiftr_land, Z.shiftr_lxor, Hsame, Z.lxor_nilpotent.
    apply Z.land_0_l.
Qed.

Lemma slice_to_from {A : Type} (n : Z) (l : list A) :
  slice_to n l ++ slice_from n l = l.
Proof. unfold slice_to, slice_from. apply firstn_skipn. Qed.

Lemma binary_chunk (c : str) :
  binary c = true -> 0 < Z.of_nat (length c) -> syndrome_chunk c = true.
Proof. destruct c; cbn [length]; [lia | auto]. Qed.

Lemma binary_app (a b : str) : binary (a ++ b) = binary a && binary b.
Proof. unfold binary. apply forallb_app. Qed.

Lemma shiftr_of_sum (A B n : Z) :
  0 <= n -> 0 <= B < 2 ^ n -> Z.shiftr (A * 2 ^ n + B) n = A.
Proof.
  intros Hn HB. rewrite Z.shiftr_div_pow2 by exact Hn.
  rewrite (Z.mul_comm A). apply div_mod_of_sum. exact HB.
Qed.

(** X19: the last time step of a lattice readout shows events of the
    measured axis only.  On a lattice of odd dimensions at least 3, with a
    binary readout of the whole lattice, a binary previous round of width
    [num_syn_X + num_syn_Z] and well-formed older rounds, the parse returns;
    for the axis "X" no Z event has the time of the last step, and for the
    axis "Z" no X event has it: the bits of the other axis are those of the
    previous round. *)
Theorem last_step_measured_axis_only (dh dw : Z) (readout_string : str)
    (final prev : str) (older : list str) :
  Z.odd dh = true -> Z.odd dw = true -> 3 <= dh -> 3 <= dw ->
  split readout_string = final :: prev :: older ->
  binary final = true -> Z.of_nat (length final) = dh * dw ->
  binary prev = true ->
  Z.of_nat (length prev) = num_syn_X dh dw + num_syn_Z dh dw ->
  forallb syndrome_chunk older = true ->
  exists L,
    new_lattice (dims dh dw) = Ok L /\
    (exists lr syndromes,
       fst (parse_readout L readout_string (Some (lit "X")))
         = Ok (lr, syndromes) /\
       forall e, In e (hits_Z syndromes) ->
                 ~ (time e == inject_Z (Z.of_nat (length older)))%Q) /\
    (exists lr syndromes,
       fst (parse_readout L readout_string (Some (lit "Z")))
         = Ok (lr, syndromes) /\
       forall e, In e (hits_X syndromes) ->
                 ~ (time e == inject_Z (Z.of_nat (length older)))%Q).
Proof.
  intros Hh Hw Hh3 Hw3 Esplit Hbin Hlen Hpbin Hplen Holder.
  destruct (new_lattice_built dh dw Hh Hw) as (gx & gz & Egx & Egz & EL).
  eexists. split; [exact EL|].
  assert (Hnx : 4 <= num_syn_X dh dw).
  { assert (2 <= (dh + 1) / 2) by (apply Z.div_le_lower_bound; lia).
    unfold num_syn_X. nia. }
  assert (Hnz : 4 <= num_syn_Z dh dw).
  { assert (2 <= (dw + 1) / 2) by (apply Z.div_le_lower_bound; lia).
    unfold num_syn_Z. nia. }
  assert (Hdata : 9 <= dh * dw) by nia.
  pose proof (binary_Forall _ Hbin) as Hbits.
  pose proof (binary_Forall _ Hpbin) as Hpbits.
  pose proof (mapM_length _ _ _ Egx) as Hgx. rewrite range_length in Hgx.
  pose proof (mapM_length _ _ _ Egz) as Hgz. rewrite range_length in Hgz.
  fold (num_syn_X dh dw) in Hgx. fold (num_syn_Z dh dw) in Hgz.
  set (nx := num_syn_X dh dw) in *. set (nz := num_syn_Z dh dw) in *.
  set (ph := slice_to nx prev). set (pl := slice_from nx prev).
  assert (Hph : binary ph = true)
    by (apply Forall_binary, Forall_slice_to; exact Hpbits).
  assert (Hpl : binary pl = true)
    by (apply Forall_binary, Forall_slice_from; exact Hpbits).
  assert (Lph : Z.of_nat (length ph) = nx) by (apply slice_to_length; lia).
  assert (Lpl : Z.of_nat (length pl) = nz).
  { unfold pl. rewrite slice_from_length by lia. lia. }
  assert (Hprev : syndrome_chunk prev = true)
    by (apply binary_chunk; [exact Hpbin | lia]).
  destruct (int_base2_app ph pl Hph Hpl) as (A & B & EP & HA & HB & EA & EB).
  { unfold ph, pl. rewrite slice_to_from.
    intros E. rewrite E in Hplen. cbn in Hplen. lia. }
  unfold ph, pl in EP. rewrite slice_to_from in EP. fold pl in EP.
  rewrite Lpl in EP, HB.
  unfold parse_readout, parse_readout_result, head_chunks. cbn [fst].
  rewrite Esplit, getitem_head, getitem_second. cbn [bind].
  destruct (Z.ltb_spec 1 (Z.of_nat (length final))); [|lia].
  unfold extract_final_stabilizer_and_logical_readout.
  change (str_eqb (lit "X") (lit "X")) with true.
  change (str_eqb (lit "Z") (lit "X")) with false.
  change (str_eqb (lit "Z") (lit "Z")) with true. cbv iota.
  rewrite (extract_x_built dh dw Hh Hw ltac:(lia) ltac:(lia) gx gz Egx
             final Hbits Hlen).
  rewrite (extract_z_built dh dw Hh Hw ltac:(lia) ltac:(lia) gx gz Egz
             final Hbits Hlen).
  cbn [bind]. rewrite slice_from_1_cons. cbn [app].
  change (slice_from ((dh + 1) / 2 * (dw - 1)) prev) with pl.
  change (slice_to ((dh + 1) / 2 * (dw - 1)) prev) with ph.
  split.
  - set (xs := map char_of_bit
                 (rev (map (plaquette_parity (data_bits final)) gx))).
    assert (Hxs : binary xs = true) by apply parity_chars_binary.
    assert (Lxs : Z.of_nat (length xs) = nx).
    { unfold xs. rewrite parity_chars_length, Hgx. lia. }
    destruct (int_base2_app xs pl Hxs Hpl) as (A' & B' & ES & _ & HB' & _ & EB').
    { intros E. apply (f_equal (@length ascii)) in E.
      rewrite length_app in E. cbn in E. lia. }
    assert (B' = B).
    { pose proof (EB 0) as E1. rewrite (EB' 0) in E1.
      apply Ok_inj in E1. lia. }
    subst B'. rewrite Lpl in ES.
    assert (Hchunks : forallb syndrome_chunk ((xs ++ pl) :: prev :: older) = true).
    { cbn [forallb]. rewrite Hprev, Holder, !andb_true_r.
      apply binary_chunk; [rewrite binary_app, Hxs, Hpl; reflexivity|].
      rewrite length_app. lia. }
    destruct (parse_chunks_last_step dh dw {| mx := gx; mz := gz |}
                (xs ++ pl) prev older _ _ Hh3 Hw3 Hchunks EP ES)
      as (syn & Esyn & HZ & _).
    rewrite Esyn. cbn [bind]. do 2 eexists. split; [reflexivity|].
    apply HZ. fold nz. rewrite !mod_pow2_of_sum by exact HB. reflexivity.
  - set (zs := map char_of_bit
                 (rev (map (plaquette_parity (data_bits final)) gz))).
    assert (Hzs : binary zs = true) by apply parity_chars_binary.
    assert (Lzs : Z.of_nat (length zs) = nz).
    { unfold zs. rewrite parity_chars_length, Hgz. lia. }
    destruct (int_base2_app ph zs Hph Hzs) as (A' & B' & ES & _ & HB' & EA' & _).
    { intros E. apply (f_equal (@length ascii)) in E.
      rewrite length_app in E. cbn in E. lia. }
    assert (A' = A).
    { pose proof (EA 0) as E1. rewrite (EA' 0) in E1.
      apply Ok_inj in E1. lia. }
    subst A'. rewrite Lzs in ES, HB'.
    assert (Hchunks : forallb syndrome_chunk ((ph ++ zs) :: prev :: older) = true).
    { cbn [forallb]. rewrite Hprev, Holder, !andb_true_r.
      apply binary_chunk; [rewrite binary_app, Hph, Hzs; reflexivity|].
      rewrite length_app. lia. }
    destruct (parse_chunks_last_step dh dw {| mx := gx; mz := gz |}
                (ph ++ zs) prev older _ _ Hh3 Hw3 Hchunks EP ES)
      as (syn & Esyn & _ & HX).
    rewrite Esyn. cbn [bind]. do 2 eexists. split; [reflexivity|].
    apply HX. fold nz. rewrite !shiftr_of_sum by (lia || assumption).
    reflexivity.
Qed.

Lemma last_step_measured_axis_only_witness :
  exists L,
    new_lattice (dims 3 3) = Ok L /\
    (exists lr syndromes,
       fst (parse_readout L (lit "000001001 10100101 00000000")
              (Some (lit "X"))) = Ok (lr, syndromes) /\
       forall e, In e (hits_Z syndromes) ->
                 ~ (time e == inject_Z (Z.of_nat (length [lit "00000000"])))%Q) /\
    (exists lr syndromes,
       fst (parse_readout L (lit "000001001 10100101 00000000")
              (Some (lit "Z"))) = Ok (lr, syndromes) /\
       forall e, In e (hits_X syndromes) ->
                 ~ (time e == inject_Z (Z.of_nat (length [lit "00000000"])))%Q).
Proof.
  apply (last_step_measured_axis_only 3 3 (lit "000001001 10100101 00000000")
           (lit "000001001") (lit "10100101") [lit "00000000"]);
    [reflexivity | reflexivity | lia | lia | reflexivity | reflexivity
    | reflexivity | reflexivity | reflexivity | reflexivity].
Defined.

(** ** Registers, the blueprint of the circuit and the rounds *)

Lemma str_eqb_refl (a : str) : str_eqb a a = true.
Proof. unfold str_eqb. destruct (list_eq_dec ascii_dec a a); congruence. Qed.

Lemma dict_get_set_same {V : Type} (dc : dict V) (k : str) (v : V) :
  dict_get (dict_set dc k v) k = Done v.
Proof.
  induction dc as [|[k' v'] dc IH]; cbn.
  - now rewrite str_eqb_refl.
  - destruct (str_eqb k' k) eqn:E; cbn; rewrite E; [reflexivity | exact IH].
Qed.

Lemma dict_get_set_other {V : Type} (dc : dict V) (k k' : str) (v : V) :
  str_eqb k k' = false ->
  dict_get (dict_set dc k v) k' = dict_get dc k'.
Proof.
  intros Hne. induction dc as [|[k0 v0] dc IH]; cbn.
  - now rewrite Hne.
  - destruct (str_eqb k0 k) eqn:E; cbn.
    + unfold str_eqb in E. destruct (list_eq_dec ascii_dec k0 k); [|discriminate].
      subst k0. now rewrite Hne.
    + destruct (str_eqb k0 k'); [reflexivity | exact IH].
Qed.

Lemma forM_pure {A B : Type} (f : A -> outcome B) (g : A -> B) (l : list A) :
  (forall x, In x l -> f x = Done (g x)) -> forM f l = Done (map g l).
Proof.
  induction l as [|x l IH]; intros Hf; [reflexivity|].
  cbn [forM map]. rewrite (Hf x (or_introl eq_refl)). cbn [and_then].
  rewrite IH; [reflexivity|]. intros y Hy. apply Hf. now right.
Qed.

Lemma reg_getitem_in_range (r : Register) (i : Z) :
  0 <= i < reg_size r -> reg_getitem r (Some i) = Done (r, i).
Proof.
  intros Hi. unfold reg_getitem, bits.
  rewrite (getitem_nth_error _ i (r, i)); [reflexivity | lia |].
  rewrite nth_error_map, nth_error_range by exact Hi. reflexivity.
Qed.

(** The registers of a lattice with X and Z plaquettes. *)
Lemma gen_registers_generated (nm : str) (dh dw : Z) (q0 : dict Register) :
  0 <= dh * dw -> 0 < num_syn_X dh dw -> 0 < num_syn_Z dh dw ->
  _gen_registers nm (generated dh dw) q0 =
  Done (dict_set
          (dict_set
             (dict_set
                (dict_set q0 (lit "data") (register_of nm "data" (dh * dw)))
                (lit "mz") (register_of nm "mz" (num_syn_Z dh dw)))
             (lit "mx") (register_of nm "mx" (num_syn_X dh dw)))
          (lit "ancilla") (register_of nm "ancilla" 1)).
Proof.
  intros Hd Hx Hz. unfold _gen_registers, QuantumRegister, generated.
  cbn [num_data num_syn]. rewrite getitem_pair_0, getitem_pair_1.
  fold (num_syn_X dh dw) (num_syn_Z dh dw).
  destruct (Z.ltb_spec (dh * dw) 0); [lia|]. cbn [lift and_then].
  destruct (Z.ltb_spec 0 (num_syn_Z dh dw)); [|lia].
  destruct (Z.ltb_spec (num_syn_Z dh dw) 0); [lia|]. cbn [and_then].
  destruct (Z.ltb_spec 0 (num_syn_X dh dw)); [|lia].
  destruct (Z.ltb_spec (num_syn_X dh dw) 0); [lia|]. cbn [and_then].
  reflexivity.
Qed.

Lemma plaquette_qubits_wired (q : dict Register) (key : str) (reg data : Register)
    (pl : plaquette) (i : Z) (rest : list (option Z)) :
  dict_get q key = Done reg -> dict_get q (lit "data") = Done data ->
  pl = Some i :: rest -> 0 <= i < reg_size reg ->
  (forall idx, In (Some idx) (slice_from 1 pl) -> 0 <= idx < reg_size data) ->
  plaquette_qubits q key pl = Done (wired reg data pl).
Proof.
  intros Hreg Hdata -> Hi Hidx. unfold plaquette_qubits.
  rewrite Hreg, getitem_head. cbn [lift and_then].
  rewrite (reg_getitem_in_range reg i Hi). cbn [and_then].
  rewrite slice_from_1_cons in *.
  rewrite (forM_pure _ (bit_of data)).
  - reflexivity.
  - intros [idx|] Hin; [|reflexivity].
    rewrite Hdata. cbn [and_then].
    rewrite (reg_getitem_in_range data idx (Hidx idx Hin)). reflexivity.
Qed.

Lemma plaquette_x_head (dh dw per syn : Z) (pl : plaquette) :
  per <> 0 -> plaquette_x dh dw per syn = Ok pl ->
  exists rest, pl = Some syn :: rest.
Proof.
  intros Hper E. rewrite plaquette_x_cases in E by exact Hper.
  apply Ok_inj in E. subst pl. cbv zeta.
  destruct (_ =? 0); [|destruct (_ =? dh)]; eexists; reflexivity.
Qed.

Lemma plaquette_z_head (dw per syn : Z) (pl : plaquette) :
  per <> 0 -> plaquette_z dw per syn = Ok pl ->
  exists rest, pl = Some syn :: rest.
Proof.
  intros Hper E. rewrite plaquette_z_cases in E by exact Hper.
  apply Ok_inj in E. subst pl. cbv zeta.
  destruct (_ && _); [|destruct (_ && _)]; eexists; reflexivity.
Qed.

Lemma num_syn_positive (dh dw : Z) :
  Z.odd dh = true -> Z.odd dw = true -> 3 <= dh -> 3 <= dw ->
  0 < num_syn_X dh dw /\ 0 < num_syn_Z dh dw /\
  num_syn_X dh dw + num_syn_Z dh dw = dh * dw - 1.
Proof.
  intros Hh Hw Hh3 Hw3. unfold num_syn_X, num_syn_Z.
  apply odd_decompose in Hh as (n & ->). apply odd_decompose in Hw as (m & ->).
  rewrite !half_odd_succ. nia.
Qed.

Lemma wired_in_range (reg data : Register) (pl : plaquette) (syn : Z)
    (rest : list (option Z)) (r : Register) (i : Z) :
  pl = Some syn :: rest -> 0 <= syn < reg_size reg ->
  (forall idx, In (Some idx) (slice_from 1 pl) -> 0 <= idx < reg_size data) ->
  In (Some (r, i)) (wired reg data pl) ->
  (r = reg \/ r = data) /\ 0 <= i < reg_size r.
Proof.
  intros -> Hsyn Hidx. rewrite slice_from_1_cons in Hidx.
  cbn [wired bit_of option_map In]. intros [E|Hin].
  - injection E as <- <-. auto.
  - apply in_map_iff in Hin as ([idx|] & E & Hin); [|discriminate].
    injection E as <- <-. auto.
Qed.

Section Wiring.

Variable Stabilizer : Type.
Variable shortnames : dict Stabilizer.
Variables cx cz : Stabilizer.
Hypothesis Hcx : dict_get shortnames (lit "mx") = Done cx.
Hypothesis Hcz : dict_get shortnames (lit "mz") = Done cz.

Variable nm : str.
Variable q0 : dict Register.
Variables dh dw : Z.
Hypothesis Hh : Z.odd dh = true.
Hypothesis Hw : Z.odd dw = true.
Hypothesis Hh3 : 3 <= dh.
Hypothesis Hw3 : 3 <= dw.

Variables gx gz : list plaquette.
Hypothesis Egx :
  mapM (plaquette_x dh dw ((dw - 1) / 2)) (range (((dh + 1) / 2) * (dw - 1)))
  = Ok gx.
Hypothesis Egz :
  mapM (plaquette_z dw ((dw + 1) / 2)) (range (((dw + 1) / 2) * (dh - 1)))
  = Ok gz.

Lemma gx_plaquette (pl : plaquette) :
  In pl gx ->
  exists syn rest,
    pl = Some syn :: rest /\ 0 <= syn < num_syn_X dh dw /\
    forall idx, In (Some idx) (slice_from 1 pl) -> 0 <= idx < dh * dw.
Proof.
  intros Hpl. destruct (mapM_In _ _ _ _ Egx Hpl) as (syn & Hsyn & Epl).
  assert (Hper : (dw - 1) / 2 <> 0)
    by (apply (per_row_x_nonzero dh dw syn Hw Hsyn)).
  destruct (plaquette_x_head _ _ _ _ _ Hper Epl) as (rest & Erest).
  exists syn, rest. split; [exact Erest|]. split.
  - apply In_range in Hsyn. exact Hsyn.
  - apply (plaquette_x_in_range dh dw syn pl Hh Hw); try lia; assumption.
Qed.

Lemma gz_plaquette (pl : plaquette) :
  In pl gz ->
  exists syn rest,
    pl = Some syn :: rest /\ 0 <= syn < num_syn_Z dh dw /\
    forall idx, In (Some idx) (slice_from 1 pl) -> 0 <= idx < dh * dw.
Proof.
  intros Hpl. destruct (mapM_In _ _ _ _ Egz Hpl) as (syn & Hsyn & Epl).
  assert (Hper : (dw + 1) / 2 <> 0)
    by (apply (per_row_z_nonzero dh dw syn Hw Hsyn)).
  destruct (plaquette_z_head _ _ _ _ Hper Epl) as (rest & Erest).
  exists syn, rest. split; [exact Erest|]. split.
  - apply In_range in Hsyn. exact Hsyn.
  - apply (plaquette_z_in_range dh dw syn pl Hh Hw); try lia; assumption.
Qed.

Lemma blueprint_built :
  exists q,
    Z.of_nat (length gx) = num_syn_X dh dw /\
    Z.of_nat (length gz) = num_syn_Z dh dw /\
    _gen_registers nm (generated dh dw) q0 = Done q /\
    dict_get q (lit "mx") = Done (register_of nm "mx" (num_syn_X dh dw)) /\
    _gen_qubit_indices_and_stabilizers Stabilizer shortnames (generated dh dw) q =
      Done ({| mx := gx; mz := gz |},
            (map (wired (register_of nm "mx" (num_syn_X dh dw))
                        (register_of nm "data" (dh * dw))) gx ++
             map (wired (register_of nm "mz" (num_syn_Z dh dw))
                        (register_of nm "data" (dh * dw))) gz,
             map (fun _ => cx) gx ++ map (fun _ => cz) gz)).
Proof.
  destruct (num_syn_positive dh dw Hh Hw Hh3 Hw3) as (Hx & Hz & _).
  pose proof (mapM_length _ _ _ Egx) as Hgx. rewrite range_length in Hgx.
  pose proof (mapM_length _ _ _ Egz) as Hgz. rewrite range_length in Hgz.
  fold (num_syn_X dh dw) in Hgx. fold (num_syn_Z dh dw) in Hgz.
  eexists. split; [lia|]. split; [lia|].
  split; [apply gen_registers_generated; [nia | exact Hx | exact Hz]|].
  set (D := register_of nm "data" (dh * dw)).
  set (MZ := register_of nm "mz" (num_syn_Z dh dw)).
  set (MX := register_of nm "mx" (num_syn_X dh dw)).
  set (q := dict_set _ (lit "ancilla") _).
  assert (Hmx : dict_get q (lit "mx") = Done MX).
  { unfold q. rewrite dict_get_set_other by reflexivity.
    apply dict_get_set_same. }
  assert (Hmz : dict_get q (lit "mz") = Done MZ).
  { unfold q. rewrite !dict_get_set_other by reflexivity.
    apply dict_get_set_same. }
  assert (Hdata : dict_get q (lit "data") = Done D).
  { unfold q. rewrite !dict_get_set_other by reflexivity.
    apply dict_get_set_same. }
  split; [exact Hmx|].
  unfold _gen_qubit_indices_and_stabilizers.
  rewrite set_geometry_generated, Egx, Egz.
  cbn [bind lift and_then forM stabilizer_plaquettes mx mz].
  rewrite Hcx. cbn [and_then].
  rewrite (forM_pure _ (wired MX D)).
  - cbn [and_then]. rewrite Hcz. cbn [and_then].
    rewrite (forM_pure _ (wired MZ D)).
    + cbn [and_then map fst snd concat]. rewrite !app_nil_r. reflexivity.
    + intros pl Hpl.
      destruct (gz_plaquette pl Hpl) as (syn & rest & Erest & Hsyn & Hidx).
      exact (plaquette_qubits_wired q (lit "mz") MZ D pl syn rest Hmz Hdata
               Erest Hsyn Hidx).
  - intros pl Hpl.
    destruct (gx_plaquette pl Hpl) as (syn & rest & Erest & Hsyn & Hidx).
    exact (plaquette_qubits_wired q (lit "mx") MX D pl syn rest Hmx Hdata
             Erest Hsyn Hidx).
Qed.

End Wiring.

Lemma list_ascii_of_string_inj (a b : string) :
  list_ascii_of_string a = list_ascii_of_string b -> a = b.
Proof.
  intros E. rewrite <- (string_of_list_ascii_of_string a).
  rewrite <- (string_of_list_ascii_of_string b). now rewrite E.
Qed.

Lemma to_int_not_nil (b : Z) :
  Z.to_int b <> Decimal.Pos Decimal.Nil /\ Z.to_int b <> Decimal.Neg Decimal.Nil.
Proof.
  split; intros E; pose proof (DecimalZ.of_to b) as Hb; rewrite E in Hb;
    cbn in Hb; subst b; discriminate E.
Qed.

Lemma str_of_int_inj (a b : Z) : str_of_int a = str_of_int b -> a = b.
Proof.
  unfold str_of_int. intros E. apply list_ascii_of_string_inj in E.
  apply (f_equal NilZero.int_of_string) in E.
  rewrite !NilZero.isi in E by apply to_int_not_nil.
  apply Some_inj in E. apply DecimalZ.to_int_inj. exact E.
Qed.

Lemma firstn_seq_min (n start len : nat) :
  firstn n (seq start len) = seq start (Nat.min n len).
Proof.
  revert start len. induction n as [|n IH]; intros start [|len]; try reflexivity.
  cbn. f_equal. apply IH.
Qed.

(** The bits that a slice of a register selects. *)
Lemma slice_bits (r : Register) (a b : Z) :
  0 <= a <= b -> b <= reg_size r ->
  slice a b (bits r) =
  map (fun i => (r, Z.of_nat i)) (seq (Z.to_nat a) (Z.to_nat (b - a))).
Proof.
  intros Hab Hb. unfold slice, slice_bound, bits, range.
  destruct (Z.ltb_spec a 0); [lia|]. destruct (Z.ltb_spec b 0); [lia|].
  rewrite map_map, skipn_map, firstn_map, skipn_seq, firstn_seq_min.
  f_equal. f_equal; lia.
Qed.

Lemma slice_bits_In (r : Register) (a b j : Z) :
  0 <= a <= b -> b <= reg_size r ->
  In (r, j) (slice a b (bits r)) <-> a <= j < b.
Proof.
  intros Hab Hb. rewrite slice_bits by assumption.
  rewrite in_map_iff. split.
  - intros (i & E & Hi). apply in_seq in Hi. injection E as <-. lia.
  - intros Hj. exists (Z.to_nat j). split; [f_equal; lia|]. apply in_seq. lia.
Qed.

Lemma slice_bits_length (r : Register) (a b : Z) :
  0 <= a <= b -> b <= reg_size r ->
  Z.of_nat (length (slice a b (bits r))) = b - a.
Proof.
  intros Hab Hb. rewrite slice_bits, length_map, length_seq by assumption. lia.
Qed.

Lemma int_digits_ones (k : nat) (acc : Z) :
  int_digits 2 acc (repeat "1"%char k)
  = Ok (acc * 2 ^ Z.of_nat k + Z.ones (Z.of_nat k)).
Proof.
  revert acc. induction k as [|k IH]; intros acc.
  - cbn. f_equal. lia.
  - cbn [repeat int_digits digit_of_char]. 
    change (digit_of_char "1") with (Some 1). cbn [Z.ltb Z.compare].
    change (1 <? 2) with true. cbv iota. rewrite IH. apply f_equal.
    rewrite !Z.ones_equiv, Nat2Z.inj_succ, Z.pow_succ_r by lia.
    unfold Z.pred. ring.
Qed.

Lemma int_digits_zeros (k : nat) (acc : Z) :
  int_digits 2 acc (repeat "0"%char k) = Ok (acc * 2 ^ Z.of_nat k).
Proof.
  revert acc. induction k as [|k IH]; intros acc.
  - cbn. f_equal. lia.
  - cbn [repeat int_digits].
    change (digit_of_char "0") with (Some 0). change (0 <? 2) with true.
    cbv iota. rewrite IH. apply f_equal.
    rewrite Nat2Z.inj_succ, Z.pow_succ_r by lia. ring.
Qed.

Lemma repeat_seq_char (c : ascii) (n : Z) :
  repeat_seq [c] n = repeat c (Z.to_nat n).
Proof. unfold repeat_seq. now rewrite <- repeat_to_concat. Qed.

(** The masks select the bit positions [nz .. nz+nx-1] and [0 .. nz-1]. *)
Lemma mask_x_value (nx nz : Z) :
  0 < nx -> 0 <= nz -> mask_x nx nz = Ok (Z.shiftl (Z.ones nx) nz).
Proof.
  intros Hx Hz. unfold mask_x, lit. cbn [list_ascii_of_string].
  rewrite !repeat_seq_char.
  destruct (Z.to_nat nx) as [|k] eqn:Ek; [lia|].
  change (int_base 2 (repeat "1"%char (S k) ++ repeat "0"%char (Z.to_nat nz)))
    with (int_digits 2 0 (repeat "1"%char (S k) ++ repeat "0"%char (Z.to_nat nz))).
  rewrite int_digits_app, int_digits_ones. cbn [bind].
  rewrite int_digits_zeros, <- Ek, !Z2Nat.id by lia.
  rewrite Z.shiftl_mul_pow2 by lia. f_equal.
Qed.

Lemma mask_z_value (nz : Z) : 0 < nz -> mask_z nz = Ok (Z.ones nz).
Proof.
  intros Hz. unfold mask_z, lit. cbn [list_ascii_of_string].
  rewrite repeat_seq_char.
  destruct (Z.to_nat nz) as [|k] eqn:Ek; [lia|].
  change (int_base 2 (repeat "1"%char (S k)))
    with (int_digits 2 0 (repeat "1"%char (S k))).
  rewrite int_digits_ones, <- Ek, Z2Nat.id by lia. reflexivity.
Qed.

(** One round, on an object whose registers fit its parameters. *)
Lemma stabilize_step (self : RotatedQubit) (nx nz : Z) (mxr mzr : Register) :
  num_syn (lattice_params self) = [nx; nz] -> 0 <= nx + nz ->
  (0 < nx -> dict_get (lattice_qregisters self) (lit "mx") = Done mxr) ->
  (0 < nz -> dict_get (lattice_qregisters self) (lit "mz") = Done mzr) ->
  let t := T (lattice_params self) + 1 in
  let creg := syndrome_register (name self) (nx + nz) t in
  stabilize self =
  Done {| name := name self;
          lattice_params := with_T (lattice_params self) t;
          lattice_qregisters := lattice_qregisters self;
          lattice_cregisters :=
            dict_set (lattice_cregisters self) (syndrome_key t) creg;
          circ :=
            circ self ++ [AddRegister creg; Entangle]
            ++ (if 0 <? nz then [Measure mzr (slice 0 nz (bits creg))] else [])
            ++ (if 0 <? nx
                then [Measure mxr (slice nz (nz + nx) (bits creg))] else [])
            ++ (if 0 <? nz then [Reset mzr] else [])
            ++ (if 0 <? nx then [Reset mxr] else []) ++ [Barrier] |}.
Proof.
  intros Hsyn Hsum Hmx Hmz t creg. unfold stabilize, ClassicalRegister.
  rewrite Hsyn, getitem_pair_0, getitem_pair_1. cbn [lift and_then].
  destruct (Z.ltb_spec (nx + nz) 0); [lia|]. cbn [and_then].
  fold t. fold creg.
  destruct (Z.ltb_spec 0 nz) as [Hz|Hz]; destruct (Z.ltb_spec 0 nx) as [Hx|Hx];
    try rewrite (Hmz Hz); try rewrite (Hmx Hx); cbn [and_then];
    rewrite ?app_nil_r, <- ?app_assoc; reflexivity.
Qed.

Lemma syndrome_key_inj (a b : Z) : syndrome_key a = syndrome_key b -> a = b.
Proof.
  unfold syndrome_key. intros E. apply app_inv_head in E.
  apply str_of_int_inj. exact E.
Qed.

Lemma with_T_same (p : Params) : with_T p (T p) = p.
Proof. destruct p. reflexivity. Qed.

(** Rounds only add classical registers: after [n] rounds from time [T],
    the rounds [T+1 .. T+n] have their registers and every other key is as
    before. *)
Lemma stabilize_rounds_spec (nx nz : Z) (mxr mzr : Register) (n : nat) :
  forall self : RotatedQubit,
    num_syn (lattice_params self) = [nx; nz] -> 0 <= nx + nz ->
    (0 < nx -> dict_get (lattice_qregisters self) (lit "mx") = Done mxr) ->
    (0 < nz -> dict_get (lattice_qregisters self) (lit "mz") = Done mzr) ->
    exists self',
      stabilize_rounds n self = Done self' /\
      name self' = name self /\
      lattice_params self' =
        with_T (lattice_params self) (T (lattice_params self) + Z.of_nat n) /\
      lattice_qregisters self' = lattice_qregisters self /\
      (forall j, T (lattice_params self) < j <= T (lattice_params self) + Z.of_nat n ->
         dict_get (lattice_cregisters self') (syndrome_key j)
         = Done (syndrome_register (name self) (nx + nz) j)) /\
      (forall k,
         (forall j, T (lattice_params self) < j
                    <= T (lattice_params self) + Z.of_nat n ->
                    k <> syndrome_key j) ->
         dict_get (lattice_cregisters self') k
         = dict_get (lattice_cregisters self) k) /\
      exists added, circ self' = circ self ++ added.
Proof.
  induction n as [|n IH]; intros self Hsyn Hsum Hmx Hmz.
  - exists self. cbn [stabilize_rounds]. rewrite Z.add_0_r, with_T_same.
    repeat (split; [reflexivity|]).
    split; [intros j Hj; lia|]. split; [reflexivity|].
    exists []. now rewrite app_nil_r.
  - cbn [stabilize_rounds].
    rewrite (stabilize_step self nx nz mxr mzr Hsyn Hsum Hmx Hmz).
    cbn [and_then].
    set (t := T (lattice_params self) + 1).
    set (self1 := {| name := name self |}).
    destruct (IH self1 Hsyn Hsum Hmx Hmz)
      as (self' & E & Hname & Hpar & Hq & Hnew & Hold & added & Hcirc).
    cbn [self1 name lattice_params lattice_qregisters lattice_cregisters circ
         with_T T] in Hname, Hpar, Hq, Hnew, Hold, Hcirc.
    exists self'. split; [exact E|]. split; [exact Hname|].
    split; [rewrite Hpar; unfold with_T, t; f_equal; lia|].
    split; [exact Hq|]. split; [|split].
    + intros j Hj. destruct (Z.eq_dec j t) as [->|Hne].
      * rewrite Hold; [apply dict_get_set_same|].
        intros j Hj' Ekey. apply syndrome_key_inj in Ekey. lia.
      * apply Hnew. unfold t in *. lia.
    + intros k Hk. rewrite Hold.
      * apply dict_get_set_other. apply str_eqb_neq. intros Ekey.
        apply (Hk t); [unfold t; lia | now symmetry].
      * intros j Hj. apply Hk. unfold t in Hj. lia.
    + eexists. rewrite Hcirc, <- app_assoc. reflexivity.
Qed.

(** The registers of any lattice with a non-negative number of data qubits:
    an axis has its register exactly when it has plaquettes. *)
Lemma gen_registers_lookup (nm : str) (dh dw : Z) (q0 : dict Register) :
  0 <= dh * dw ->
  exists q,
    _gen_registers nm (generated dh dw) q0 = Done q /\
    (0 < num_syn_X dh dw ->
     dict_get q (lit "mx") = Done (register_of nm "mx" (num_syn_X dh dw))) /\
    (0 < num_syn_Z dh dw ->
     dict_get q (lit "mz") = Done (register_of nm "mz" (num_syn_Z dh dw))) /\
    (num_syn_X dh dw <= 0 -> dict_get q (lit "mx") = dict_get q0 (lit "mx")).
Proof.
  intros Hd. unfold _gen_registers, QuantumRegister, generated.
  cbn [num_data num_syn]. rewrite getitem_pair_0, getitem_pair_1.
  fold (num_syn_X dh dw) (num_syn_Z dh dw).
  destruct (Z.ltb_spec (dh * dw) 0); [lia|]. cbn [lift and_then].
  destruct (Z.ltb_spec 0 (num_syn_Z dh dw)) as [Hz|Hz];
    [destruct (Z.ltb_spec (num_syn_Z dh dw) 0); [lia|]|];
    cbn [and_then];
    (destruct (Z.ltb_spec 0 (num_syn_X dh dw)) as [Hx|Hx];
     [destruct (Z.ltb_spec (num_syn_X dh dw) 0); [lia|]|]);
    cbn [and_then]; eexists; (split; [reflexivity|]);
    (split; [intros Hx'; try lia|split; [intros Hz'; try lia|intros Hx'; try lia]]);
    rewrite ?dict_get_set_other by reflexivity;
    try (apply dict_get_set_same); reflexivity.
Qed.

(** X20: on a lattice of odd dimensions at least 3, whose registers
    [_gen_registers] has created, [_gen_qubit_indices_and_stabilizers]
    returns without a KeyError or an index error.  It stores the geometry of
    the lattice and returns one list of qubits and one stabilizer class per
    plaquette, [dh*dw - 1] of each: the X plaquettes first, then the Z
    plaquettes, each wired to the register of its axis (its syndrome qubit)
    and to the data register, at the indices of the geometry.  Every qubit
    of the blueprint lies inside its register. *)
Theorem blueprint_qubits_in_registers (Stabilizer : Type)
    (shortnames : dict Stabilizer) (cx cz : Stabilizer) (nm : str)
    (q0 : dict Register) (dh dw : Z) :
  dict_get shortnames (lit "mx") = Done cx ->
  dict_get shortnames (lit "mz") = Done cz ->
  Z.odd dh = true -> Z.odd dw = true -> 3 <= dh -> 3 <= dw ->
  exists L q qubit_indices stabilizers,
    new_lattice (dims dh dw) = Ok L /\
    _gen_registers nm (params L) q0 = Done q /\
    _gen_qubit_indices_and_stabilizers Stabilizer shortnames (params L) q
      = Done (geometry L, (qubit_indices, stabilizers)) /\
    Z.of_nat (length qubit_indices) = dh * dw - 1 /\
    Z.of_nat (length stabilizers) = dh * dw - 1 /\
    qubit_indices =
      map (wired (register_of nm "mx" (num_syn_X dh dw))
                 (register_of nm "data" (dh * dw))) (mx (geometry L)) ++
      map (wired (register_of nm "mz" (num_syn_Z dh dw))
                 (register_of nm "data" (dh * dw))) (mz (geometry L)) /\
    forall (pl : list (option Bit)) (r : Register) (i : Z),
      In pl qubit_indices -> In (Some (r, i)) pl ->
      (r = register_of nm "mx" (num_syn_X dh dw) \/
       r = register_of nm "mz" (num_syn_Z dh dw) \/
       r = register_of nm "data" (dh * dw)) /\
      0 <= i < reg_size r.
Proof.
  intros Hcx Hcz Hh Hw Hh3 Hw3.
  destruct (new_lattice_built dh dw Hh Hw) as (gx & gz & Egx & Egz & EL).
  destruct (blueprint_built Stabilizer shortnames cx cz Hcx Hcz nm q0 dh dw
              Hh Hw Hh3 Hw3 gx gz Egx Egz)
    as (q & Hgx & Hgz & Eq & _ & Eb).
  destruct (num_syn_positive dh dw Hh Hw Hh3 Hw3) as (_ & _ & Hsum).
  eexists. exists q. eexists. eexists.
  split; [exact EL|]. cbn [params geometry mx mz].
  split; [exact Eq|]. split; [exact Eb|].
  split; [rewrite length_app, !length_map; lia|].
  split; [rewrite length_app, !length_map; lia|].
  split; [reflexivity|].
  intros pl r i Hpl Hin. apply in_app_or in Hpl as [Hpl|Hpl];
    apply in_map_iff in Hpl as (pl0 & <- & Hpl0).
  - destruct (gx_plaquette dh dw Hh Hw Hh3 Hw3 gx Egx pl0 Hpl0)
      as (syn & rest & Erest & Hsyn & Hidx).
    destruct (wired_in_range (register_of nm "mx" (num_syn_X dh dw))
                (register_of nm "data" (dh * dw)) pl0 syn rest r i
                Erest Hsyn Hidx Hin)
      as ([->| ->] & Hi); auto.
  - destruct (gz_plaquette dh dw Hh Hw Hh3 Hw3 gz Egz pl0 Hpl0)
      as (syn & rest & Erest & Hsyn & Hidx).
    destruct (wired_in_range (register_of nm "mz" (num_syn_Z dh dw))
                (register_of nm "data" (dh * dw)) pl0 syn rest r i
                Erest Hsyn Hidx Hin)
      as ([->| ->] & Hi); auto.
Qed.

Lemma blueprint_qubits_in_registers_witness :
  exists L q qubit_indices stabilizers,
    new_lattice (dims 3 5) = Ok L /\
    _gen_registers (lit "tq") (params L) [] = Done q /\
    _gen_qubit_indices_and_stabilizers bool
      [(lit "mx", true); (lit "mz", false)] (params L) q
      = Done (geometry L, (qubit_indices, stabilizers)) /\
    Z.of_nat (length qubit_indices) = 3 * 5 - 1 /\
    Z.of_nat (length stabilizers) = 3 * 5 - 1 /\
    qubit_indices =
      map (wired (register_of (lit "tq") "mx" (num_syn_X 3 5))
                 (register_of (lit "tq") "data" (3 * 5))) (mx (geometry L)) ++
      map (wired (register_of (lit "tq") "mz" (num_syn_Z 3 5))
                 (register_of (lit "tq") "data" (3 * 5))) (mz (geometry L)) /\
    forall (pl : list (option Bit)) (r : Register) (i : Z),
      In pl qubit_indices -> In (Some (r, i)) pl ->
      (r = register_of (lit "tq") "mx" (num_syn_X 3 5) \/
       r = register_of (lit "tq") "mz" (num_syn_Z 3 5) \/
       r = register_of (lit "tq") "data" (3 * 5)) /\
      0 <= i < reg_size r.
Proof.
  apply (blueprint_qubits_in_registers bool
           [(lit "mx", true); (lit "mz", false)] true false (lit "tq") [] 3 5);
    try reflexivity; lia.
Defined.

(** X21: on such a lattice [entangle_x] hands to [entangle] exactly the X
    plaquettes of the blueprint, each with the stabilizer class of "mx", and
    [entangle_z] exactly the Z plaquettes, each with the class of "mz": the
    blueprint is the first followed by the second, and nothing is entangled
    twice or left out. *)
Theorem entangle_splits_by_axis (Stabilizer : Type)
    (shortnames : dict Stabilizer) (cx cz : Stabilizer) (nm : str)
    (q0 : dict Register) (dh dw : Z) :
  dict_get shortnames (lit "mx") = Done cx ->
  dict_get shortnames (lit "mz") = Done cz ->
  Z.odd dh = true -> Z.odd dw = true -> 3 <= dh -> 3 <= dw ->
  exists L q qubit_indices stabilizers,
    new_lattice (dims dh dw) = Ok L /\
    _gen_registers nm (params L) q0 = Done q /\
    _gen_qubit_indices_and_stabilizers Stabilizer shortnames (params L) q
      = Done (geometry L, (qubit_indices, stabilizers)) /\
    exists qx sx qz sz,
      entangle_x Stabilizer q qubit_indices stabilizers = Done (qx, sx) /\
      entangle_z Stabilizer q qubit_indices stabilizers = Done (qz, sz) /\
      qubit_indices = qx ++ qz /\ stabilizers = sx ++ sz /\
      qx = map (wired (register_of nm "mx" (num_syn_X dh dw))
                      (register_of nm "data" (dh * dw))) (mx (geometry L)) /\
      qz = map (wired (register_of nm "mz" (num_syn_Z dh dw))
                      (register_of nm "data" (dh * dw))) (mz (geometry L)) /\
      sx = map (fun _ => cx) (mx (geometry L)) /\
      sz = map (fun _ => cz) (mz (geometry L)).
Proof.
  intros Hcx Hcz Hh Hw Hh3 Hw3.
  destruct (new_lattice_built dh dw Hh Hw) as (gx & gz & Egx & Egz & EL).
  destruct (blueprint_built Stabilizer shortnames cx cz Hcx Hcz nm q0 dh dw
              Hh Hw Hh3 Hw3 gx gz Egx Egz)
    as (q & Hgx & Hgz & Eq & Hmx & Eb).
  eexists. exists q. eexists. eexists.
  split; [exact EL|]. cbn [params geometry mx mz].
  split; [exact Eq|]. split; [exact Eb|].
  eexists. eexists. eexists. eexists.
  unfold entangle_x, entangle_z. rewrite Hmx. cbn [and_then register_of reg_size].
  rewrite !slice_to_app_exact, !slice_from_app_exact
    by (rewrite length_map; exact Hgx).
  repeat (split; [reflexivity|]). reflexivity.
Qed.

Lemma entangle_splits_by_axis_witness :
  exists L q qubit_indices stabilizers,
    new_lattice (dims 3 5) = Ok L /\
    _gen_registers (lit "tq") (params L) [] = Done q /\
    _gen_qubit_indices_and_stabilizers bool
      [(lit "mx", true); (lit "mz", false)] (params L) q
      = Done (geometry L, (qubit_indices, stabilizers)) /\
    exists qx sx qz sz,
      entangle_x bool q qubit_indices stabilizers = Done (qx, sx) /\
      entangle_z bool q qubit_indices stabilizers = Done (qz, sz) /\
      qubit_indices = qx ++ qz /\ stabilizers = sx ++ sz /\
      qx = map (wired (register_of (lit "tq") "mx" (num_syn_X 3 5))
                      (register_of (lit "tq") "data" (3 * 5)))
               (mx (geometry L)) /\
      qz = map (wired (register_of (lit "tq") "mz" (num_syn_Z 3 5))
                      (register_of (lit "tq") "data" (3 * 5)))
               (mz (geometry L)) /\
      sx = map (fun _ => true) (mx (geometry L)) /\
      sz = map (fun _ => false) (mz (geometry L)).
Proof.
  apply (entangle_splits_by_axis bool
           [(lit "mx", true); (lit "mz", false)] true false (lit "tq") [] 3 5);
    try reflexivity; lia.
Defined.

(** X22: a lattice of width 1 (odd height) passes validation and gets its
    registers, but it has no X plaquette and so no register "mx": unless the
    dict held one before, [entangle_x] and [entangle_z] both raise KeyError,
    whatever blueprint they are given. *)
Theorem entangle_needs_x_register (Stabilizer : Type) (nm : str)
    (q0 : dict Register) (dh : Z)
    (qubit_indices : list (list (option Bit))) (stabilizers : list Stabilizer) :
  Z.odd dh = true -> 1 <= dh ->
  dict_get q0 (lit "mx") = Fail KeyError ->
  exists p q,
    _params_validate_and_generate (dims dh 1) = Ok p /\
    _gen_registers nm p q0 = Done q /\
    entangle_x Stabilizer q qubit_indices stabilizers = Fail KeyError /\
    entangle_z Stabilizer q qubit_indices stabilizers = Fail KeyError.
Proof.
  intros Hh Hh1 Hq0.
  destruct (gen_registers_lookup nm dh 1 q0 ltac:(lia)) as (q & Eq & _ & _ & Hmx).
  exists (generated dh 1), q. rewrite validate_dims, Hh.
  split; [reflexivity|]. split; [exact Eq|].
  assert (Hx : num_syn_X dh 1 <= 0) by (unfold num_syn_X; lia).
  unfold entangle_x, entangle_z. rewrite (Hmx Hx), Hq0. split; reflexivity.
Qed.

Lemma entangle_needs_x_register_witness :
  exists p q,
    _params_validate_and_generate (dims 3 1) = Ok p /\
    _gen_registers (lit "tq") p [] = Done q /\
    entangle_x bool q [] [] = Fail KeyError /\
    entangle_z bool q [] [] = Fail KeyError.
Proof.
  apply (entangle_needs_x_register bool (lit "tq") [] 3 [] []);
    [reflexivity | lia | reflexivity].
Defined.

Lemma num_syn_sum (dh dw : Z) :
  Z.odd dh = true -> Z.odd dw = true ->
  num_syn_X dh dw + num_syn_Z dh dw = dh * dw - 1.
Proof.
  intros Hh Hw. unfold num_syn_X, num_syn_Z.
  apply odd_decompose in Hh as (n & ->). apply odd_decompose in Hw as (m & ->).
  rewrite !half_odd_succ. nia.
Qed.

(** X23: on a lattice of odd positive dimensions with its registers,
    [n] rounds of [stabilize] all return; they advance [T] from -1 to
    [n - 1], leave the other parameters and the quantum registers as they
    were, only append to the circuit, and each round [j] keeps its own
    classical register of [dh*dw - 1] bits under the key "syndrome<j>":
    no later round overwrites it. *)
Theorem rounds_keep_their_registers (nm : str) (q0 c0 : dict Register)
    (log : list Instruction) (dh dw : Z) (n : nat) :
  Z.odd dh = true -> Z.odd dw = true -> 1 <= dh -> 1 <= dw ->
  exists p q self',
    _params_validate_and_generate (dims dh dw) = Ok p /\
    _gen_registers nm p q0 = Done q /\
    stabilize_rounds n {| name := nm; lattice_params := p;
                          lattice_qregisters := q; lattice_cregisters := c0;
                          circ := log |} = Done self' /\
    lattice_params self' = with_T p (Z.of_nat n - 1) /\
    lattice_qregisters self' = q /\
    (exists added, circ self' = log ++ added) /\
    forall j, 0 <= j < Z.of_nat n ->
      dict_get (lattice_cregisters self') (syndrome_key j)
      = Done (syndrome_register nm (dh * dw - 1) j).
Proof.
  intros Hh Hw Hh1 Hw1.
  destruct (gen_registers_lookup nm dh dw q0 ltac:(nia))
    as (q & Eq & Hmx & Hmz & _).
  pose proof (num_syn_sum dh dw Hh Hw) as Hsum.
  destruct (stabilize_rounds_spec (num_syn_X dh dw) (num_syn_Z dh dw)
              (register_of nm "mx" (num_syn_X dh dw))
              (register_of nm "mz" (num_syn_Z dh dw)) n
              {| name := nm; lattice_params := generated dh dw;
                 lattice_qregisters := q; lattice_cregisters := c0;
                 circ := log |}
              eq_refl ltac:(nia) Hmx Hmz)
    as (self' & E & _ & Hpar & Hq & Hnew & _ & Hcirc).
  cbn [name lattice_params lattice_qregisters lattice_cregisters circ
       generated T] in Hpar, Hq, Hnew, Hcirc.
  exists (generated dh dw), q, self'. rewrite validate_dims, Hh, Hw.
  split; [reflexivity|]. split; [exact Eq|]. split; [exact E|].
  split; [rewrite Hpar; unfold with_T; cbn [T generated]; f_equal; lia|].
  split; [exact Hq|]. split; [exact Hcirc|].
  intros j Hj. rewrite <- Hsum. apply Hnew. lia.
Qed.

Lemma rounds_keep_their_registers_witness :
  exists p q self',
    _params_validate_and_generate (dims 3 1) = Ok p /\
    _gen_registers (lit "tq") p [] = Done q /\
    stabilize_rounds 4 {| name := lit "tq"; lattice_params := p;
                          lattice_qregisters := q; lattice_cregisters := [];
                          circ := [] |} = Done self' /\
    lattice_params self' = with_T p (Z.of_nat 4 - 1) /\
    lattice_qregisters self' = q /\
    (exists added, circ self' = [] ++ added) /\
    forall j, 0 <= j < Z.of_nat 4 ->
      dict_get (lattice_cregisters self') (syndrome_key j)
      = Done (syndrome_register (lit "tq") (3 * 1 - 1) j).
Proof.
  apply (rounds_keep_their_registers (lit "tq") [] [] [] 3 1 4);
    try reflexivity; lia.
Defined.

(** X24: on a lattice of odd dimensions at least 3 one round of
    [stabilize] appends, in this order: the new classical register, the
    entangling step, the measurement of the register "mz", that of "mx", the
    two resets and a barrier.  Each measurement has as many classical bits as
    its register has qubits, and the classical bits it writes are the bit
    positions that the mask of the same axis in [parse_readout] selects:
    bit [j] of [mask_z] is set exactly when Z is measured into bit [j], and
    bit [j] of [mask_x] exactly when X is. *)
Theorem measured_fields_match_masks (nm : str) (q0 c0 : dict Register)
    (log : list Instruction) (dh dw t : Z) :
  Z.odd dh = true -> Z.odd dw = true -> 3 <= dh -> 3 <= dw ->
  exists q self' creg zbits xbits m_x m_z,
    _gen_registers nm (generated dh dw) q0 = Done q /\
    stabilize {| name := nm; lattice_params := with_T (generated dh dw) t;
                 lattice_qregisters := q; lattice_cregisters := c0;
                 circ := log |} = Done self' /\
    circ self' =
      log ++ [AddRegister creg; Entangle;
              Measure (register_of nm "mz" (num_syn_Z dh dw)) zbits;
              Measure (register_of nm "mx" (num_syn_X dh dw)) xbits;
              Reset (register_of nm "mz" (num_syn_Z dh dw));
              Reset (register_of nm "mx" (num_syn_X dh dw));
              Barrier] /\
    creg = syndrome_register nm (dh * dw - 1) (t + 1) /\
    Z.of_nat (length zbits) = num_syn_Z dh dw /\
    Z.of_nat (length xbits) = num_syn_X dh dw /\
    mask_x (num_syn_X dh dw) (num_syn_Z dh dw) = Ok m_x /\
    mask_z (num_syn_Z dh dw) = Ok m_z /\
    (forall v, x_syndromes (num_syn_X dh dw) (num_syn_Z dh dw) [v]
               = Ok [Z.shiftr (Z.land v m_x) (num_syn_Z dh dw)]) /\
    (forall v, z_syndromes (num_syn_Z dh dw) [v] = Ok [Z.land v m_z]) /\
    forall j, 0 <= j ->
      (Z.testbit m_x j = true <-> In (creg, j) xbits) /\
      (Z.testbit m_z j = true <-> In (creg, j) zbits).
Proof.
  intros Hh Hw Hh3 Hw3.
  destruct (num_syn_positive dh dw Hh Hw Hh3 Hw3) as (Hx & Hz & Hsum).
  destruct (gen_registers_lookup nm dh dw q0 ltac:(nia))
    as (q & Eq & Hmx & Hmz & _).
  set (nx := num_syn_X dh dw) in *. set (nz := num_syn_Z dh dw) in *.
  set (self := {| name := nm; lattice_params := with_T (generated dh dw) t;
                  lattice_qregisters := q; lattice_cregisters := c0;
                  circ := log |}).
  pose proof (stabilize_step self nx nz (register_of nm "mx" nx)
                (register_of nm "mz" nz) eq_refl ltac:(lia) Hmx Hmz) as E.
  cbv zeta in E. cbn [self name lattice_params with_T T circ
                      lattice_cregisters lattice_qregisters] in E.
  destruct (Z.ltb_spec 0 nz); [|lia]. destruct (Z.ltb_spec 0 nx); [|lia].
  set (creg := syndrome_register nm (nx + nz) (t + 1)) in E.
  exists q. eexists. exists creg.
  exists (slice 0 nz (bits creg)), (slice nz (nz + nx) (bits creg)).
  exists (Z.shiftl (Z.ones nx) nz), (Z.ones nz).
  split; [exact Eq|]. split; [exact E|]. cbn [circ app].
  split; [reflexivity|].
  split; [unfold creg; rewrite Hsum; reflexivity|].
  assert (Hsize : reg_size creg = nx + nz) by reflexivity.
  split; [rewrite slice_bits_length; lia|].
  split; [rewrite slice_bits_length; lia|].
  pose proof (mask_x_value nx nz ltac:(lia) ltac:(lia)) as Emx.
  pose proof (mask_z_value nz ltac:(lia)) as Emz.
  split; [exact Emx|]. split; [exact Emz|].
  split.
  { intros v. unfold x_syndromes. cbn [mapM]. unfold mask_x in Emx.
    rewrite Emx. cbn [bind]. unfold rshift.
    destruct (Z.ltb_spec nz 0); [lia | reflexivity]. }
  split.
  { intros v. unfold z_syndromes. unfold mask_z in Emz.
    destruct (repeat_seq (lit "1") nz) as [|c mask]; [discriminate Emz|].
    cbn [mapM]. rewrite Emz. reflexivity. }
  intros j Hj. rewrite !slice_bits_In by lia. split.
  - rewrite Z.shiftl_spec by exact Hj. rewrite Z.ones_spec_iff by lia. lia.
  - rewrite Z.ones_spec_iff by lia. lia.
Qed.

Lemma measured_fields_match_masks_witness :
  exists q self' creg zbits xbits m_x m_z,
    _gen_registers (lit "tq") (generated 3 5) [] = Done q /\
    stabilize {| name := lit "tq"; lattice_params := with_T (generated 3 5) (-1);
                 lattice_qregisters := q; lattice_cregisters := [];
                 circ := [] |} = Done self' /\
    circ self' =
      [] ++ [AddRegister creg; Entangle;
             Measure (register_of (lit "tq") "mz" (num_syn_Z 3 5)) zbits;
             Measure (register_of (lit "tq") "mx" (num_syn_X 3 5)) xbits;
             Reset (register_of (lit "tq") "mz" (num_syn_Z 3 5));
             Reset (register_of (lit "tq") "mx" (num_syn_X 3 5));
             Barrier] /\
    creg = syndrome_register (lit "tq") (3 * 5 - 1) (-1 + 1) /\
    Z.of_nat (length zbits) = num_syn_Z 3 5 /\
    Z.of_nat (length xbits) = num_syn_X 3 5 /\
    mask_x (num_syn_X 3 5) (num_syn_Z 3 5) = Ok m_x /\
    mask_z (num_syn_Z 3 5) = Ok m_z /\
    (forall v, x_syndromes (num_syn_X 3 5) (num_syn_Z 3 5) [v]
               = Ok [Z.shiftr (Z.land v m_x) (num_syn_Z 3 5)]) /\
    (forall v, z_syndromes (num_syn_Z 3 5) [v] = Ok [Z.land v m_z]) /\
    forall j, 0 <= j ->
      (Z.testbit m_x j = true <-> In (creg, j) xbits) /\
      (Z.testbit m_z j = true <-> In (creg, j) zbits).
Proof.
  apply (measured_fields_match_masks (lit "tq") [] [] [] 3 5 (-1));
    try reflexivity; lia.
Defined.
